(** * The Mini Mint: a shallow embedding of the ledger engine

    The ledger lives in PostgreSQL (schema, triggers, row-level security and
    PL/pgSQL RPCs under [supabase/migrations]) and is driven by a TypeScript
    client ([src/lib/transactions.ts], [src/pages/AddMoney.tsx]).

    Conventions of the embedding:
    - SQL [numeric] values are rationals ([Q]) and SQL arithmetic on them is
      exact; [ROUND(x, n)] rounds half away from zero.  JavaScript numbers are
      rationals too, with [NaN] kept apart where the client can produce it.
      Equality of amounts is therefore [Qeq] ([==]).
    - a table is the list of its rows, in insertion order;
    - a [date] is a day number and a [timestamptz] a number of seconds, both
      counted from 1970-01-01 UTC; the session time zone is UTC;
    - [uuid]s are natural numbers, and [gen_random_uuid()] is a fresh one;
      columns no operation reads ([transactions.id], [kids.name], the
      [created_at] and [updated_at] of the other tables) are left out;
    - a query of the client returns every row the caller may see;
    - an RPC is a computation over the database in a state-and-error monad;
      a raised exception aborts the call, and the caller keeps the database
      it had (the transaction is rolled back);
    - [pg_advisory_xact_lock] does nothing: calls are executed one at a time. *)

From Stdlib Require Import QArith Qround Qabs ZArith List String Ascii Bool.
From Stdlib Require Import DecimalString Sorted Lia Lqa.
Import ListNotations.
Local Open Scope Q_scope.

(* ================================================================== *)
(** ** SQL numerics *)

Module Numeric.

Fixpoint pow10 (n : nat) : positive :=
  match n with
  | O => 1%positive
  | S n' => (10 * pow10 n')%positive
  end.

Definition Qlt_bool (a b : Q) : bool := negb (Qle_bool b a).

(** Nearest integer, ties away from zero. *)
Definition round_half_away (x : Q) : Z :=
  if Qle_bool 0 x then Qfloor (x + (1 # 2))
  else Z.opp (Qfloor (Qopp x + (1 # 2))).

(** [ROUND(x, n)] of PostgreSQL on [numeric]. *)
Definition ROUND (x : Q) (n : nat) : Q :=
  Qmake (round_half_away (x * inject_Z (Zpos (pow10 n)))) (pow10 n).

Definition LEAST (a b : Z) : Z := Z.min a b.

Definition GREATEST (a b : Q) : Q := if Qle_bool a b then b else a.

Definition ABS (a : Q) : Q := Qabs a.

(** [SUM] is NULL over no rows; [COALESCE] replaces the NULL. *)
Definition SUM (xs : list Q) : option Q :=
  match xs with
  | [] => None
  | _ => Some (fold_left Qplus xs 0)
  end.

Definition COALESCE {A} (o : option A) (d : A) : A :=
  match o with
  | Some v => v
  | None => d
  end.

End Numeric.
Import Numeric.

(* ================================================================== *)
(** ** Dates *)

Module Calendar.
Local Open Scope Z_scope.

Definition date := Z.
Definition timestamptz := Z.
Bind Scope Z_scope with date timestamptz.

(** [utc_date(ts)]: [(ts AT TIME ZONE 'UTC')::date]. *)
Definition utc_date (ts : timestamptz) : date := ts / 86400.

Definition days_from_civil (y m d : Z) : date :=
  let y' := if m <=? 2 then y - 1 else y in
  let era := y' / 400 in
  let yoe := y' - era * 400 in
  let mp := if 2 <? m then m - 3 else m + 9 in
  let doy := (153 * mp + 2) / 5 + d - 1 in
  let doe := yoe * 365 + yoe / 4 - yoe / 100 + doy in
  era * 146097 + doe - 719468.

Definition civil_from_days (z : date) : Z * Z * Z :=
  let z' := z + 719468 in
  let era := z' / 146097 in
  let doe := z' - era * 146097 in
  let yoe := (doe - doe / 1460 + doe / 36524 - doe / 146096) / 365 in
  let doy := doe - (365 * yoe + yoe / 4 - yoe / 100) in
  let mp := (5 * doy + 2) / 153 in
  let d := doy - (153 * mp + 2) / 5 + 1 in
  let m := if mp <? 10 then mp + 3 else mp - 9 in
  let y := yoe + era * 400 in
  ((if m <=? 2 then y + 1 else y), m, d).

Definition is_leap (y : Z) : bool :=
  ((y mod 4 =? 0) && negb (y mod 100 =? 0)) || (y mod 400 =? 0).

Definition days_in_month (y m : Z) : Z :=
  if m =? 2 then (if is_leap y then 29 else 28)
  else if (m =? 4) || (m =? 6) || (m =? 9) || (m =? 11) then 30
  else 31.

(** [(d + (n || ' months')::interval)::date]: the month moves, and the day
    of the month is clamped to the length of the target month. *)
Definition add_months (d : date) (n : Z) : date :=
  let '(y, m, dd) := civil_from_days d in
  let total := y * 12 + (m - 1) + n in
  let y' := total / 12 in
  let m' := total mod 12 + 1 in
  days_from_civil y' m' (Z.min dd (days_in_month y' m')).

End Calendar.
Import Calendar.

(* ================================================================== *)
(** ** Schema ([001_initial_schema.sql], [010_household_isolation.sql]) *)

Definition uuid := nat.
Bind Scope nat_scope with uuid.

Inductive transaction_type :=
| deposit | withdraw | invest | redeem | interest | dividend | buy | sell.

Inductive transaction_bucket := cash | mmf | cd | stock.

Inductive cd_status := active | matured | broken.

Definition transaction_type_eqb (a b : transaction_type) : bool :=
  match a, b with
  | deposit, deposit | withdraw, withdraw | invest, invest | redeem, redeem
  | interest, interest | dividend, dividend | buy, buy | sell, sell => true
  | _, _ => false
  end.

Definition transaction_bucket_eqb (a b : transaction_bucket) : bool :=
  match a, b with
  | cash, cash | mmf, mmf | cd, cd | stock, stock => true
  | _, _ => false
  end.

Definition cd_status_eqb (a b : cd_status) : bool :=
  match a, b with
  | active, active | matured, matured | broken, broken => true
  | _, _ => false
  end.

(** [jsonb] objects, as far as the ledger writes and reads them. *)
Inductive jvalue :=
| JNum (q : Q)
| JStr (s : string)
| JNull.

Definition jsonb := list (string * jvalue).

Fixpoint jsonb_get (o : jsonb) (k : string) : option jvalue :=
  match o with
  | [] => None
  | (k', v) :: o' => if String.eqb k' k then Some v else jsonb_get o' k
  end.

Definition jsonb_has (o : jsonb) (k : string) : bool :=
  match jsonb_get o k with Some _ => true | None => false end.

(** [a || b]: the keys of [b] win. *)
Definition jsonb_concat (a b : jsonb) : jsonb :=
  filter (fun kv => negb (jsonb_has b (fst kv))) a ++ b.

Definition jsonb_is_empty (o : jsonb) : bool :=
  match o with [] => true | _ => false end.

Record transaction := mk_transaction {
  t_kid_id : uuid;
  t_type : transaction_type;
  t_bucket : transaction_bucket;
  t_amount : Q;                  (* numeric(12,2) *)
  t_note : option string;
  t_metadata : option jsonb;
  t_created_by : uuid;
  t_created_at : timestamptz
}.

Record cd_lot := mk_cd_lot {
  l_id : uuid;
  l_kid_id : uuid;
  l_principal : Q;               (* numeric(12,2) *)
  l_apy : Q;                     (* numeric(6,4) *)
  l_term_months : Z;
  l_start_date : date;
  l_maturity_date : date;
  l_status : cd_status
}.

Record stock_position := mk_stock_position {
  p_kid_id : uuid;
  p_ticker : string;
  p_shares : Q;                  (* numeric(16,8) *)
  p_cost_basis : Q               (* numeric(12,2) *)
}.

Record stock_price := mk_stock_price {
  sp_ticker : string;
  sp_date : date;
  sp_close_price : Q             (* numeric(12,4) *)
}.

Record admin_user := mk_admin_user {
  au_user_id : uuid;
  au_household_id : uuid
}.

Record kid := mk_kid {
  k_id : uuid;
  k_household_id : uuid
}.

(** The [settings] table; a value is kept as the number its text casts to. *)
Definition setting := (string * Q)%type.

Record database := mk_database {
  admin_users : list admin_user;
  kids : list kid;
  transactions : list transaction;
  cd_lots : list cd_lot;
  stock_positions : list stock_position;
  stock_prices : list stock_price;
  settings : list setting
}.

Definition set_transactions (db : database) (ts : list transaction) : database :=
  mk_database (admin_users db) (kids db) ts (cd_lots db)
              (stock_positions db) (stock_prices db) (settings db).

Definition set_cd_lots (db : database) (ls : list cd_lot) : database :=
  mk_database (admin_users db) (kids db) (transactions db) ls
              (stock_positions db) (stock_prices db) (settings db).

Definition set_stock_positions (db : database) (ps : list stock_position) : database :=
  mk_database (admin_users db) (kids db) (transactions db) (cd_lots db)
              ps (stock_prices db) (settings db).

(** What a statement sees of its session: [auth.uid()] and [now()]. *)
Record session := mk_session {
  auth_uid : uuid;
  now : timestamptz
}.

Definition CURRENT_DATE (s : session) : date := utc_date (now s).

(* ================================================================== *)
(** ** Errors and the RPC monad *)

Inductive error :=
(* RAISE EXCEPTION ... USING ERRCODE = 'P0001' *)
| Unauthorized
| InvalidAmount
| NoteTooLong
| InsufficientCash (have need : Q)
| InsufficientMmf (have need : Q)
| SettingNotFound (key : string)
| InvalidTerm
| CdLotNotFound
| CdLotNotActive
| CdNotYetMatured
| InvalidTicker
| NoPriceData
| PositionLimitReached
| NoShares
| InsufficientShares
(* raised by the tables themselves *)
| check_violation (constraint : string)
| unique_violation (constraint : string)
| foreign_key_violation (constraint : string)
| row_security_violation
| numeric_value_out_of_range
| division_by_zero
| invalid_text_representation
| append_only (tg_op : string).

Inductive result (A : Type) :=
| Ok (a : A)
| Err (e : error).
Arguments Ok {A} a.
Arguments Err {A} e.

Definition rpc (A : Type) : Type := database -> result (A * database).

Definition ret {A} (a : A) : rpc A := fun db => Ok (a, db).

Definition raise {A} (e : error) : rpc A := fun _ => Err e.

Definition bind {A B} (c : rpc A) (k : A -> rpc B) : rpc B :=
  fun db =>
    match c db with
    | Ok (a, db') => k a db'
    | Err e => Err e
    end.

Notation "x <- c ;; k" := (bind c (fun x => k))
  (at level 61, c at next level, right associativity).
Notation "c ;;; k" := (bind c (fun _ => k))
  (at level 61, right associativity).

(** [IF cond THEN RAISE EXCEPTION e; END IF;] *)
Definition raise_if (cond : bool) (e : error) : rpc unit :=
  if cond then raise e else ret tt.

Definition lift {A} (r : result A) : rpc A :=
  fun db => match r with Ok a => Ok (a, db) | Err e => Err e end.

Definition query {A} (f : database -> A) : rpc A := fun db => Ok (f db, db).

(** [PERFORM pg_advisory_xact_lock(hashtext(kid::text))]. *)
Definition pg_advisory_xact_lock (k : uuid) : rpc unit := ret tt.

(* ================================================================== *)
(** ** Row-level security (migration 010, section 4)

    [user_id] is the primary key of [admin_users] and [id] that of [kids], so
    the scalar subquery of the policies has at most one row. *)

(** Policy [household_only]: the row's kid is in the caller's household. *)
Definition household_only (db : database) (s : session) (kid_id : uuid) : bool :=
  existsb (fun k =>
    Nat.eqb (k_id k) kid_id &&
    existsb (fun au =>
      Nat.eqb (au_user_id au) (auth_uid s) &&
      Nat.eqb (k_household_id k) (au_household_id au)) (admin_users db))
    (kids db).

Definition rls_transactions (db : database) (s : session) : list transaction :=
  filter (fun t => household_only db s (t_kid_id t)) (transactions db).

Definition rls_cd_lots (db : database) (s : session) : list cd_lot :=
  filter (fun l => household_only db s (l_kid_id l)) (cd_lots db).

Definition rls_stock_positions (db : database) (s : session) : list stock_position :=
  filter (fun p => household_only db s (p_kid_id p)) (stock_positions db).

(** Policy [admin_only] on [stock_prices] and [settings]. *)
Definition admin_only (db : database) (s : session) : bool :=
  existsb (fun au => Nat.eqb (au_user_id au) (auth_uid s)) (admin_users db).

Definition rls_stock_prices (db : database) (s : session) : list stock_price :=
  if admin_only db s then stock_prices db else [].

Definition rls_settings (db : database) (s : session) : list setting :=
  if admin_only db s then settings db else [].

(* ================================================================== *)
(** ** The tables: column types, constraints, indexes and triggers *)

(** A value stored in a [numeric(p, s)] column. *)
Definition numeric_typmod (p s : nat) (v : Q) : result Q :=
  let r := ROUND v s in
  if Qlt_bool (ABS r) (inject_Z (Zpos (pow10 (p - s)))) then Ok r
  else Err numeric_value_out_of_range.

Definition note_length_ok (note : option string) : bool :=
  match note with
  | None => true
  | Some n => Nat.leb (String.length n) 500
  end.

(** [chk_valid_type_bucket]. *)
Definition valid_type_bucket (ty : transaction_type) (b : transaction_bucket) : bool :=
  match ty, b with
  | deposit, cash => true
  | withdraw, cash => true
  | invest, (cash | mmf) => true
  | redeem, (cash | mmf | cd) => true
  | interest, mmf => true
  | dividend, cash => true
  | buy, (cash | stock) => true
  | sell, (cash | stock) => true
  | _, _ => false
  end.

(** The key of [uq_interest_per_kid_per_day] is already taken. *)
Definition interest_day_taken (db : database) (kid_id : uuid)
           (b : transaction_bucket) (d : date) : bool :=
  existsb (fun t =>
    transaction_type_eqb (t_type t) interest &&
    Nat.eqb (t_kid_id t) kid_id &&
    transaction_bucket_eqb (t_bucket t) b &&
    Z.eqb (utc_date (t_created_at t)) d) (transactions db).

Definition kid_exists (db : database) (kid_id : uuid) : bool :=
  existsb (fun k => Nat.eqb (k_id k) kid_id) (kids db).

(** [INSERT INTO transactions (...) VALUES (...)]; [created_at] is [now()]. *)
Definition insert_transaction (s : session) (kid_id : uuid)
           (ty : transaction_type) (b : transaction_bucket) (amount : Q)
           (note : option string) (metadata : option jsonb)
           (created_by : uuid) : rpc unit :=
  fun db =>
    match numeric_typmod 12 2 amount with
    | Err e => Err e
    | Ok amt =>
      if negb (Qle_bool (ABS amt) 100000) then
        Err (check_violation "chk_amount_range")
      else if negb (Qeq_bool amt (ROUND amt 2)) then
        Err (check_violation "chk_amount_precision")
      else if negb (note_length_ok note) then
        Err (check_violation "chk_note_length")
      else if negb (valid_type_bucket ty b) then
        Err (check_violation "chk_valid_type_bucket")
      else if transaction_type_eqb ty interest
              && interest_day_taken db kid_id b (utc_date (now s)) then
        Err (unique_violation "uq_interest_per_kid_per_day")
      else if negb (kid_exists db kid_id) then
        Err (foreign_key_violation "transactions_kid_id_fkey")
      else if negb (household_only db s kid_id) then
        Err row_security_violation
      else
        Ok (tt, set_transactions db
                  (transactions db ++
                   [mk_transaction kid_id ty b amt note metadata created_by (now s)]))
    end.

(** [prevent_txn_mutation()], the function of trigger [enforce_append_only]. *)
Definition prevent_txn_mutation (tg_op : string) (old : transaction)
  : result (option transaction) :=
  Err (append_only tg_op).

(** A [BEFORE UPDATE OR DELETE ... FOR EACH ROW] trigger runs on every row the
    statement is about to touch; an exception in it aborts the statement. *)
Fixpoint for_each_row (trigger : transaction -> result (option transaction))
         (touched : transaction -> bool)
         (change : transaction -> option transaction)
         (rows : list transaction) : result (list transaction) :=
  match rows with
  | [] => Ok []
  | r :: rows' =>
    if touched r then
      match trigger r with
      | Err e => Err e
      | Ok _ =>
        match for_each_row trigger touched change rows' with
        | Err e => Err e
        | Ok rest => Ok (match change r with Some r' => r' :: rest | None => rest end)
        end
      end
    else
      match for_each_row trigger touched change rows' with
      | Err e => Err e
      | Ok rest => Ok (r :: rest)
      end
  end.

(** [UPDATE transactions SET ... WHERE ...] issued by any caller. *)
Definition update_transactions (s : session) (where_ : transaction -> bool)
           (set_ : transaction -> transaction) : rpc unit :=
  fun db =>
    match for_each_row (prevent_txn_mutation "UPDATE")
            (fun t => household_only db s (t_kid_id t) && where_ t)
            (fun t => Some (set_ t)) (transactions db) with
    | Err e => Err e
    | Ok rows => Ok (tt, set_transactions db rows)
    end.

(** [DELETE FROM transactions WHERE ...] issued by any caller. *)
Definition delete_transactions (s : session) (where_ : transaction -> bool)
  : rpc unit :=
  fun db =>
    match for_each_row (prevent_txn_mutation "DELETE")
            (fun t => household_only db s (t_kid_id t) && where_ t)
            (fun _ => None) (transactions db) with
    | Err e => Err e
    | Ok rows => Ok (tt, set_transactions db rows)
    end.

Definition fresh_uuid (db : database) : uuid :=
  S (list_max (map l_id (cd_lots db))).

Definition term_valid (term_months : Z) : bool :=
  (Z.eqb term_months 3 || Z.eqb term_months 6 || Z.eqb term_months 12)%bool.

(** [INSERT INTO cd_lots (...) VALUES (...) RETURNING cd_lots.id]. *)
Definition insert_cd_lot (s : session) (kid_id : uuid) (principal apy : Q)
           (term_months : Z) (start_date maturity_date : date)
           (status : cd_status) : rpc uuid :=
  fun db =>
    match numeric_typmod 12 2 principal, numeric_typmod 6 4 apy with
    | Err e, _ => Err e
    | _, Err e => Err e
    | Ok pr, Ok ap =>
      if negb (Qlt_bool 0 pr && Qle_bool pr 100000) then
        Err (check_violation "chk_principal_positive")
      else if negb (Qle_bool 0 ap && Qle_bool ap 0.20) then
        Err (check_violation "chk_apy_range")
      else if negb (term_valid term_months) then
        Err (check_violation "chk_term_valid")
      else if negb (kid_exists db kid_id) then
        Err (foreign_key_violation "cd_lots_kid_id_fkey")
      else if negb (household_only db s kid_id) then
        Err row_security_violation
      else
        let id := fresh_uuid db in
        Ok (id, set_cd_lots db
                  (cd_lots db ++
                   [mk_cd_lot id kid_id pr ap term_months start_date
                              maturity_date status]))
    end.

Definition set_status (l : cd_lot) (status : cd_status) : cd_lot :=
  mk_cd_lot (l_id l) (l_kid_id l) (l_principal l) (l_apy l) (l_term_months l)
            (l_start_date l) (l_maturity_date l) status.

(** [UPDATE cd_lots SET status = ... WHERE id = ...]. *)
Definition update_cd_lot_status (s : session) (lot_id : uuid) (status : cd_status)
  : rpc unit :=
  fun db =>
    Ok (tt, set_cd_lots db
              (map (fun l =>
                      if household_only db s (l_kid_id l) && Nat.eqb (l_id l) lot_id
                      then set_status l status
                      else l) (cd_lots db))).

(** [ticker ~ '^[A-Z]{1,10}$']. *)
Definition is_upper (c : ascii) : bool :=
  let n := nat_of_ascii c in Nat.leb 65 n && Nat.leb n 90.

Fixpoint all_upper (t : string) : bool :=
  match t with
  | EmptyString => true
  | String c t' => is_upper c && all_upper t'
  end.

Definition ticker_format (t : string) : bool :=
  Nat.leb 1 (String.length t) && Nat.leb (String.length t) 10 && all_upper t.

Definition same_position (kid_id : uuid) (ticker : string) (p : stock_position) : bool :=
  Nat.eqb (p_kid_id p) kid_id && String.eqb (p_ticker p) ticker.

(** A row of [stock_positions] as the table accepts it. *)
Definition checked_position (kid_id : uuid) (ticker : string) (shares cost_basis : Q)
  : result stock_position :=
  match numeric_typmod 16 8 shares, numeric_typmod 12 2 cost_basis with
  | Err e, _ => Err e
  | _, Err e => Err e
  | Ok sh, Ok cb =>
    if negb (ticker_format ticker) then Err (check_violation "chk_ticker_format")
    else if negb (Qle_bool 0 sh) then Err (check_violation "chk_shares_non_negative")
    else if negb (Qle_bool 0 cb) then Err (check_violation "chk_cost_basis_non_negative")
    else Ok (mk_stock_position kid_id ticker sh cb)
  end.

(** [UPDATE stock_positions SET shares = f shares, cost_basis = g cost_basis
    WHERE kid_id = ... AND ticker = ...]. *)
Fixpoint update_position_rows (kid_id : uuid) (ticker : string)
         (new_shares new_cost : stock_position -> Q)
         (rows : list stock_position) : result (list stock_position) :=
  match rows with
  | [] => Ok []
  | p :: rows' =>
    match update_position_rows kid_id ticker new_shares new_cost rows' with
    | Err e => Err e
    | Ok rest =>
      if same_position kid_id ticker p then
        match checked_position (p_kid_id p) (p_ticker p) (new_shares p) (new_cost p) with
        | Err e => Err e
        | Ok p' => Ok (p' :: rest)
        end
      else Ok (p :: rest)
    end
  end.

Definition update_stock_position (s : session) (kid_id : uuid) (ticker : string)
           (new_shares new_cost : stock_position -> Q) : rpc unit :=
  fun db =>
    match update_position_rows kid_id ticker new_shares new_cost
            (stock_positions db) with
    | Err e => Err e
    | Ok rows => Ok (tt, set_stock_positions db rows)
    end.

(** [INSERT INTO stock_positions (kid_id, ticker, shares, cost_basis)
    VALUES (...) ON CONFLICT (kid_id, ticker) DO UPDATE
    SET shares = stock_positions.shares + v_shares,
        cost_basis = stock_positions.cost_basis + p_dollar_amount]. *)
Definition upsert_stock_position (s : session) (kid_id : uuid) (ticker : string)
           (v_shares p_dollar_amount : Q) : rpc unit :=
  fun db =>
    if existsb (same_position kid_id ticker) (stock_positions db) then
      update_stock_position s kid_id ticker
        (fun p => p_shares p + v_shares)
        (fun p => p_cost_basis p + p_dollar_amount) db
    else
      match checked_position kid_id ticker v_shares p_dollar_amount with
      | Err e => Err e
      | Ok p =>
        if negb (kid_exists db kid_id) then
          Err (foreign_key_violation "stock_positions_kid_id_fkey")
        else if negb (household_only db s kid_id) then Err row_security_violation
        else Ok (tt, set_stock_positions db (stock_positions db ++ [p]))
      end.

(** [DELETE FROM stock_positions WHERE kid_id = ... AND ticker = ...]. *)
Definition delete_stock_position (s : session) (kid_id : uuid) (ticker : string)
  : rpc unit :=
  fun db =>
    Ok (tt, set_stock_positions db
              (filter (fun p => negb (household_only db s (p_kid_id p)
                                      && same_position kid_id ticker p))
                      (stock_positions db))).

(* ================================================================== *)
(** ** Queries shared by the RPCs *)

(** The first row with the largest key: [ORDER BY key DESC LIMIT 1]. *)
Fixpoint max_by {A} (key : A -> Z) (rows : list A) : option A :=
  match rows with
  | [] => None
  | r :: rows' =>
    match max_by key rows' with
    | None => Some r
    | Some r' => if Z.ltb (key r) (key r') then Some r' else Some r
    end
  end.

(** The first row with the smallest key: [ORDER BY key ASC LIMIT 1]. *)
Fixpoint min_by {A} (key : A -> Z) (rows : list A) : option A :=
  match rows with
  | [] => None
  | r :: rows' =>
    match min_by key rows' with
    | None => Some r
    | Some r' => if Z.ltb (key r') (key r) then Some r' else Some r
    end
  end.

Definition in_bucket (kid_id : uuid) (b : transaction_bucket) (t : transaction) : bool :=
  Nat.eqb (t_kid_id t) kid_id && transaction_bucket_eqb (t_bucket t) b.

(** [SELECT COALESCE(SUM(t.amount), 0.00) FROM transactions t
    WHERE t.kid_id = p_kid_id AND t.bucket = b]. *)
Definition select_balance (s : session) (kid_id : uuid) (b : transaction_bucket)
  : rpc Q :=
  query (fun db =>
    COALESCE (SUM (map t_amount (filter (in_bucket kid_id b) (rls_transactions db s)))) 0).

(** [SELECT s.value::numeric FROM settings s WHERE s.key = key]. *)
Definition select_setting (s : session) (key : string) : rpc (option Q) :=
  query (fun db =>
    option_map snd (find (fun kv => String.eqb (fst kv) key) (rls_settings db s))).

(** [value::integer] of a setting. *)
Definition to_integer (v : Q) : result Z :=
  let r := Qred v in
  if Pos.eqb (Qden r) 1 then Ok (Qnum r) else Err invalid_text_representation.

Definition of_type (kid_id : uuid) (ty : transaction_type) (b : transaction_bucket)
           (t : transaction) : bool :=
  Nat.eqb (t_kid_id t) kid_id && transaction_type_eqb (t_type t) ty
  && transaction_bucket_eqb (t_bucket t) b.

(** [SELECT utc_date(t.created_at) FROM transactions t WHERE t.kid_id = ...
    AND t.type = ty AND t.bucket = b ORDER BY t.created_at DESC LIMIT 1]. *)
Definition select_last_date (s : session) (kid_id : uuid) (ty : transaction_type)
           (b : transaction_bucket) : rpc (option date) :=
  query (fun db =>
    option_map (fun t => utc_date (t_created_at t))
      (max_by t_created_at (filter (of_type kid_id ty b) (rls_transactions db s)))).

(** The same with [ORDER BY t.created_at ASC LIMIT 1]. *)
Definition select_first_date (s : session) (kid_id : uuid) (ty : transaction_type)
           (b : transaction_bucket) : rpc (option date) :=
  query (fun db =>
    option_map (fun t => utc_date (t_created_at t))
      (min_by t_created_at (filter (of_type kid_id ty b) (rls_transactions db s)))).

(** [SELECT sp.close_price FROM stock_prices sp WHERE sp.ticker = p_ticker
    ORDER BY sp.date DESC LIMIT 1]. *)
Definition select_latest_price (s : session) (ticker : string) : rpc (option Q) :=
  query (fun db =>
    option_map sp_close_price
      (max_by sp_date (filter (fun sp => String.eqb (sp_ticker sp) ticker)
                              (rls_stock_prices db s)))).

(** [SELECT cl.* FROM cd_lots cl WHERE cl.id = p_cd_lot_id]. *)
Definition select_cd_lot (s : session) (lot_id : uuid) : rpc (option cd_lot) :=
  query (fun db => find (fun l => Nat.eqb (l_id l) lot_id) (rls_cd_lots db s)).

(** [SELECT spos.* FROM stock_positions spos WHERE spos.kid_id = ...
    AND spos.ticker = ...]. *)
Definition select_position (s : session) (kid_id : uuid) (ticker : string)
  : rpc (option stock_position) :=
  query (fun db => find (same_position kid_id ticker) (rls_stock_positions db s)).

(** [SELECT COUNT( * ) FROM stock_positions spos WHERE spos.kid_id = ...
    AND spos.shares > 0]. *)
Definition count_positions (s : session) (kid_id : uuid) : rpc Z :=
  query (fun db =>
    Z.of_nat (List.length
      (filter (fun p => Nat.eqb (p_kid_id p) kid_id && Qlt_bool 0 (p_shares p))
              (rls_stock_positions db s)))).

(** The auth and household ownership check that opens every RPC:
    [IF NOT EXISTS (SELECT 1 FROM admin_users au JOIN kids k
    ON k.household_id = au.household_id WHERE au.user_id = v_caller_id
    AND k.id = p_kid_id) THEN RAISE EXCEPTION 'Unauthorized ...']. *)
Definition has_access (db : database) (v_caller_id kid_id : uuid) : bool :=
  existsb (fun au =>
    Nat.eqb (au_user_id au) v_caller_id &&
    existsb (fun k =>
      Nat.eqb (k_household_id k) (au_household_id au) &&
      Nat.eqb (k_id k) kid_id) (kids db)) (admin_users db).

Definition check_access (v_caller_id kid_id : uuid) : rpc unit :=
  ok <- query (fun db => has_access db v_caller_id kid_id) ;;
  raise_if (negb ok) Unauthorized.

(** [p_amount <= 0 OR p_amount > 100000 OR p_amount != ROUND(p_amount, 2)]. *)
Definition invalid_amount (p_amount : Q) : bool :=
  Qle_bool p_amount 0 || Qlt_bool 100000 p_amount
  || negb (Qeq_bool p_amount (ROUND p_amount 2)).

(** [p_note IS NOT NULL AND LENGTH(p_note) > 500]. *)
Definition note_too_long (p_note : option string) : bool :=
  match p_note with
  | None => false
  | Some n => Nat.ltb 500 (String.length n)
  end.

(** [x / y] on [numeric]. *)
Definition sql_div (x y : Q) : rpc Q :=
  if Qeq_bool y 0 then raise division_by_zero else ret (x / y).

(** An integer printed by [format('%s', n)] or [|| n ||]. *)
Definition text_of_integer (n : Z) : string :=
  NilZero.string_of_int (Z.to_int n).

Definition JInt (n : Z) : jvalue := JNum (inject_Z n).
Definition JUuid (u : uuid) : jvalue := JNum (inject_Z (Z.of_nat u)).

(* ================================================================== *)
(** ** The RPCs (migrations 010, section 5, and 011, section 2) *)

(** [deposit_to_cash(p_kid_id, p_amount, p_note, p_source, p_metadata)]
    returns [new_balance]. *)
Definition deposit_to_cash (s : session) (p_kid_id : uuid) (p_amount : Q)
           (p_note p_source : option string) (p_metadata : option jsonb) : rpc Q :=
  let v_caller_id := auth_uid s in
  check_access v_caller_id p_kid_id ;;;
  raise_if (invalid_amount p_amount) InvalidAmount ;;;
  raise_if (note_too_long p_note) NoteTooLong ;;;
  pg_advisory_xact_lock p_kid_id ;;;
  let v_final_metadata := COALESCE p_metadata [] in
  let v_final_metadata :=
    match p_source with
    | Some src => jsonb_concat v_final_metadata [("source"%string, JStr src)]
    | None => v_final_metadata
    end in
  let v_final_metadata :=
    if jsonb_is_empty v_final_metadata then None else Some v_final_metadata in
  insert_transaction s p_kid_id deposit cash p_amount p_note v_final_metadata
                     v_caller_id ;;;
  select_balance s p_kid_id cash.

(** [withdraw_from_cash(p_kid_id, p_amount, p_note)] returns [new_balance]. *)
Definition withdraw_from_cash (s : session) (p_kid_id : uuid) (p_amount : Q)
           (p_note : option string) : rpc Q :=
  let v_caller_id := auth_uid s in
  check_access v_caller_id p_kid_id ;;;
  raise_if (invalid_amount p_amount) InvalidAmount ;;;
  raise_if (note_too_long p_note) NoteTooLong ;;;
  pg_advisory_xact_lock p_kid_id ;;;
  v_balance <- select_balance s p_kid_id cash ;;
  raise_if (Qlt_bool v_balance p_amount) (InsufficientCash v_balance p_amount) ;;;
  insert_transaction s p_kid_id withdraw cash (- p_amount) p_note None v_caller_id ;;;
  select_balance s p_kid_id cash.

(** [invest_in_mmf(p_kid_id, p_amount)] returns [(cash_balance, mmf_balance)]. *)
Definition invest_in_mmf (s : session) (p_kid_id : uuid) (p_amount : Q)
  : rpc (Q * Q) :=
  let v_caller_id := auth_uid s in
  check_access v_caller_id p_kid_id ;;;
  raise_if (invalid_amount p_amount) InvalidAmount ;;;
  pg_advisory_xact_lock p_kid_id ;;;
  v_cash <- select_balance s p_kid_id cash ;;
  raise_if (Qlt_bool v_cash p_amount) (InsufficientCash v_cash p_amount) ;;;
  insert_transaction s p_kid_id invest cash (- p_amount) None None v_caller_id ;;;
  insert_transaction s p_kid_id invest mmf p_amount None None v_caller_id ;;;
  cash_balance <- select_balance s p_kid_id cash ;;
  mmf_balance <- select_balance s p_kid_id mmf ;;
  ret (cash_balance, mmf_balance).

(** [redeem_from_mmf(p_kid_id, p_amount)] returns [(cash_balance, mmf_balance)]. *)
Definition redeem_from_mmf (s : session) (p_kid_id : uuid) (p_amount : Q)
  : rpc (Q * Q) :=
  let v_caller_id := auth_uid s in
  check_access v_caller_id p_kid_id ;;;
  raise_if (invalid_amount p_amount) InvalidAmount ;;;
  pg_advisory_xact_lock p_kid_id ;;;
  v_mmf <- select_balance s p_kid_id mmf ;;
  raise_if (Qlt_bool v_mmf p_amount) (InsufficientMmf v_mmf p_amount) ;;;
  insert_transaction s p_kid_id redeem mmf (- p_amount) None None v_caller_id ;;;
  insert_transaction s p_kid_id redeem cash p_amount None None v_caller_id ;;;
  cash_balance <- select_balance s p_kid_id cash ;;
  mmf_balance <- select_balance s p_kid_id mmf ;;
  ret (cash_balance, mmf_balance).

(** [accrue_mmf_interest(p_kid_id)] returns
    [(interest_credited, new_mmf_balance)]. *)
Definition accrue_mmf_interest (s : session) (p_kid_id : uuid) : rpc (Q * Q) :=
  let v_caller_id := auth_uid s in
  check_access v_caller_id p_kid_id ;;;
  pg_advisory_xact_lock p_kid_id ;;;
  v_mmf_balance <- select_balance s p_kid_id mmf ;;
  if Qle_bool v_mmf_balance 0 then ret (0, v_mmf_balance) else
  v_apy <- select_setting s "mmf_apy" ;;
  match v_apy with
  | None => raise (SettingNotFound "mmf_apy")
  | Some v_apy =>
    v_last_accrual_date <- select_last_date s p_kid_id interest mmf ;;
    v_last_accrual_date <-
      match v_last_accrual_date with
      | None => select_first_date s p_kid_id invest mmf
      | Some d => ret (Some d)
      end ;;
    match v_last_accrual_date with
    | None => ret (0, v_mmf_balance)
    | Some v_last_accrual_date =>
      let v_days := (CURRENT_DATE s - v_last_accrual_date)%Z in
      if Z.leb v_days 0 then ret (0, v_mmf_balance) else
      let v_interest := ROUND (v_mmf_balance * (v_apy / 365) * inject_Z v_days) 2 in
      if Qle_bool v_interest 0 then ret (0, v_mmf_balance) else
      insert_transaction s p_kid_id interest mmf v_interest None
        (Some [("days_accrued"%string, JInt v_days);
               ("apy_at_accrual"%string, JNum v_apy);
               ("balance_at_accrual"%string, JNum v_mmf_balance)])
        v_caller_id ;;;
      ret (v_interest, v_mmf_balance + v_interest)
    end
  end.

(** [create_cd(p_kid_id, p_amount, p_term_months)] returns
    [(cd_lot_id, maturity_date, apy)]. *)
Definition create_cd (s : session) (p_kid_id : uuid) (p_amount : Q)
           (p_term_months : Z) : rpc (uuid * date * Q) :=
  let v_caller_id := auth_uid s in
  check_access v_caller_id p_kid_id ;;;
  raise_if (negb (term_valid p_term_months)) InvalidTerm ;;;
  raise_if (invalid_amount p_amount) InvalidAmount ;;;
  pg_advisory_xact_lock p_kid_id ;;;
  v_cash <- select_balance s p_kid_id cash ;;
  raise_if (Qlt_bool v_cash p_amount) (InsufficientCash v_cash p_amount) ;;;
  let v_setting_key :=
    ("cd_" ++ text_of_integer p_term_months ++ "m_apy")%string in
  v_apy <- select_setting s v_setting_key ;;
  match v_apy with
  | None => raise (SettingNotFound v_setting_key)
  | Some v_apy =>
    let v_maturity := add_months (CURRENT_DATE s) p_term_months in
    insert_transaction s p_kid_id invest cash (- p_amount) None None v_caller_id ;;;
    v_lot_id <- insert_cd_lot s p_kid_id p_amount v_apy p_term_months
                              (CURRENT_DATE s) v_maturity active ;;
    ret (v_lot_id, v_maturity, v_apy)
  end.

(** [mature_cd(p_cd_lot_id)] returns
    [(principal_returned, interest_earned, total_returned)]. *)
Definition mature_cd (s : session) (p_cd_lot_id : uuid) : rpc (Q * Q * Q) :=
  let v_caller_id := auth_uid s in
  v_lot <- select_cd_lot s p_cd_lot_id ;;
  match v_lot with
  | None => raise CdLotNotFound
  | Some v_lot =>
    check_access v_caller_id (l_kid_id v_lot) ;;;
    raise_if (negb (cd_status_eqb (l_status v_lot) active)) CdLotNotActive ;;;
    raise_if (Z.ltb (CURRENT_DATE s) (l_maturity_date v_lot)) CdNotYetMatured ;;;
    pg_advisory_xact_lock (l_kid_id v_lot) ;;;
    let v_days := (l_maturity_date v_lot - l_start_date v_lot)%Z in
    let v_interest :=
      ROUND (l_principal v_lot * l_apy v_lot * inject_Z v_days / 365) 2 in
    let v_total := l_principal v_lot + v_interest in
    update_cd_lot_status s p_cd_lot_id matured ;;;
    insert_transaction s (l_kid_id v_lot) redeem cash v_total
      (Some (text_of_integer (l_term_months v_lot) ++ "-month CD matured")%string)
      (Some [("cd_lot_id"%string, JUuid p_cd_lot_id);
             ("principal"%string, JNum (l_principal v_lot));
             ("interest"%string, JNum v_interest);
             ("apy"%string, JNum (l_apy v_lot));
             ("days_held"%string, JInt v_days)])
      v_caller_id ;;;
    ret (l_principal v_lot, v_interest, v_total)
  end.

(** [break_cd(p_cd_lot_id)] returns
    [(principal_returned, interest_earned, penalty, net_returned)]. *)
Definition break_cd (s : session) (p_cd_lot_id : uuid) : rpc (Q * Q * Q * Q) :=
  let v_caller_id := auth_uid s in
  v_lot <- select_cd_lot s p_cd_lot_id ;;
  match v_lot with
  | None => raise CdLotNotFound
  | Some v_lot =>
    check_access v_caller_id (l_kid_id v_lot) ;;;
    raise_if (negb (cd_status_eqb (l_status v_lot) active)) CdLotNotActive ;;;
    pg_advisory_xact_lock (l_kid_id v_lot) ;;;
    let v_days := (CURRENT_DATE s - l_start_date v_lot)%Z in
    let v_interest :=
      ROUND (l_principal v_lot * l_apy v_lot * inject_Z v_days / 365) 2 in
    let v_penalty_days := LEAST v_days 30 in
    let v_penalty :=
      ROUND (l_principal v_lot * l_apy v_lot * inject_Z v_penalty_days / 365) 2 in
    let v_net := l_principal v_lot + GREATEST (v_interest - v_penalty) 0 in
    update_cd_lot_status s p_cd_lot_id broken ;;;
    insert_transaction s (l_kid_id v_lot) redeem cash v_net
      (Some (text_of_integer (l_term_months v_lot) ++ "-month CD broken early (day "
             ++ text_of_integer v_days ++ " of "
             ++ text_of_integer (l_maturity_date v_lot - l_start_date v_lot)
             ++ ")")%string)
      (Some [("cd_lot_id"%string, JUuid p_cd_lot_id);
             ("principal"%string, JNum (l_principal v_lot));
             ("interest_earned"%string, JNum v_interest);
             ("penalty"%string, JNum v_penalty);
             ("penalty_days"%string, JInt v_penalty_days);
             ("net_returned"%string, JNum v_net);
             ("days_held"%string, JInt v_days);
             ("apy"%string, JNum (l_apy v_lot))])
      v_caller_id ;;;
    ret (l_principal v_lot, v_interest, v_penalty, v_net)
  end.

Definition trade_metadata (p_ticker : string) (v_shares v_price : Q) : jsonb :=
  [("ticker"%string, JStr p_ticker); ("shares"%string, JNum v_shares);
   ("price_per_share"%string, JNum v_price)].

(** [buy_stock(p_kid_id, p_ticker, p_dollar_amount)] returns
    [(shares_bought, price_per_share, new_cash_balance)]. *)
Definition buy_stock (s : session) (p_kid_id : uuid) (p_ticker : string)
           (p_dollar_amount : Q) : rpc (Q * Q * Q) :=
  let v_caller_id := auth_uid s in
  check_access v_caller_id p_kid_id ;;;
  raise_if (negb (ticker_format p_ticker)) InvalidTicker ;;;
  raise_if (invalid_amount p_dollar_amount) InvalidAmount ;;;
  pg_advisory_xact_lock p_kid_id ;;;
  v_price <- select_latest_price s p_ticker ;;
  match v_price with
  | None => raise NoPriceData
  | Some v_price =>
    v_has_position <-
      query (fun db => existsb (same_position p_kid_id p_ticker)
                               (rls_stock_positions db s)) ;;
    (if negb v_has_position then
       v_position_count <- count_positions s p_kid_id ;;
       v_position_limit <- select_setting s "stock_position_limit" ;;
       v_position_limit <-
         match v_position_limit with
         | None => ret 5%Z
         | Some v => lift (to_integer v)
         end ;;
       raise_if (Z.leb v_position_limit v_position_count) PositionLimitReached
     else ret tt) ;;;
    v_cash <- select_balance s p_kid_id cash ;;
    raise_if (Qlt_bool v_cash p_dollar_amount)
             (InsufficientCash v_cash p_dollar_amount) ;;;
    q <- sql_div p_dollar_amount v_price ;;
    let v_shares := ROUND q 8 in
    insert_transaction s p_kid_id buy cash (- p_dollar_amount) None
      (Some (trade_metadata p_ticker v_shares v_price)) v_caller_id ;;;
    insert_transaction s p_kid_id buy stock p_dollar_amount None
      (Some (trade_metadata p_ticker v_shares v_price)) v_caller_id ;;;
    upsert_stock_position s p_kid_id p_ticker v_shares p_dollar_amount ;;;
    new_cash_balance <- select_balance s p_kid_id cash ;;
    ret (v_shares, v_price, new_cash_balance)
  end.

Definition sale_metadata (p_ticker : string) (v_shares v_price v_gain : Q) : jsonb :=
  [("ticker"%string, JStr p_ticker); ("shares"%string, JNum v_shares);
   ("price_per_share"%string, JNum v_price);
   ("realized_gain_loss"%string, JNum v_gain)].

(** [sell_stock(p_kid_id, p_ticker, p_dollar_amount)], 0 meaning "sell all",
    returns [(shares_sold, price_per_share, proceeds, realized_gain_loss,
    new_cash_balance)]. *)
Definition sell_stock (s : session) (p_kid_id : uuid) (p_ticker : string)
           (p_dollar_amount : Q) : rpc (Q * Q * Q * Q * Q) :=
  let v_caller_id := auth_uid s in
  check_access v_caller_id p_kid_id ;;;
  raise_if (negb (ticker_format p_ticker)) InvalidTicker ;;;
  raise_if (Qlt_bool p_dollar_amount 0 || Qlt_bool 100000 p_dollar_amount)
           InvalidAmount ;;;
  raise_if (Qlt_bool 0 p_dollar_amount
            && negb (Qeq_bool p_dollar_amount (ROUND p_dollar_amount 2)))
           InvalidAmount ;;;
  pg_advisory_xact_lock p_kid_id ;;;
  v_price <- select_latest_price s p_ticker ;;
  match v_price with
  | None => raise NoPriceData
  | Some v_price =>
    v_position <- select_position s p_kid_id p_ticker ;;
    match v_position with
    | None => raise NoShares
    | Some v_position =>
      raise_if (Qle_bool (p_shares v_position) 0) NoShares ;;;
      sold <-
        (if Qeq_bool p_dollar_amount 0 then
           ret (p_shares v_position, ROUND (p_shares v_position * v_price) 2)
         else
           q <- sql_div p_dollar_amount v_price ;;
           let v_shares_to_sell := ROUND q 8 in
           raise_if (Qlt_bool (p_shares v_position) v_shares_to_sell)
                    InsufficientShares ;;;
           ret (v_shares_to_sell, p_dollar_amount)) ;;
      let '(v_shares_to_sell, v_actual_proceeds) := sold in
      v_avg_cost_per_share <-
        sql_div (p_cost_basis v_position) (p_shares v_position) ;;
      let v_cost_of_sold := ROUND (v_avg_cost_per_share * v_shares_to_sell) 2 in
      let v_gain := ROUND (v_actual_proceeds - v_cost_of_sold) 2 in
      insert_transaction s p_kid_id sell cash v_actual_proceeds None
        (Some (sale_metadata p_ticker v_shares_to_sell v_price v_gain))
        v_caller_id ;;;
      insert_transaction s p_kid_id sell stock (- v_actual_proceeds) None
        (Some (sale_metadata p_ticker v_shares_to_sell v_price v_gain))
        v_caller_id ;;;
      (if Qle_bool (p_shares v_position) v_shares_to_sell then
         delete_stock_position s p_kid_id p_ticker
       else
         update_stock_position s p_kid_id p_ticker
           (fun p => p_shares p - v_shares_to_sell)
           (fun p => p_cost_basis p - v_cost_of_sold)) ;;;
      new_cash_balance <- select_balance s p_kid_id cash ;;
      ret (v_shares_to_sell, v_price, v_actual_proceeds, v_gain, new_cash_balance)
    end
  end.

(** [spend_from_mmf(p_kid_id, p_amount, p_note)] returns [new_mmf_balance]. *)
Definition spend_from_mmf (s : session) (p_kid_id : uuid) (p_amount : Q)
           (p_note : option string) : rpc Q :=
  let v_caller_id := auth_uid s in
  check_access v_caller_id p_kid_id ;;;
  raise_if (invalid_amount p_amount) InvalidAmount ;;;
  pg_advisory_xact_lock p_kid_id ;;;
  v_mmf <- select_balance s p_kid_id mmf ;;
  raise_if (Qlt_bool v_mmf p_amount) (InsufficientMmf v_mmf p_amount) ;;;
  insert_transaction s p_kid_id redeem mmf (- p_amount) p_note
    (Some [("reason"%string, JStr "spend")]) v_caller_id ;;;
  insert_transaction s p_kid_id redeem cash p_amount p_note
    (Some [("reason"%string, JStr "spend"); ("funded_from"%string, JStr "mmf")])
    v_caller_id ;;;
  insert_transaction s p_kid_id withdraw cash (- p_amount) p_note
    (Some [("funded_from"%string, JStr "mmf")]) v_caller_id ;;;
  select_balance s p_kid_id mmf.

(** [spend_from_stock(p_kid_id, p_ticker, p_amount, p_note)] returns
    [(shares_sold, realized_gain_loss, new_cash_balance)]. *)
Definition spend_from_stock (s : session) (p_kid_id : uuid) (p_ticker : string)
           (p_amount : Q) (p_note : option string) : rpc (Q * Q * Q) :=
  let v_caller_id := auth_uid s in
  check_access v_caller_id p_kid_id ;;;
  raise_if (negb (ticker_format p_ticker)) InvalidTicker ;;;
  raise_if (invalid_amount p_amount) InvalidAmount ;;;
  pg_advisory_xact_lock p_kid_id ;;;
  v_price <- select_latest_price s p_ticker ;;
  match v_price with
  | None => raise NoPriceData
  | Some v_price =>
    v_position <- select_position s p_kid_id p_ticker ;;
    match v_position with
    | None => raise NoShares
    | Some v_position =>
      raise_if (Qle_bool (p_shares v_position) 0) NoShares ;;;
      q <- sql_div p_amount v_price ;;
      let v_shares_to_sell := ROUND q 8 in
      raise_if (Qlt_bool (p_shares v_position) v_shares_to_sell)
               InsufficientShares ;;;
      v_avg_cost <- sql_div (p_cost_basis v_position) (p_shares v_position) ;;
      let v_cost_of_sold := ROUND (v_avg_cost * v_shares_to_sell) 2 in
      let v_gain := ROUND (p_amount - v_cost_of_sold) 2 in
      insert_transaction s p_kid_id sell stock (- p_amount) None
        (Some (sale_metadata p_ticker v_shares_to_sell v_price v_gain
               ++ [("reason"%string, JStr "spend")])) v_caller_id ;;;
      insert_transaction s p_kid_id sell cash p_amount None
        (Some [("ticker"%string, JStr p_ticker); ("reason"%string, JStr "spend")])
        v_caller_id ;;;
      insert_transaction s p_kid_id withdraw cash (- p_amount) p_note
        (Some [("funded_from"%string, JStr "stock"); ("ticker"%string, JStr p_ticker);
               ("realized_gain_loss"%string, JNum v_gain)]) v_caller_id ;;;
      (if Qle_bool (p_shares v_position) v_shares_to_sell then
         delete_stock_position s p_kid_id p_ticker
       else
         update_stock_position s p_kid_id p_ticker
           (fun p => p_shares p - v_shares_to_sell)
           (fun p => p_cost_basis p - v_cost_of_sold)) ;;;
      new_cash_balance <- select_balance s p_kid_id cash ;;
      ret (v_shares_to_sell, v_gain, new_cash_balance)
    end
  end.

(* ================================================================== *)
(** ** The TypeScript client *)

Module Client.

(** [supabase.from('transactions').select('amount').eq('kid_id', kidId)
    .eq('bucket', bucket)]: the rows the caller may see. *)
Definition select_amounts (db : database) (s : session) (kidId : uuid)
           (bucket : transaction_bucket) : option (list Q) :=
  Some (map t_amount (filter (in_bucket kidId bucket) (rls_transactions db s))).

(** [(data ?? []).reduce((sum, row) => sum + Number(row.amount), 0)]. *)
Definition reduce_amounts (data : option (list Q)) : Q :=
  fold_left (fun sum row => sum + row)
            (match data with Some rows => rows | None => [] end) 0.

(** [getCashBalance(kidId)] of [lib/transactions.ts]. *)
Definition getCashBalance (db : database) (s : session) (kidId : uuid) : Q :=
  reduce_amounts (select_amounts db s kidId cash).

(** [getMmfBalance(kidId)] of [lib/transactions.ts]. *)
Definition getMmfBalance (db : database) (s : session) (kidId : uuid) : Q :=
  reduce_amounts (select_amounts db s kidId mmf).

(** A JavaScript number: [None] is [NaN]. *)
Definition number := option Q.

(** [Number(v ?? 0)] on a JSON value ([None]: the key is absent).  A string
    is not parsed: the ledger never writes a total as text. *)
Definition Number_or_0 (v : option jvalue) : number :=
  match v with
  | None | Some JNull => Some 0
  | Some (JNum q) => Some q
  | Some (JStr _) => None
  end.

(** [.order('created_at', { ascending: false })], keeping the table order
    among equal timestamps. *)
Fixpoint insert_desc (t : transaction) (sorted : list transaction)
  : list transaction :=
  match sorted with
  | [] => [t]
  | u :: sorted' =>
    if Z.ltb (t_created_at t) (t_created_at u) then u :: insert_desc t sorted'
    else t :: sorted
  end.

Definition order_created_at_desc (rows : list transaction) : list transaction :=
  fold_right insert_desc [] rows.

Definition is_hanzi (t : transaction) : bool :=
  match t_metadata t with
  | Some md =>
    match jsonb_get md "source" with
    | Some (JStr src) => String.eqb src "hanzi_dojo"
    | _ => false
    end
  | None => false
  end.

Definition has_metadata (t : transaction) : bool :=
  match t_metadata t with Some _ => true | None => false end.

(** The [lastSnapshot] query of [AddMoney.tsx]: [null] is [None]. *)
Definition lastSnapshot (db : database) (s : session) (kidId : uuid)
  : option number :=
  let data :=
    firstn 50
      (order_created_at_desc
         (filter (fun t => of_type kidId deposit cash t && has_metadata t)
                 (rls_transactions db s))) in
  match find is_hanzi data with
  | None => None
  | Some hanziTx =>
    Some (Number_or_0
            (match t_metadata hanziTx with
             | Some md => jsonb_get md "points_total"
             | None => None
             end))
  end.

(** The [conversionRate] query: [parseFloat] of the setting's value. *)
Definition conversionRate (db : database) (s : session) : option Q :=
  option_map snd
    (find (fun kv => String.eqb (fst kv) "hanzi_dojo_conversion_rate")
          (rls_settings db s)).

(** [lastSnapshot?.points_total ?? 0]. *)
Definition lastPoints (db : database) (s : session) (kidId : uuid) : number :=
  match lastSnapshot db s kidId with
  | Some n => n
  | None => Some 0
  end.

(** [currentPoints - lastPoints], where [currentPoints] is
    [parseInt(pointsTotal) || 0]. *)
Definition pointsDelta (db : database) (s : session) (kidId : uuid)
           (currentPoints : Z) : number :=
  option_map (fun l => inject_Z currentPoints - l) (lastPoints db s kidId).

Definition Math_round (x : Q) : Q := inject_Z (Qfloor (x + (1 # 2))).

(** [conversionRate && pointsDelta > 0
     ? Math.round(pointsDelta * conversionRate * 100) / 100 : 0]. *)
Definition hanziAmount (db : database) (s : session) (kidId : uuid)
           (currentPoints : Z) : Q :=
  match conversionRate db s, pointsDelta db s kidId currentPoints with
  | Some rate, Some delta =>
    if negb (Qeq_bool rate 0) && Qlt_bool 0 delta
    then Math_round (delta * rate * 100) / 100
    else 0
  | _, _ => 0
  end.

Inductive flow_error :=
| NoNewPoints                               (* 'No new points since last entry. ...' *)
| FewerPointsThanLastTime (last : number).  (* 'That's fewer points than last time ...' *)

(** [handleRequestConfirm] on the Hanzi Dojo form: [inl] is
    [flow.setError], [inr] is [flow.requestConfirmation]. *)
Definition handleRequestConfirm (db : database) (s : session) (kidId : uuid)
           (currentPoints : Z) : flow_error + unit :=
  match pointsDelta db s kidId currentPoints with
  | Some delta =>
    if Qle_bool delta 0 then
      inl (if Qeq_bool delta 0 then NoNewPoints
           else FewerPointsThanLastTime (lastPoints db s kidId))
    else inr tt
  | None => inr tt
  end.

Definition json_of_number (n : number) : jvalue :=
  match n with Some q => JNum q | None => JNull end.

(** [handleConfirm] on the Hanzi Dojo form: [depositToCash(kidId,
    hanziAmount, note || undefined, 'hanzi_dojo', { points_total,
    points_delta })]. *)
Definition handleConfirm (s : session) (kidId : uuid) (currentPoints : Z)
           (note : string) : rpc Q :=
  amount <- query (fun db => hanziAmount db s kidId currentPoints) ;;
  delta <- query (fun db => pointsDelta db s kidId currentPoints) ;;
  deposit_to_cash s kidId amount
    (if String.eqb note "" then None else Some note)
    (Some "hanzi_dojo"%string)
    (Some [("points_total"%string, JInt currentPoints);
           ("points_delta"%string, json_of_number delta)]).

Inductive outcome :=
| Rejected (e : flow_error)
| Deposited (new_balance : Q) (db' : database)
| Failed (e : error).

(** Submitting the Hanzi Dojo form and confirming the summary. *)
Definition recordExternalSnapshot (db : database) (s : session) (kidId : uuid)
           (currentPoints : Z) (note : string) : outcome :=
  match handleRequestConfirm db s kidId currentPoints with
  | inl e => Rejected e
  | inr _ =>
    match handleConfirm s kidId currentPoints note db with
    | Ok (new_balance, db') => Deposited new_balance db'
    | Err e => Failed e
    end
  end.

End Client.

(* ================================================================== *)
(** ** Sequences of operations *)

Inductive call :=
| call_deposit_to_cash (kid_id : uuid) (amount : Q) (note source : option string)
                       (metadata : option jsonb)
| call_withdraw_from_cash (kid_id : uuid) (amount : Q) (note : option string)
| call_invest_in_mmf (kid_id : uuid) (amount : Q)
| call_redeem_from_mmf (kid_id : uuid) (amount : Q)
| call_accrue_mmf_interest (kid_id : uuid)
| call_create_cd (kid_id : uuid) (amount : Q) (term_months : Z)
| call_mature_cd (cd_lot_id : uuid)
| call_break_cd (cd_lot_id : uuid)
| call_buy_stock (kid_id : uuid) (ticker : string) (dollar_amount : Q)
| call_sell_stock (kid_id : uuid) (ticker : string) (dollar_amount : Q)
| call_spend_from_mmf (kid_id : uuid) (amount : Q) (note : option string)
| call_spend_from_stock (kid_id : uuid) (ticker : string) (amount : Q)
                        (note : option string)
| sql_update_transactions (where_ : transaction -> bool)
                          (set_ : transaction -> transaction)
| sql_delete_transactions (where_ : transaction -> bool).

(** What a call answers: the balances it reports, each with the kid and the
    bucket it is the balance of. *)
Definition reported := list (uuid * transaction_bucket * Q).

Definition exec (s : session) (c : call) : rpc reported :=
  match c with
  | call_deposit_to_cash k a n src md =>
    b <- deposit_to_cash s k a n src md ;; ret [(k, cash, b)]
  | call_withdraw_from_cash k a n =>
    b <- withdraw_from_cash s k a n ;; ret [(k, cash, b)]
  | call_invest_in_mmf k a =>
    r <- invest_in_mmf s k a ;; ret [(k, cash, fst r); (k, mmf, snd r)]
  | call_redeem_from_mmf k a =>
    r <- redeem_from_mmf s k a ;; ret [(k, cash, fst r); (k, mmf, snd r)]
  | call_accrue_mmf_interest k =>
    r <- accrue_mmf_interest s k ;; ret [(k, mmf, snd r)]
  | call_create_cd k a t => create_cd s k a t ;;; ret []
  | call_mature_cd l => mature_cd s l ;;; ret []
  | call_break_cd l => break_cd s l ;;; ret []
  | call_buy_stock k t a =>
    r <- buy_stock s k t a ;; ret [(k, cash, snd r)]
  | call_sell_stock k t a =>
    r <- sell_stock s k t a ;; ret [(k, cash, snd r)]
  | call_spend_from_mmf k a n =>
    b <- spend_from_mmf s k a n ;; ret [(k, mmf, b)]
  | call_spend_from_stock k t a n =>
    r <- spend_from_stock s k t a n ;; ret [(k, cash, snd r)]
  | sql_update_transactions w f => update_transactions s w f ;;; ret []
  | sql_delete_transactions w => delete_transactions s w ;;; ret []
  end.

(** One request: a failed call is rolled back. *)
Definition step (db : database) (req : session * call) : database :=
  match exec (fst req) (snd req) db with
  | Ok (_, db') => db'
  | Err _ => db
  end.

Definition run (reqs : list (session * call)) (db : database) : database :=
  fold_left step reqs db.

(** The spec's words for a balance: the signed sum of the entity's entry
    amounts for the bucket. *)
Fixpoint signed_sum (kid_id : uuid) (b : transaction_bucket)
         (entries : list transaction) : Q :=
  match entries with
  | [] => 0
  | t :: entries' =>
    if Nat.eqb (t_kid_id t) kid_id && transaction_bucket_eqb (t_bucket t) b
    then t_amount t + signed_sum kid_id b entries'
    else signed_sum kid_id b entries'
  end.

(** The spec's words for the date interest was last accrued: that of the
    most recent interest entry of the fund or, if there is none, that of the
    entity's first transfer into the fund. *)
Definition last_accrual_date (kid_id : uuid) (entries : list transaction)
  : option date :=
  match max_by t_created_at (filter (of_type kid_id interest mmf) entries) with
  | Some t => Some (utc_date (t_created_at t))
  | None =>
    option_map (fun t => utc_date (t_created_at t))
      (min_by t_created_at (filter (of_type kid_id invest mmf) entries))
  end.

(* ================================================================== *)
(** ** A household to run things on *)

Module Example.

(** The seed data of the initial schema. *)
Definition seed_settings : list setting :=
  [("mmf_apy"%string, 0.042); ("cd_3m_apy"%string, 0.048);
   ("cd_6m_apy"%string, 0.050); ("cd_12m_apy"%string, 0.052);
   ("stock_position_limit"%string, 5);
   ("hanzi_dojo_conversion_rate"%string, 0.10)].

Definition parent : uuid := 1.
Definition aiden : uuid := 100.
Definition skylar : uuid := 101.

Definition family (prices : list stock_price) (config : list setting) : database :=
  mk_database [mk_admin_user parent 10] [mk_kid aiden 10; mk_kid skylar 10]
              [] [] [] prices config.

(** The parent's session at noon of day [d]. *)
Definition on_day (d : Z) : session := mk_session parent (d * 86400 + 43200).

Definition day0 : Z := 20000.

Definition home : database := family [] seed_settings.

(** Deposit $50, then $30, then try to withdraw $100. *)
Definition allowance : list (session * call) :=
  [(on_day day0, call_deposit_to_cash aiden 50 None (Some "chores"%string) None);
   (on_day day0, call_deposit_to_cash aiden 30 None (Some "gift"%string) None);
   (on_day day0, call_withdraw_from_cash aiden 100 None)].

(** Deposit $1000 and move $100 of it into the money-market fund. *)
Definition saver : database :=
  run [(on_day day0, call_deposit_to_cash aiden 1000 None None None);
       (on_day day0, call_invest_in_mmf aiden 100)] home.



(** Deposit $1000 and lock $100 of it in a 3-month term deposit. *)
Definition cd_holder : database :=
  run [(on_day day0, call_deposit_to_cash aiden 1000 None None None);
       (on_day day0, call_create_cd aiden 100 3)] home.

(** Deposit $100,000, the most an RPC takes, and lock all of it. *)
Definition big_cd : database :=
  run [(on_day day0, call_deposit_to_cash aiden 100000 None None None);
       (on_day day0, call_create_cd aiden 100000 3)] home.

(** A share costs $800 on day [day0] and $900 ten days later. *)
Definition quotes : list stock_price :=
  [mk_stock_price "NVDA" day0 800; mk_stock_price "NVDA" (day0 + 10) 900].

(** $1000 in cash, while only the first price is known. *)
Definition investor : database :=
  run [(on_day day0, call_deposit_to_cash aiden 1000 None None None)]
      (family [mk_stock_price "NVDA" day0 800] seed_settings).

(** The second price comes in. *)
Definition priced (db : database) : database :=
  mk_database (admin_users db) (kids db) (transactions db) (cd_lots db)
              (stock_positions db) quotes (settings db).



(** 500 Hanzi Dojo points recorded on day [day0], and nothing since. *)
Definition first_points : database :=
  run [(on_day day0,
        call_deposit_to_cash aiden 50 None (Some "hanzi_dojo"%string)
          (Some [("points_total"%string, JInt 500);
                 ("points_delta"%string, JInt 500)]))]
      home.

End Example.


(** [db'] has the entries of [db], unchanged and in place, and maybe more. *)
Definition appended (db db' : database) : Prop :=
  exists new, transactions db' = transactions db ++ new.

(** What the upsert leaves: a new row after the others when the kid had no
    position in the ticker, the row with both columns added to otherwise. *)
Definition upserted (k : uuid) (t : string) (sh c : Q)
           (before after : list stock_position) : Prop :=
  match find (same_position k t) before with
  | None => after = before ++ [mk_stock_position k t (ROUND sh 8) (ROUND c 2)]
  | Some p =>
    find (same_position k t) after
    = Some (mk_stock_position (p_kid_id p) (p_ticker p)
                              (ROUND (p_shares p + sh) 8)
                              (ROUND (p_cost_basis p + c) 2))
  end.

(* ================================================================== *)
(** ** Vocabulary of the further properties *)

(** The value of a setting, row-level security aside. *)
Definition setting_value (db : database) (key : string) : option Q :=
  option_map snd (find (fun kv => String.eqb (fst kv) key) (settings db)).

(** The key of the rate of a term deposit: ['cd_' || term || 'm_apy']. *)
Definition cd_rate_key (term_months : Z) : string :=
  ("cd_" ++ text_of_integer term_months ++ "m_apy")%string.

(** The kid's position in a ticker, row-level security aside. *)
Definition position_of (db : database) (kid_id : uuid) (ticker : string)
  : option stock_position :=
  find (same_position kid_id ticker) (stock_positions db).

(** The close price of the latest date on record for a ticker. *)
Definition latest_price (db : database) (ticker : string) : option Q :=
  option_map sp_close_price
    (max_by sp_date (filter (fun sp => String.eqb (sp_ticker sp) ticker)
                            (stock_prices db))).

(** The number of tickers the kid holds shares of. *)
Definition positions_held (db : database) (kid_id : uuid) : Z :=
  Z.of_nat (List.length
    (filter (fun p => Nat.eqb (p_kid_id p) kid_id && Qlt_bool 0 (p_shares p))
            (stock_positions db))).

(** The [stock_position_limit] in force: 5 when the setting is missing. *)
Definition position_limit (db : database) : result Z :=
  match setting_value db "stock_position_limit" with
  | None => Ok 5%Z
  | Some v => to_integer v
  end.

(** An error raised by a table's column types, constraints or policies. *)
Definition from_table (e : error) : Prop :=
  match e with
  | check_violation _ | unique_violation _ | foreign_key_violation _
  | row_security_violation | numeric_value_out_of_range => True
  | _ => False
  end.

(** The two entries of a transfer between two buckets of a kid. *)
Definition transfer_entries (s : session) (k : uuid) (ty : transaction_type)
           (from to : transaction_bucket) (a : Q) : list transaction :=
  [mk_transaction k ty from (ROUND (- a) 2) None None (auth_uid s) (now s);
   mk_transaction k ty to (ROUND a 2) None None (auth_uid s) (now s)].

(** What the ledger vouches for in an entry written during session [s]. *)
Definition recorded_by (db : database) (s : session) (t : transaction) : Prop :=
  t_created_by t = auth_uid s /\
  t_created_at t = now s /\
  has_access db (auth_uid s) (t_kid_id t) = true /\
  ABS (t_amount t) <= 100000 /\
  ROUND (t_amount t) 2 = t_amount t /\
  valid_type_bucket (t_type t) (t_bucket t) = true.

(** The lot [id] exists and is no longer active. *)
Definition settled (id : uuid) (db : database) : Prop :=
  (exists l, In l (cd_lots db) /\ l_id l = id) /\
  forall l, In l (cd_lots db) -> l_id l = id -> l_status l <> active.

(** More households to run things on. *)
Module Scenario.

(** Somebody who administers another household. *)
Definition stranger : uuid := 2.

Definition visit (d : Z) : session := mk_session stranger (d * 86400 + 43200).

(** Two households side by side. *)
Definition town : database :=
  mk_database [mk_admin_user Example.parent 10; mk_admin_user stranger 20]
              [mk_kid Example.aiden 10; mk_kid Example.skylar 10; mk_kid 200 20]
              [] [] [] [] Example.seed_settings.

(** The first household has put $50 aside for one of its kids, and a share
    is quoted at $20. *)
Definition neighbours : database :=
  run [(Example.on_day Example.day0,
        call_deposit_to_cash Example.aiden 50 None None None)]
      (mk_database (admin_users town) (kids town) [] [] []
                   [mk_stock_price "NVDA" Example.day0 20]
                   (settings town)).

(** $1000 in cash, $200 of it then spent on shares at $800. *)
Definition shareholder : database :=
  run [(Example.on_day Example.day0,
        call_buy_stock Example.aiden "NVDA" 200)] Example.investor.

(** The same kid where a second ticker is quoted and the household allows
    one position only. *)
Definition crowded : database :=
  mk_database (admin_users shareholder) (kids shareholder)
              (transactions shareholder) (cd_lots shareholder)
              (stock_positions shareholder)
              [mk_stock_price "NVDA" Example.day0 800;
               mk_stock_price "AAPL" Example.day0 200]
              [("stock_position_limit"%string, 1)].

End Scenario.

(* ================================================================== *)
(** ** The portfolio, as the dashboard reads it ([lib/transactions.ts]) *)

Module Portfolio.

(** [Math.round(n * 100) / 100]. *)
Definition to_cents (n : Q) : Q := Client.Math_round (n * 100) / 100.

(** [getCdLots(kidId)]: the kid's lots, latest first.  The lot table of this
    embedding keeps no time of creation; its rows are in the order they
    were created. *)
Definition getCdLots (db : database) (s : session) (kidId : uuid) : list cd_lot :=
  rev (filter (fun l => Nat.eqb (l_kid_id l) kidId) (rls_cd_lots db s)).

(** [.order('date', { ascending: false })], keeping the table order among
    equal dates. *)
Fixpoint insert_by_date (p : stock_price) (sorted : list stock_price)
  : list stock_price :=
  match sorted with
  | [] => [p]
  | u :: sorted' =>
    if Z.ltb (sp_date p) (sp_date u) then u :: insert_by_date p sorted'
    else p :: sorted
  end.

Definition order_date_desc (rows : list stock_price) : list stock_price :=
  fold_right insert_by_date [] rows.

(** A [Map<string, number>], in insertion order. *)
Definition Map := list (string * Q).

Definition Map_has (m : Map) (key : string) : bool :=
  existsb (fun kv => String.eqb (fst kv) key) m.

Definition Map_get (m : Map) (key : string) : option Q :=
  option_map snd (find (fun kv => String.eqb (fst kv) key) m).

Definition Map_set (m : Map) (key : string) (value : Q) : Map :=
  if Map_has m key
  then map (fun kv => if String.eqb (fst kv) key then (key, value) else kv) m
  else m ++ [(key, value)].

(** [for (const p of prices) if (!latestPrices.has(p.ticker))
    latestPrices.set(p.ticker, Number(p.close_price))]. *)
Definition latestPrices (prices : list stock_price) : Map :=
  fold_left (fun m p => if negb (Map_has m (sp_ticker p))
                        then Map_set m (sp_ticker p) (sp_close_price p)
                        else m)
            prices [].

(** A position with what [getStockPositions] adds to it. *)
Record position_row := mk_position_row {
  pr_position : stock_position;
  current_price : Q;
  current_value : Q;
  gain_loss : Q;
  gain_loss_pct : Q
}.

(** [getStockPositions(kidId)]. *)
Definition getStockPositions (db : database) (s : session) (kidId : uuid)
  : list position_row :=
  let positions :=
    filter (fun p => Nat.eqb (p_kid_id p) kidId && Qlt_bool 0 (p_shares p))
           (rls_stock_positions db s) in
  match positions with
  | [] => []
  | _ :: _ =>
    let tickers := map p_ticker positions in
    let prices :=
      order_date_desc
        (filter (fun sp => existsb (String.eqb (sp_ticker sp)) tickers)
                (rls_stock_prices db s)) in
    let latest := latestPrices prices in
    map (fun pos =>
           let currentPrice := COALESCE (Map_get latest (p_ticker pos)) 0 in
           let currentValue := p_shares pos * currentPrice in
           let gainLoss := currentValue - p_cost_basis pos in
           let gainLossPct :=
             if Qlt_bool 0 (p_cost_basis pos)
             then gainLoss / p_cost_basis pos * 100 else 0 in
           mk_position_row pos currentPrice (to_cents currentValue)
                           (to_cents gainLoss) (to_cents gainLossPct))
        positions
  end.

Record summary := mk_summary {
  ps_cash : Q;
  ps_mmf : Q;
  ps_cd_total : Q;
  ps_stock_total : Q;
  ps_grand_total : Q
}.

(** [getPortfolioSummary(kidId)]. *)
Definition getPortfolioSummary (db : database) (s : session) (kidId : uuid)
  : summary :=
  let cash := Client.getCashBalance db s kidId in
  let mmf := Client.getMmfBalance db s kidId in
  let cdLots := getCdLots db s kidId in
  let stockPositions := getStockPositions db s kidId in
  let cdTotal :=
    fold_left (fun sum lot => sum + l_principal lot)
              (filter (fun lot => cd_status_eqb (l_status lot) active) cdLots) 0 in
  let stockTotal :=
    fold_left (fun sum pos => sum + current_value pos) stockPositions 0 in
  mk_summary (to_cents cash) (to_cents mmf) (to_cents cdTotal) (to_cents stockTotal)
             (to_cents (cash + mmf + cdTotal + stockTotal)).

End Portfolio.

(** What the dashboard adds up for a kid: the principal of the active lots,
    the value of the shares, and all four buckets together before the total
    is rounded. *)
Definition cd_holdings (db : database) (s : session) (kid_id : uuid) : Q :=
  fold_left (fun sum lot => sum + l_principal lot)
            (filter (fun lot => cd_status_eqb (l_status lot) active)
                    (Portfolio.getCdLots db s kid_id)) 0.

Definition stock_holdings (db : database) (s : session) (kid_id : uuid) : Q :=
  fold_left (fun sum pos => sum + Portfolio.current_value pos)
            (Portfolio.getStockPositions db s kid_id) 0.

Definition holdings (db : database) (s : session) (kid_id : uuid) : Q :=
  Client.getCashBalance db s kid_id + Client.getMmfBalance db s kid_id
  + cd_holdings db s kid_id + stock_holdings db s kid_id.

(* ================================================================== *)
(** ** Settings: the validation trigger and the Settings page *)

(** The exceptions of [validate_setting()]; [InvalidInteger] is the failed
    cast [NEW.value::integer]. *)
Inductive setting_exception :=
| ApyOutOfRange                      (* 'APY must be between 0 and 0.20' *)
| PositionLimitOutOfRange            (* 'Position limit must be between 1 and 10' *)
| ConversionRateOutOfRange           (* 'Conversion rate must be between $0.01 and $10.00' *)
| UnknownSettingsKey (key : string)  (* 'Unknown settings key: %' *)
| InvalidInteger.

Definition is_apy_key (key : string) : bool :=
  String.eqb key "mmf_apy" || String.eqb key "cd_3m_apy"
  || String.eqb key "cd_6m_apy" || String.eqb key "cd_12m_apy".

(** [validate_setting()], the function of trigger [trg_validate_setting]:
    the row to store, or the exception raised. *)
Definition validate_setting (new : setting) : setting_exception + setting :=
  let key := fst new in
  let value := snd new in
  if is_apy_key key then
    if Qlt_bool value 0 || Qlt_bool 0.20 value then inl ApyOutOfRange
    else inr new
  else if String.eqb key "stock_position_limit" then
    match to_integer value with
    | Err _ => inl InvalidInteger
    | Ok n =>
      if Z.ltb n 1 || Z.ltb 10 n then inl PositionLimitOutOfRange else inr new
    end
  else if String.eqb key "hanzi_dojo_conversion_rate" then
    if Qlt_bool value 0.01 || Qlt_bool 10.00 value then inl ConversionRateOutOfRange
    else inr new
  else inl (UnknownSettingsKey key).

Definition set_settings (db : database) (rows : list setting) : database :=
  mk_database (admin_users db) (kids db) (transactions db) (cd_lots db)
              (stock_positions db) (stock_prices db) rows.

(** The rows of [UPDATE settings SET value = ... WHERE key = ...], the
    trigger running [BEFORE UPDATE ... FOR EACH ROW]. *)
Fixpoint update_setting_rows (key : string) (value : Q) (rows : list setting)
  : setting_exception + list setting :=
  match rows with
  | [] => inr []
  | r :: rows' =>
    if String.eqb (fst r) key then
      match validate_setting (fst r, value) with
      | inl e => inl e
      | inr r' =>
        match update_setting_rows key value rows' with
        | inl e => inl e
        | inr rest => inr (r' :: rest)
        end
      end
    else
      match update_setting_rows key value rows' with
      | inl e => inl e
      | inr rest => inr (r :: rest)
      end
  end.

(** [supabase.from('settings').update({ value }).eq('key', key)]: policy
    [admin_only] shows the rows to administrators only. *)
Definition update_setting (s : session) (key : string) (value : Q)
           (db : database) : setting_exception + database :=
  if admin_only db s then
    match update_setting_rows key value (settings db) with
    | inl e => inl e
    | inr rows => inr (set_settings db rows)
    end
  else inr db.


(** The form of the Settings page ([SETTING_DEFS] of [Settings.tsx]).  A
    field holds a decimal numeral, taken here as the number it denotes. *)
Module SettingsPage.

(** [parseInt(v)]: the digits before the decimal point. *)
Definition parseInt (v : Q) : Z := Z.quot (Qnum v) (Zpos (Qden v)).

(** [def.validate(v)] of the definition with the given key. *)
Definition validate (key : string) (v : Q) : bool :=
  if is_apy_key key then Qle_bool 0 v && Qle_bool v 20
  else if String.eqb key "stock_position_limit" then
    Z.leb 1 (parseInt v) && Z.leb (parseInt v) 10
  else if String.eqb key "hanzi_dojo_conversion_rate" then
    Qle_bool 0.01 v && Qle_bool v 10
  else false.

(** [def.toStorage(v)]. *)
Definition toStorage (key : string) (v : Q) : Q :=
  if is_apy_key key then v / 100 else v.

(** One round of [handleSave]'s loop: [None] is "Invalid value for ...",
    with nothing sent. *)
Definition save_field (s : session) (key : string) (v : Q) (db : database)
  : option (setting_exception + database) :=
  if negb (validate key v) then None
  else Some (update_setting s key (toStorage key v) db).

End SettingsPage.

(* ================================================================== *)
(** ** The simulator ([lib/simulator.ts]) *)

Module Simulator.







(** The loop of [findClosestDateIndex], with a bound on its rounds. *)
Fixpoint search (rounds : nat) (dates : list date) (targetDate : date)
         (lo hi : nat) : nat :=
  match rounds with
  | O => lo
  | S rounds' =>
    if Nat.ltb lo hi then
      let mid := ((lo + hi) / 2)%nat in
      if Z.ltb (nth mid dates 0%Z) targetDate
      then search rounds' dates targetDate (mid + 1)%nat hi
      else search rounds' dates targetDate lo mid
    else lo
  end.

(** [findClosestDateIndex(prices, targetDate)] on the dates of the prices.
    The loop halves [hi - lo] and so ends within [prices.length] rounds;
    on an empty array [hi] is -1 in the source and 0 here, the loop is not
    entered and 0 is returned either way. *)
Definition findClosestDateIndex (dates : list date) (targetDate : date) : nat :=
  let lo := search (List.length dates) dates targetDate 0
                   (List.length dates - 1) in
  if Nat.ltb 0 lo then
    let diffLo := Z.abs (nth lo dates 0%Z - targetDate) in
    let diffPrev := Z.abs (nth (lo - 1) dates 0%Z - targetDate) in
    if Z.ltb diffPrev diffLo then (lo - 1)%nat else lo
  else lo.

End Simulator.

(* ================================================================== *)
(** ** The confirmation flow of the pages ([hooks/useActionFlow.ts]) *)

Module ActionFlow.

Record ActionSummary := mk_ActionSummary {
  title : string;
  details : list string;
  balanceImpact : option string;
  warning : option string
}.

Inductive Phase := idle | confirming | success.

Record ActionFlowState := mk_ActionFlowState {
  phase : Phase;
  summary : option ActionSummary;
  result : option string;
  error : option string;
  isSubmitting : bool
}.

Definition INITIAL_STATE : ActionFlowState :=
  mk_ActionFlowState idle None None None false.

(** The calls of [setState].  [confirm] makes two of them, one before
    awaiting the action and one when the action has resolved or thrown;
    other calls may come in between. *)
Inductive update :=
| requestConfirmation (s : ActionSummary)
| confirm_started
| confirm_resolved (r : string)
| confirm_rejected (message : string)   (* [extractErrorMessage(err)] *)
| cancel
| reset
| setError (msg : option string).

Definition setState (prev : ActionFlowState) (u : update) : ActionFlowState :=
  match u with
  | requestConfirmation s => mk_ActionFlowState confirming (Some s) None None false
  | confirm_started =>
    mk_ActionFlowState (phase prev) (summary prev) (result prev) None true
  | confirm_resolved r => mk_ActionFlowState success None (Some r) None false
  | confirm_rejected message =>
    mk_ActionFlowState (phase prev) (summary prev) (result prev) (Some message)
                       false
  | cancel => INITIAL_STATE
  | reset => INITIAL_STATE
  | setError msg =>
    mk_ActionFlowState (phase prev) (summary prev) (result prev) msg
                       (isSubmitting prev)
  end.

Definition after (updates : list update) : ActionFlowState :=
  fold_left setState updates INITIAL_STATE.

End ActionFlow.

(** The rows the tables hold for a kid. *)
Definition rows_of (kid_id : uuid) (db : database)
  : list transaction * list cd_lot * list stock_position :=
  (filter (fun t => Nat.eqb (t_kid_id t) kid_id) (transactions db),
   filter (fun l => Nat.eqb (l_kid_id l) kid_id) (cd_lots db),
   filter (fun p => Nat.eqb (p_kid_id p) kid_id) (stock_positions db)).

(* ================================================================== *)
(** * Properties *)

(** ** Rounding *)

Section Rounding.

Lemma Qlt_bool_iff (a b : Q) : Qlt_bool a b = true <-> a < b.
Proof.
  unfold Qlt_bool. rewrite negb_true_iff.
  split; intro H.
  - apply Qnot_le_lt. intro L. apply Qle_bool_iff in L. congruence.
  - destruct (Qle_bool b a) eqn:E; [|reflexivity].
    apply Qle_bool_iff in E. exfalso. revert E. apply Qlt_not_le, H.
Qed.

Lemma Qlt_bool_false (a b : Q) : Qlt_bool a b = false <-> b <= a.
Proof.
  unfold Qlt_bool. rewrite negb_false_iff. apply Qle_bool_iff.
Qed.

Lemma Qle_bool_false (a b : Q) : Qle_bool a b = false <-> b < a.
Proof.
  rewrite <- Qlt_bool_iff. unfold Qlt_bool.
  destruct (Qle_bool a b); simpl; intuition congruence.
Qed.

Lemma pow10_pos (n : nat) : 0 < inject_Z (Zpos (pow10 n)).
Proof. reflexivity. Qed.

Lemma round_half_away_comp (x y : Q) :
  x == y -> round_half_away x = round_half_away y.
Proof.
  intro E. unfold round_half_away.
  rewrite (Qleb_comp 0 0 (Qeq_refl 0) x y E).
  destruct (Qle_bool 0 y).
  - apply Qfloor_comp. rewrite E. reflexivity.
  - f_equal. apply Qfloor_comp. rewrite E. reflexivity.
Qed.

Lemma ROUND_comp (x y : Q) (n : nat) : x == y -> ROUND x n = ROUND y n.
Proof.
  intro E. unfold ROUND. f_equal.
  apply round_half_away_comp. rewrite E. reflexivity.
Qed.

Lemma Qfloor_half (z : Z) : Qfloor (inject_Z z + (1 # 2)) = z.
Proof.
  assert (L := Qfloor_le (inject_Z z + (1 # 2))).
  assert (U := Qlt_floor (inject_Z z + (1 # 2))).
  set (f := Qfloor (inject_Z z + (1 # 2))) in *. clearbody f.
  rewrite inject_Z_plus in U. change (inject_Z 1) with 1 in U.
  assert (f <= z)%Z.
  { apply Z.lt_succ_r. rewrite Zlt_Qlt. unfold Z.succ.
    rewrite inject_Z_plus. change (inject_Z 1) with 1. lra. }
  assert (z < f + 1)%Z.
  { rewrite Zlt_Qlt, inject_Z_plus. change (inject_Z 1) with 1. lra. }
  lia.
Qed.

Lemma round_half_away_Z (z : Z) : round_half_away (inject_Z z) = z.
Proof.
  unfold round_half_away. destruct (Qle_bool 0 (inject_Z z)).
  - apply Qfloor_half.
  - rewrite <- inject_Z_opp, Qfloor_half. lia.
Qed.

Lemma round_half_away_opp (x : Q) :
  round_half_away (- x) = (- round_half_away x)%Z.
Proof.
  unfold round_half_away.
  destruct (Qle_bool 0 x) eqn:Ex, (Qle_bool 0 (- x)) eqn:Ey.
  - apply Qle_bool_iff in Ex, Ey.
    assert (E0 : x == 0) by lra.
    rewrite (Qfloor_comp (- x + (1 # 2)) (inject_Z 0 + (1 # 2))),
            (Qfloor_comp (x + (1 # 2)) (inject_Z 0 + (1 # 2))).
    + rewrite Qfloor_half. reflexivity.
    + rewrite E0. reflexivity.
    + rewrite E0. reflexivity.
  - f_equal. apply Qfloor_comp. ring.
  - rewrite Z.opp_involutive. reflexivity.
  - apply Qle_bool_false in Ex, Ey. lra.
Qed.

Lemma ROUND_opp (x : Q) (n : nat) : ROUND (- x) n == - ROUND x n.
Proof.
  unfold ROUND.
  rewrite (round_half_away_comp (- x * inject_Z (Z.pos (pow10 n)))
                                (- (x * inject_Z (Z.pos (pow10 n))))) by ring.
  rewrite round_half_away_opp. reflexivity.
Qed.

(** A value with [n] decimals is left alone. *)
Lemma ROUND_fixed (z : Z) (n : nat) : ROUND (z # pow10 n) n = (z # pow10 n).
Proof.
  unfold ROUND. f_equal.
  rewrite (round_half_away_comp _ (inject_Z z)).
  - apply round_half_away_Z.
  - rewrite Qmult_inject_Z_r. apply Qreduce_den_inject_Z_r.
Qed.

Lemma ROUND_idem (x : Q) (n : nat) : ROUND (ROUND x n) n = ROUND x n.
Proof. unfold ROUND at 2 3. apply ROUND_fixed. Qed.

Lemma ROUND_fixed_eq (x : Q) (z : Z) (n : nat) :
  x == (z # pow10 n) -> ROUND x n == x.
Proof.
  intro E. rewrite (ROUND_comp _ _ n E), ROUND_fixed. symmetry. exact E.
Qed.

Lemma ROUND_plus (a b : Q) (n : nat) :
  ROUND a n == a -> ROUND b n == b -> ROUND (a + b) n == a + b.
Proof.
  intros Ea Eb.
  apply (ROUND_fixed_eq _ (round_half_away (a * inject_Z (Zpos (pow10 n)))
                           + round_half_away (b * inject_Z (Zpos (pow10 n)))) n).
  rewrite <- Ea at 1. rewrite <- Eb at 1. unfold ROUND.
  unfold Qeq, Qplus. simpl. nia.
Qed.

Lemma ROUND_mono (x y : Q) (n : nat) : x <= y -> ROUND x n <= ROUND y n.
Proof.
  intro L. unfold ROUND, Qle. simpl.
  apply Z.mul_le_mono_nonneg_r; [lia|].
  assert (P := pow10_pos n).
  assert (L' : x * inject_Z (Z.pos (pow10 n)) <= y * inject_Z (Z.pos (pow10 n)))
    by nra.
  revert L'. generalize (x * inject_Z (Z.pos (pow10 n))).
  generalize (y * inject_Z (Z.pos (pow10 n))). clear. intros y x L.
  unfold round_half_away.
  destruct (Qle_bool 0 x) eqn:Ex, (Qle_bool 0 y) eqn:Ey.
  - apply Qfloor_resp_le. lra.
  - apply Qle_bool_iff in Ex. apply Qle_bool_false in Ey. lra.
  - apply Qle_bool_iff in Ey. apply Qle_bool_false in Ex.
    assert (0 <= Qfloor (y + (1 # 2)))%Z.
    { change 0%Z with (Qfloor (inject_Z 0)). apply Qfloor_resp_le.
      change (inject_Z 0) with 0. lra. }
    assert (0 <= Qfloor (- x + (1 # 2)))%Z.
    { change 0%Z with (Qfloor (inject_Z 0)). apply Qfloor_resp_le.
      change (inject_Z 0) with 0. lra. }
    lia.
  - apply Z.opp_le_mono. rewrite !Z.opp_involutive.
    apply Qfloor_resp_le. lra.
Qed.

Lemma GREATEST_ge_r (a b : Q) : b <= GREATEST a b.
Proof.
  unfold GREATEST. destruct (Qle_bool a b) eqn:E.
  - lra.
  - apply Qle_bool_false in E. lra.
Qed.

End Rounding.

(** ** The monad *)

Section Monad.

Lemma bind_Ok {A B} (c : rpc A) (k : A -> rpc B) db r :
  bind c k db = Ok r -> exists a db1, c db = Ok (a, db1) /\ k a db1 = Ok r.
Proof.
  unfold bind. destruct (c db) as [[a db1]|e]; [|discriminate].
  intro H. exists a, db1. split; [reflexivity|exact H].
Qed.

Lemma bind_Err {A B} (c : rpc A) (k : A -> rpc B) db e :
  c db = Err e -> bind c k db = Err e.
Proof. unfold bind. intros ->. reflexivity. Qed.

Lemma bind_step {A B} (c : rpc A) (k : A -> rpc B) db a db1 :
  c db = Ok (a, db1) -> bind c k db = k a db1.
Proof. unfold bind. intros ->. reflexivity. Qed.

Lemma ret_Ok {A} (a b : A) db db' : ret a db = Ok (b, db') -> b = a /\ db' = db.
Proof. unfold ret. intro H. inversion H. auto. Qed.

Lemma query_Ok {A} (f : database -> A) db a db' :
  query f db = Ok (a, db') -> a = f db /\ db' = db.
Proof. unfold query. intro H. inversion H. auto. Qed.

Lemma raise_if_Ok cond e db u db' :
  raise_if cond e db = Ok (u, db') -> cond = false /\ db' = db.
Proof.
  unfold raise_if, raise, ret. destruct cond; intro H; inversion H. auto.
Qed.

Lemma check_access_Ok c k db u db' :
  check_access c k db = Ok (u, db') -> has_access db c k = true /\ db' = db.
Proof.
  unfold check_access. intro H.
  apply bind_Ok in H. destruct H as (ok & db1 & Hq & H).
  apply query_Ok in Hq. destruct Hq as [-> ->].
  apply raise_if_Ok in H. destruct H as [H ->].
  apply negb_false_iff in H. auto.
Qed.

Lemma check_access_true c k db :
  has_access db c k = true -> check_access c k db = Ok (tt, db).
Proof.
  intro H. unfold check_access, bind, query. rewrite H. reflexivity.
Qed.

Lemma lock_Ok k db u db' : pg_advisory_xact_lock k db = Ok (u, db') -> db' = db.
Proof. unfold pg_advisory_xact_lock. intro H. apply ret_Ok in H. tauto. Qed.

End Monad.

(** ** Access and row-level security *)

Section Access.

Variable db : database.
Variable s : session.

Lemma has_access_household kid_id :
  has_access db (auth_uid s) kid_id = household_only db s kid_id.
Proof.
  unfold has_access, household_only.
  apply eq_true_iff_eq. rewrite !existsb_exists. split.
  - intros (au & Hau & H). apply andb_true_iff in H. destruct H as [H1 H2].
    apply existsb_exists in H2. destruct H2 as (k & Hk & H2).
    apply andb_true_iff in H2. destruct H2 as [H2 H3].
    exists k. split; [exact Hk|]. rewrite H3. simpl.
    apply existsb_exists. exists au. split; [exact Hau|].
    rewrite H1, H2. reflexivity.
  - intros (k & Hk & H). apply andb_true_iff in H. destruct H as [H1 H2].
    apply existsb_exists in H2. destruct H2 as (au & Hau & H2).
    apply andb_true_iff in H2. destruct H2 as [H2 H3].
    exists au. split; [exact Hau|]. rewrite H2. simpl.
    apply existsb_exists. exists k. split; [exact Hk|].
    rewrite H1, H3. reflexivity.
Qed.

Lemma household_kid_exists kid_id :
  household_only db s kid_id = true -> kid_exists db kid_id = true.
Proof.
  unfold household_only, kid_exists. rewrite !existsb_exists.
  intros (k & Hk & H). apply andb_true_iff in H.
  exists k. tauto.
Qed.

Lemma household_admin kid_id :
  household_only db s kid_id = true -> admin_only db s = true.
Proof.
  unfold household_only, admin_only. rewrite !existsb_exists.
  intros (k & Hk & H). apply andb_true_iff in H. destruct H as [_ H].
  apply existsb_exists in H. destruct H as (au & Hau & H).
  apply andb_true_iff in H. exists au. tauto.
Qed.

Lemma filter_filter_sub {A} (p q : A -> bool) (l : list A) :
  (forall x, q x = true -> p x = true) ->
  filter q (filter p l) = filter q l.
Proof.
  intro Hpq. induction l as [|x l IH]; simpl; [reflexivity|].
  destruct (p x) eqn:Ep; simpl.
  - rewrite IH. reflexivity.
  - destruct (q x) eqn:Eq; [|exact IH].
    apply Hpq in Eq. congruence.
Qed.

(** Row-level security hides none of the rows of a kid of the caller's
    household. *)
Lemma rls_in_bucket kid_id b :
  household_only db s kid_id = true ->
  filter (in_bucket kid_id b) (rls_transactions db s)
  = filter (in_bucket kid_id b) (transactions db).
Proof.
  intro H. unfold rls_transactions. apply filter_filter_sub.
  intros t Ht. unfold in_bucket in Ht. apply andb_true_iff in Ht.
  destruct Ht as [Ht _]. apply Nat.eqb_eq in Ht. rewrite Ht. exact H.
Qed.


End Access.

(** ** Balances *)

Section Balances.

Lemma fold_left_Qplus (xs : list Q) (a : Q) :
  fold_left Qplus xs a == a + fold_left Qplus xs 0.
Proof.
  revert a. induction xs as [|x xs IH]; intro a; simpl.
  - ring.
  - rewrite (IH (a + x)), (IH (0 + x)). ring.
Qed.

Lemma SUM_signed_sum kid_id b (l : list transaction) :
  COALESCE (SUM (map t_amount (filter (in_bucket kid_id b) l))) 0
  == signed_sum kid_id b l.
Proof.
  induction l as [|t l IH]; simpl; [reflexivity|].
  unfold in_bucket at 1.
  destruct (Nat.eqb (t_kid_id t) kid_id && transaction_bucket_eqb (t_bucket t) b);
    [|exact IH].
  rewrite <- IH. simpl. rewrite fold_left_Qplus.
  destruct (map t_amount (filter (in_bucket kid_id b) l)); simpl; ring.
Qed.

Lemma signed_sum_app kid_id b (l l' : list transaction) :
  signed_sum kid_id b (l ++ l')
  == signed_sum kid_id b l + signed_sum kid_id b l'.
Proof.
  induction l as [|t l IH]; simpl; [ring|].
  destruct (Nat.eqb (t_kid_id t) kid_id && transaction_bucket_eqb (t_bucket t) b);
    rewrite IH; ring.
Qed.

Lemma signed_sum_none kid_id b (l : list transaction) :
  (forall t, In t l -> in_bucket kid_id b t = false) ->
  signed_sum kid_id b l = 0.
Proof.
  induction l as [|t l IH]; simpl; intro H; [reflexivity|].
  assert (Ht := H t (or_introl eq_refl)). unfold in_bucket in Ht.
  rewrite Ht. apply IH. intros u Hu. apply H. right. exact Hu.
Qed.

Lemma select_balance_Ok s kid_id b db v db' :
  select_balance s kid_id b db = Ok (v, db') ->
  db' = db /\
  (household_only db s kid_id = true ->
   v == signed_sum kid_id b (transactions db)).
Proof.
  unfold select_balance. intro H. apply query_Ok in H. destruct H as [-> ->].
  split; [reflexivity|]. intro Hh.
  rewrite rls_in_bucket by exact Hh. apply SUM_signed_sum.
Qed.

Lemma reduce_amounts_signed_sum kid_id b (l : list transaction) :
  Client.reduce_amounts (Some (map t_amount (filter (in_bucket kid_id b) l)))
  == signed_sum kid_id b l.
Proof.
  unfold Client.reduce_amounts.
  change (fun sum row : Q => sum + row) with Qplus.
  rewrite <- SUM_signed_sum.
  destruct (map t_amount (filter (in_bucket kid_id b) l)); reflexivity.
Qed.

End Balances.

(** ** The tables *)

Section Tables.

Lemma numeric_typmod_Ok p sc v r :
  numeric_typmod p sc v = Ok r -> r = ROUND v sc.
Proof.
  unfold numeric_typmod.
  destruct (Qlt_bool _ _); intro H; inversion H. reflexivity.
Qed.

Lemma numeric_typmod_12_2 v :
  ABS (ROUND v 2) <= 100000 -> numeric_typmod 12 2 v = Ok (ROUND v 2).
Proof.
  intro H. unfold numeric_typmod.
  replace (Qlt_bool (ABS (ROUND v 2)) (inject_Z (Z.pos (pow10 (12 - 2))))) with true;
    [reflexivity|].
  symmetry. apply Qlt_bool_iff.
  apply Qle_lt_trans with (1 := H). reflexivity.
Qed.

Lemma insert_transaction_Ok s k ty b amt note md cb db u db' :
  insert_transaction s k ty b amt note md cb db = Ok (u, db') ->
  db' = set_transactions db
          (transactions db ++
           [mk_transaction k ty b (ROUND amt 2) note md cb (now s)]) /\
  ABS (ROUND amt 2) <= 100000.
Proof.
  unfold insert_transaction.
  destruct (numeric_typmod 12 2 amt) as [r|e] eqn:Er; [|discriminate].
  apply numeric_typmod_Ok in Er. subst r.
  destruct (Qle_bool (ABS (ROUND amt 2)) 100000) eqn:E1; simpl; [|discriminate].
  repeat match goal with
         | |- (if ?c then _ else _) = _ -> _ => destruct c; [discriminate|]
         end.
  intro H. inversion H. split; [reflexivity|].
  apply Qle_bool_iff. exact E1.
Qed.

(** When the table takes a row: the amount is within the cap, the note is
    short enough, type and bucket go together, no interest was credited
    to the kid that day, and the kid is in the caller's household. *)
Lemma insert_transaction_accepts s k ty b amt note md cb db :
  ABS (ROUND amt 2) <= 100000 ->
  note_length_ok note = true ->
  valid_type_bucket ty b = true ->
  transaction_type_eqb ty interest
    && interest_day_taken db k b (utc_date (now s)) = false ->
  household_only db s k = true ->
  insert_transaction s k ty b amt note md cb db
  = Ok (tt, set_transactions db
              (transactions db ++
               [mk_transaction k ty b (ROUND amt 2) note md cb (now s)])).
Proof.
  intros Hcap Hnote Hvalid Huniq Hrls. unfold insert_transaction.
  rewrite (numeric_typmod_12_2 _ Hcap).
  apply Qle_bool_iff in Hcap. rewrite Hcap. simpl.
  rewrite ROUND_idem, Qeq_bool_refl. simpl.
  rewrite Hnote, Hvalid, Huniq. simpl.
  rewrite (household_kid_exists _ _ _ Hrls), Hrls. reflexivity.
Qed.

Lemma insert_cd_lot_Ok s k pr ap term st mat status db id db' :
  insert_cd_lot s k pr ap term st mat status db = Ok (id, db') ->
  id = fresh_uuid db /\
  db' = set_cd_lots db
          (cd_lots db ++
           [mk_cd_lot id k (ROUND pr 2) (ROUND ap 4) term st mat status]).
Proof.
  unfold insert_cd_lot.
  destruct (numeric_typmod 12 2 pr) as [r|e] eqn:Er; [|discriminate].
  destruct (numeric_typmod 6 4 ap) as [r'|e] eqn:Er'; [|discriminate].
  apply numeric_typmod_Ok in Er, Er'. subst r r'.
  repeat match goal with
         | |- (if ?c then _ else _) = _ -> _ => destruct c; [discriminate|]
         end.
  intro H. inversion H. auto.
Qed.

Lemma update_cd_lot_status_Ok s id status db u db' :
  update_cd_lot_status s id status db = Ok (u, db') ->
  db' = set_cd_lots db
          (map (fun l =>
                  if household_only db s (l_kid_id l) && Nat.eqb (l_id l) id
                  then set_status l status
                  else l) (cd_lots db)).
Proof. unfold update_cd_lot_status. intro H. inversion H. reflexivity. Qed.

Lemma update_stock_position_Ok s k t f g db u db' :
  update_stock_position s k t f g db = Ok (u, db') ->
  exists ps, db' = set_stock_positions db ps.
Proof.
  unfold update_stock_position.
  destruct (update_position_rows _ _ _ _ _); intro H; inversion H. eauto.
Qed.

Lemma checked_position_Ok k t sh cb p :
  checked_position k t sh cb = Ok p ->
  p = mk_stock_position k t (ROUND sh 8) (ROUND cb 2).
Proof.
  unfold checked_position.
  destruct (numeric_typmod 16 8 sh) as [r|e] eqn:Er; [|discriminate].
  destruct (numeric_typmod 12 2 cb) as [r'|e] eqn:Er'; [|discriminate].
  apply numeric_typmod_Ok in Er, Er'. subst r r'.
  repeat match goal with
         | |- (if ?c then _ else _) = _ -> _ => destruct c; [discriminate|]
         end.
  intro H. inversion H. reflexivity.
Qed.

Lemma update_position_rows_find k t f g rows rows' p :
  update_position_rows k t f g rows = Ok rows' ->
  find (same_position k t) rows = Some p ->
  find (same_position k t) rows'
  = Some (mk_stock_position (p_kid_id p) (p_ticker p)
                            (ROUND (f p) 8) (ROUND (g p) 2)).
Proof.
  revert rows'. induction rows as [|p0 rows IH]; simpl; intros rows' H Hf;
    [discriminate|].
  destruct (update_position_rows k t f g rows) as [rest|e]; [|discriminate].
  destruct (same_position k t p0) eqn:Es.
  - destruct (checked_position _ _ _ _) as [p'|e] eqn:Ec; [|discriminate].
    apply checked_position_Ok in Ec. inversion H. inversion Hf. subst.
    simpl. unfold same_position in *. simpl. rewrite Es. reflexivity.
  - inversion H. simpl. rewrite Es. apply IH; [reflexivity|exact Hf].
Qed.

Lemma existsb_find {A} (p : A -> bool) (l : list A) :
  existsb p l = match find p l with Some _ => true | None => false end.
Proof.
  induction l as [|x l IH]; simpl; [reflexivity|].
  destruct (p x); [reflexivity|exact IH].
Qed.

Lemma upsert_stock_position_Ok s k t sh c db u db' :
  upsert_stock_position s k t sh c db = Ok (u, db') ->
  exists ps, db' = set_stock_positions db ps /\
             upserted k t sh c (stock_positions db) ps.
Proof.
  unfold upsert_stock_position, upserted. rewrite existsb_find.
  destruct (find (same_position k t) (stock_positions db)) as [p|] eqn:Ef.
  - unfold update_stock_position.
    destruct (update_position_rows _ _ _ _ _) as [rows|e] eqn:Eu; [|discriminate].
    intro H. inversion H. exists rows. split; [reflexivity|].
    apply (update_position_rows_find _ _ _ _ _ _ _ Eu Ef).
  - destruct (checked_position _ _ _ _) as [p|e] eqn:Ec; [|discriminate].
    apply checked_position_Ok in Ec. subst p.
    repeat match goal with
           | |- (if ?c then _ else _) = _ -> _ => destruct c; [discriminate|]
           end.
    intro H. inversion H. eauto.
Qed.

Lemma delete_stock_position_Ok s k t db u db' :
  delete_stock_position s k t db = Ok (u, db') ->
  exists ps, db' = set_stock_positions db ps.
Proof. unfold delete_stock_position. intro H. inversion H. eauto. Qed.

Lemma sell_position_Ok s k t c f g db u db' :
  (if c : bool then delete_stock_position s k t
   else update_stock_position s k t f g) db = Ok (u, db') ->
  exists ps,
    db' = set_stock_positions db ps /\
    if c
    then ps = filter (fun p => negb (household_only db s (p_kid_id p)
                                     && same_position k t p))
                     (stock_positions db)
    else update_position_rows k t f g (stock_positions db) = Ok ps.
Proof.
  destruct c.
  - unfold delete_stock_position. intro H. inversion H. eauto.
  - unfold update_stock_position.
    destruct (update_position_rows _ _ _ _ _) eqn:E; intro H; inversion H. eauto.
Qed.

Lemma sql_div_Ok x y db q db' :
  sql_div x y db = Ok (q, db') -> db' = db /\ q = x / y /\ ~ y == 0.
Proof.
  unfold sql_div. destruct (Qeq_bool y 0) eqn:E; [discriminate|].
  intro H. apply ret_Ok in H. destruct H as [-> ->].
  apply Qeq_bool_neq in E. auto.
Qed.

Lemma lift_Ok {A} (r : result A) db a db' :
  lift r db = Ok (a, db') -> db' = db /\ r = Ok a.
Proof. unfold lift. destruct r; intro H; inversion H. auto. Qed.

Lemma household_only_set_transactions db ts s k :
  household_only (set_transactions db ts) s k = household_only db s k.
Proof. reflexivity. Qed.

Lemma household_only_set_cd_lots db ls s k :
  household_only (set_cd_lots db ls) s k = household_only db s k.
Proof. reflexivity. Qed.

Lemma household_only_set_stock_positions db ps s k :
  household_only (set_stock_positions db ps) s k = household_only db s k.
Proof. reflexivity. Qed.

(** The trigger [enforce_append_only] lets a statement through only when it
    touches no row, and then nothing changes. *)
Lemma for_each_row_append_only op touched change rows rows' :
  for_each_row (prevent_txn_mutation op) touched change rows = Ok rows' ->
  rows' = rows /\ existsb touched rows = false.
Proof.
  revert rows'. induction rows as [|r rows IH]; simpl; intros rows' H.
  - inversion H. auto.
  - destruct (touched r); [discriminate|].
    destruct (for_each_row _ _ _ rows) as [rest|e]; [|discriminate].
    inversion H. destruct (IH rest eq_refl) as [-> E]. auto.
Qed.

Lemma for_each_row_rejects op touched change rows :
  existsb touched rows = true ->
  for_each_row (prevent_txn_mutation op) touched change rows
  = Err (append_only op).
Proof.
  induction rows as [|r rows IH]; simpl; [discriminate|].
  destruct (touched r); [reflexivity|]. simpl. intro H.
  rewrite (IH H). reflexivity.
Qed.

Lemma set_transactions_same db : set_transactions db (transactions db) = db.
Proof. destruct db. reflexivity. Qed.

End Tables.

(** Splits a successful run of an RPC into the runs of its statements. *)
Ltac inv_stmt H1 :=
  first
    [ apply check_access_Ok in H1; destruct H1 as [H1 ->]
    | apply raise_if_Ok in H1; destruct H1 as [H1 ->]
    | apply lock_Ok in H1; rewrite H1 in *; clear H1
    | apply select_balance_Ok in H1; destruct H1 as [-> H1]
    | apply insert_transaction_Ok in H1; destruct H1 as [-> H1]
    | apply insert_cd_lot_Ok in H1; destruct H1 as [-> ->]
    | apply update_cd_lot_status_Ok in H1; subst
    | apply upsert_stock_position_Ok in H1; destruct H1 as (? & -> & H1)
    | apply sell_position_Ok in H1; destruct H1 as (? & -> & H1)
    | apply sql_div_Ok in H1; destruct H1 as (-> & -> & H1)
    | apply lift_Ok in H1; destruct H1 as [-> H1]
    | apply ret_Ok in H1; destruct H1 as [? ?]; subst
    | apply query_Ok in H1; destruct H1 as [-> ->] ].

Ltac rpc_go :=
  repeat match goal with
  | H : bind _ _ _ = Ok _ |- _ =>
    let a := fresh "a" in let db1 := fresh "db" in let H1 := fresh "S" in
    apply bind_Ok in H; destruct H as (a & db1 & H1 & H); try inv_stmt H1
  | H : raise _ _ = Ok _ |- _ => discriminate H
  | H : (if ?c then _ else _) _ = Ok _ |- _ =>
    let E := fresh "E" in destruct c eqn:E
  | H : (match ?o with Some _ => _ | None => _ end) _ = Ok _ |- _ =>
    let E := fresh "E" in destruct o eqn:E
  | H : (let '(_, _) := ?p in _) _ = Ok _ |- _ => destruct p
  | H : _ _ = Ok (_, _) |- _ => inv_stmt H
  end.

Ltac authorised :=
  rewrite ?household_only_set_transactions, ?household_only_set_cd_lots,
          ?household_only_set_stock_positions, <- ?has_access_household;
  assumption.

Ltac by_balance :=
  match goal with
  | S : household_only _ _ _ = true -> ?v == _ |- ?v == _ => apply S; authorised
  end.

(** ** What the RPCs report *)

Section Reports.

Variable s : session.

Lemma signed_sum_snoc k b l t :
  in_bucket k b t = true ->
  signed_sum k b (l ++ [t]) == signed_sum k b l + t_amount t.
Proof.
  intro H. rewrite signed_sum_app. simpl. unfold in_bucket in H.
  rewrite H. ring.
Qed.

Lemma deposit_to_cash_reports k a n src md db v db' :
  deposit_to_cash s k a n src md db = Ok (v, db') ->
  v == signed_sum k cash (transactions db').
Proof.
  unfold deposit_to_cash. intro H. rpc_go. by_balance.
Qed.


Lemma invest_in_mmf_reports k a db r db' :
  invest_in_mmf s k a db = Ok (r, db') ->
  fst r == signed_sum k cash (transactions db') /\
  snd r == signed_sum k mmf (transactions db').
Proof.
  unfold invest_in_mmf. intro H. rpc_go. simpl fst. simpl snd.
  split; by_balance.
Qed.

Lemma redeem_from_mmf_reports k a db r db' :
  redeem_from_mmf s k a db = Ok (r, db') ->
  fst r == signed_sum k cash (transactions db') /\
  snd r == signed_sum k mmf (transactions db').
Proof.
  unfold redeem_from_mmf. intro H. rpc_go. simpl fst. simpl snd.
  split; by_balance.
Qed.




Lemma spend_from_mmf_reports k a n db v db' :
  spend_from_mmf s k a n db = Ok (v, db') ->
  v == signed_sum k mmf (transactions db').
Proof.
  unfold spend_from_mmf. intro H. rpc_go. by_balance.
Qed.


End Reports.

(** ** The ledger only grows *)

Section AppendOnly.

Lemma appended_refl db : appended db db.
Proof. exists []. rewrite app_nil_r. reflexivity. Qed.

Lemma appended_trans db1 db2 db3 :
  appended db1 db2 -> appended db2 db3 -> appended db1 db3.
Proof.
  intros [n1 E1] [n2 E2]. exists (n1 ++ n2).
  rewrite E2, E1, app_assoc. reflexivity.
Qed.

Ltac appended_tac :=
  unfold appended;
  cbn [transactions set_transactions set_cd_lots set_stock_positions];
  first [ exists []; rewrite app_nil_r; reflexivity
        | eexists; rewrite <- ?app_assoc; reflexivity ].

Lemma update_transactions_Ok s w f db u db' :
  update_transactions s w f db = Ok (u, db') ->
  db' = db /\
  existsb (fun t => household_only db s (t_kid_id t) && w t) (transactions db)
  = false.
Proof.
  unfold update_transactions.
  destruct (for_each_row _ _ _ _) as [rows|e] eqn:E; [|discriminate].
  intro H. inversion H. apply for_each_row_append_only in E.
  destruct E as [-> E]. rewrite set_transactions_same. auto.
Qed.

Lemma delete_transactions_Ok s w db u db' :
  delete_transactions s w db = Ok (u, db') ->
  db' = db /\
  existsb (fun t => household_only db s (t_kid_id t) && w t) (transactions db)
  = false.
Proof.
  unfold delete_transactions.
  destruct (for_each_row _ _ _ _) as [rows|e] eqn:E; [|discriminate].
  intro H. inversion H. apply for_each_row_append_only in E.
  destruct E as [-> E]. rewrite set_transactions_same. auto.
Qed.

Lemma exec_appended s c db rep db' :
  exec s c db = Ok (rep, db') -> appended db db'.
Proof.
  destruct c; unfold exec; intro H.
  - unfold deposit_to_cash in H. rpc_go. appended_tac.
  - unfold withdraw_from_cash in H. rpc_go. appended_tac.
  - unfold invest_in_mmf in H. rpc_go. appended_tac.
  - unfold redeem_from_mmf in H. rpc_go. appended_tac.
  - unfold accrue_mmf_interest in H. rpc_go; appended_tac.
  - unfold create_cd in H. rpc_go; appended_tac.
  - unfold mature_cd in H. rpc_go; appended_tac.
  - unfold break_cd in H. rpc_go; appended_tac.
  - unfold buy_stock in H. rpc_go; appended_tac.
  - unfold sell_stock in H. rpc_go; appended_tac.
  - unfold spend_from_mmf in H. rpc_go. appended_tac.
  - unfold spend_from_stock in H. rpc_go; appended_tac.
  - apply bind_Ok in H. destruct H as (a & db1 & H1 & H).
    apply update_transactions_Ok in H1. destruct H1 as [-> _].
    apply ret_Ok in H. destruct H as [_ ->]. apply appended_refl.
  - apply bind_Ok in H. destruct H as (a & db1 & H1 & H).
    apply delete_transactions_Ok in H1. destruct H1 as [-> _].
    apply ret_Ok in H. destruct H as [_ ->]. apply appended_refl.
Qed.

Lemma step_appended db req : appended db (step db req).
Proof.
  unfold step. destruct (exec (fst req) (snd req) db) as [[rep db']|e] eqn:E.
  - apply exec_appended in E. exact E.
  - apply appended_refl.
Qed.

Lemma run_appended reqs db : appended db (run reqs db).
Proof.
  revert db. induction reqs as [|req reqs IH]; intro db; simpl.
  - apply appended_refl.
  - apply appended_trans with (step db req); [apply step_appended|apply IH].
Qed.

End AppendOnly.

(* ================================================================== *)
(** * The claims *)

Section Reader.

Lemma filter_none {A} (p : A -> bool) (l : list A) :
  (forall x, In x l -> p x = false) -> filter p l = [].
Proof.
  induction l as [|x l IH]; simpl; intro H; [reflexivity|].
  rewrite (H x (or_introl eq_refl)). apply IH.
  intros y Hy. apply H. right. exact Hy.
Qed.

Lemma reader_is_signed_sum db s kid_id b :
  has_access db (auth_uid s) kid_id = true ->
  Client.reduce_amounts (Client.select_amounts db s kid_id b)
  == signed_sum kid_id b (transactions db).
Proof.
  intro H. unfold Client.select_amounts.
  rewrite has_access_household in H.
  rewrite rls_in_bucket by exact H. apply reduce_amounts_signed_sum.
Qed.



End Reader.



(** ** Withdrawals *)

Section Withdraw.

Variable s : session.
Variable kid_id : uuid.
Variable p_amount : Q.
Variable p_note : option string.
Variable db : database.

Hypothesis authorised_caller : has_access db (auth_uid s) kid_id = true.
Hypothesis valid_amount : invalid_amount p_amount = false.
Hypothesis short_note : note_too_long p_note = false.

Lemma valid_amount_bounds a :
  invalid_amount a = false -> 0 < a /\ a <= 100000 /\ ROUND a 2 == a.
Proof.
  unfold invalid_amount. rewrite !orb_false_iff, negb_false_iff.
  intros [[H1 H2] H3]. apply Qle_bool_false in H1. apply Qlt_bool_false in H2.
  apply Qeq_bool_iff in H3. repeat split; try assumption. symmetry. exact H3.
Qed.

Lemma note_ok note : note_too_long note = false -> note_length_ok note = true.
Proof.
  unfold note_too_long, note_length_ok. destruct note as [n|]; [|reflexivity].
  intro H. apply Nat.ltb_ge in H. apply Nat.leb_le. exact H.
Qed.

Lemma cap_opp a : invalid_amount a = false -> ABS (ROUND (- a) 2) <= 100000.
Proof.
  intro H. apply valid_amount_bounds in H. destruct H as (H1 & H2 & H3).
  unfold ABS. rewrite ROUND_opp, Qabs_opp, H3, Qabs_pos; lra.
Qed.

Lemma cap_pos a : invalid_amount a = false -> ABS (ROUND a 2) <= 100000.
Proof.
  intro H. apply valid_amount_bounds in H. destruct H as (H1 & H2 & H3).
  unfold ABS. rewrite H3, Qabs_pos; lra.
Qed.

Lemma withdraw_from_cash_runs :
  exists v_balance,
    v_balance == signed_sum kid_id cash (transactions db) /\
    withdraw_from_cash s kid_id p_amount p_note db
    = if Qlt_bool v_balance p_amount
      then Err (InsufficientCash v_balance p_amount)
      else
        let withdrawal :=
          mk_transaction kid_id withdraw cash (ROUND (- p_amount) 2) p_note None
                         (auth_uid s) (now s) in
        Ok (COALESCE (SUM (map t_amount
               (filter (in_bucket kid_id cash)
                  (rls_transactions
                     (set_transactions db (transactions db ++ [withdrawal]))
                     s)))) 0,
            set_transactions db (transactions db ++ [withdrawal])).
Proof.
  assert (Hh : household_only db s kid_id = true)
    by (rewrite <- has_access_household; exact authorised_caller).
  exists (COALESCE (SUM (map t_amount
            (filter (in_bucket kid_id cash) (rls_transactions db s)))) 0).
  split.
  - rewrite rls_in_bucket by exact Hh. apply SUM_signed_sum.
  - unfold withdraw_from_cash.
    erewrite bind_step by (apply check_access_true; exact authorised_caller).
    rewrite valid_amount, short_note.
    do 3 (erewrite bind_step by reflexivity).
    rewrite (bind_step _ _ _ _ _ (eq_refl : select_balance s kid_id cash db = _)).
    destruct (Qlt_bool _ p_amount) eqn:E.
    + reflexivity.
    + erewrite bind_step by reflexivity.
      erewrite bind_step;
        [ reflexivity
        | apply insert_transaction_accepts;
          [ apply cap_opp, valid_amount | apply note_ok, short_note
          | reflexivity | reflexivity | exact Hh ] ].
Qed.

End Withdraw.

(** C2.  For an authorised caller, a valid amount and a note that is not too
    long, [withdraw_from_cash] raises the insufficient-balance exception
    exactly when the amount exceeds the cash balance; a call that fails
    leaves the database as it was; and a call that succeeds appends exactly
    one entry, a cash withdrawal of minus the amount, and nothing else. *)
Theorem withdraw_from_cash_insufficient_iff
        (s : session) (kid_id : uuid) (p_amount : Q) (p_note : option string)
        (db : database) :
  has_access db (auth_uid s) kid_id = true ->
  invalid_amount p_amount = false ->
  note_too_long p_note = false ->
  let balance := signed_sum kid_id cash (transactions db) in
  ((exists have need,
       withdraw_from_cash s kid_id p_amount p_note db
       = Err (InsufficientCash have need)) <-> balance < p_amount) /\
  (forall e,
      withdraw_from_cash s kid_id p_amount p_note db = Err e ->
      (exists have need, e = InsufficientCash have need) /\
      step db (s, call_withdraw_from_cash kid_id p_amount p_note) = db) /\
  (p_amount <= balance ->
   exists new_balance t,
     withdraw_from_cash s kid_id p_amount p_note db
     = Ok (new_balance, set_transactions db (transactions db ++ [t])) /\
     t_kid_id t = kid_id /\ t_type t = withdraw /\ t_bucket t = cash /\
     t_amount t == - p_amount /\ t_amount t < 0 /\
     new_balance == balance - p_amount).
Proof.
  intros Hauth Hvalid Hnote balance.
  destruct (withdraw_from_cash_runs s kid_id p_amount p_note db Hauth Hvalid Hnote)
    as (v & Hv & Hrun).
  destruct (valid_amount_bounds _ Hvalid) as (Hpos & Hmax & Hround).
  assert (Hlt : Qlt_bool v p_amount = true <-> balance < p_amount).
  { rewrite Qlt_bool_iff, Hv. reflexivity. }
  split; [|split].
  - split.
    + intros (have & need & E). rewrite Hrun in E.
      destruct (Qlt_bool v p_amount); [|discriminate]. apply Hlt. reflexivity.
    + intro L. apply Hlt in L. rewrite Hrun, L. eauto.
  - intros e E. split.
    + rewrite Hrun in E. destruct (Qlt_bool v p_amount); [|discriminate].
      inversion E. eauto.
    + unfold step, exec. simpl.
      rewrite (bind_Err _ _ _ _ E). reflexivity.
  - intro L.
    assert (Hge : Qlt_bool v p_amount = false).
    { apply Qlt_bool_false. rewrite Hv. exact L. }
    rewrite Hge in Hrun. do 2 eexists. split; [exact Hrun|].
    simpl. repeat split.
    + rewrite ROUND_opp, Hround. reflexivity.
    + rewrite ROUND_opp, Hround. lra.
    + assert (Hh : household_only
                     (set_transactions db (transactions db ++
                        [mk_transaction kid_id withdraw cash (ROUND (- p_amount) 2)
                                        p_note None (auth_uid s) (now s)])) s kid_id
                   = true)
        by (rewrite household_only_set_transactions, <- has_access_household;
            exact Hauth).
      rewrite (rls_in_bucket _ _ _ _ Hh), SUM_signed_sum.
      cbn [transactions set_transactions]. rewrite signed_sum_snoc.
      * simpl t_amount. rewrite ROUND_opp, Hround. unfold balance. ring.
      * unfold in_bucket. simpl. rewrite Nat.eqb_refl. reflexivity.
Qed.

Lemma withdraw_from_cash_insufficient_iff_witness :
  let s := Example.on_day Example.day0 in
  let db := run Example.allowance Example.home in
  has_access db (auth_uid s) Example.aiden = true /\
  invalid_amount 100 = false /\
  note_too_long None = false /\
  signed_sum Example.aiden cash (transactions db) < 100 /\
  exists have need,
    withdraw_from_cash s Example.aiden 100 None db
    = Err (InsufficientCash have need).
Proof.
  cbv zeta.
  assert (Ha : has_access (run Example.allowance Example.home)
                 (auth_uid (Example.on_day Example.day0)) Example.aiden = true)
    by (vm_compute; reflexivity).
  assert (Hv : invalid_amount 100 = false) by (vm_compute; reflexivity).
  assert (Hn : note_too_long None = false) by reflexivity.
  assert (Hb : signed_sum Example.aiden cash
                 (transactions (run Example.allowance Example.home)) < 100)
    by (vm_compute; reflexivity).
  repeat split; try assumption.
  apply (proj1 (withdraw_from_cash_insufficient_iff _ _ _ _ _ Ha Hv Hn)).
  exact Hb.
Defined.

(** ** Accrual on an empty fund *)

(** C10.  For a kid of the caller's household whose money-market balance is
    zero or negative, [accrue_mmf_interest] raises nothing and appends
    nothing: it answers [interest_credited = 0] and the current balance, and
    leaves the database as it was. *)
Theorem accrue_mmf_interest_empty_fund
        (s : session) (kid_id : uuid) (db : database) :
  has_access db (auth_uid s) kid_id = true ->
  signed_sum kid_id mmf (transactions db) <= 0 ->
  exists new_mmf_balance,
    accrue_mmf_interest s kid_id db = Ok ((0, new_mmf_balance), db) /\
    new_mmf_balance == signed_sum kid_id mmf (transactions db).
Proof.
  intros Hauth Hle.
  assert (Hh : household_only db s kid_id = true)
    by (rewrite <- has_access_household; exact Hauth).
  exists (COALESCE (SUM (map t_amount
            (filter (in_bucket kid_id mmf) (rls_transactions db s)))) 0).
  assert (Hv : COALESCE (SUM (map t_amount
                 (filter (in_bucket kid_id mmf) (rls_transactions db s)))) 0
               == signed_sum kid_id mmf (transactions db)).
  { rewrite rls_in_bucket by exact Hh. apply SUM_signed_sum. }
  split; [|exact Hv].
  unfold accrue_mmf_interest.
  erewrite bind_step by (apply check_access_true; exact Hauth).
  erewrite bind_step by reflexivity.
  rewrite (bind_step _ _ _ _ _ (eq_refl : select_balance s kid_id mmf db = _)).
  replace (Qle_bool _ 0) with true; [reflexivity|].
  symmetry. apply Qle_bool_iff. rewrite Hv. exact Hle.
Qed.

Lemma accrue_mmf_interest_empty_fund_witness :
  let s := Example.on_day Example.day0 in
  let db := run Example.allowance Example.home in
  has_access db (auth_uid s) Example.aiden = true /\
  signed_sum Example.aiden mmf (transactions db) <= 0 /\
  exists new_mmf_balance,
    accrue_mmf_interest s Example.aiden db = Ok ((0, new_mmf_balance), db) /\
    new_mmf_balance == 0.
Proof.
  cbv zeta.
  assert (Ha : has_access (run Example.allowance Example.home)
                 (auth_uid (Example.on_day Example.day0)) Example.aiden = true)
    by (vm_compute; reflexivity).
  assert (Hb : signed_sum Example.aiden mmf
                 (transactions (run Example.allowance Example.home)) <= 0)
    by (vm_compute; discriminate).
  repeat split; try assumption.
  destruct (accrue_mmf_interest_empty_fund _ _ _ Ha Hb) as (b & Hrun & Hbal).
  exists b. split; [exact Hrun|]. rewrite Hbal. vm_compute. reflexivity.
Defined.

(** ** Spending from the money-market fund *)


(** C8.  A [spend_from_mmf] that succeeds appends exactly three entries
    together: minus the amount in the fund, plus the amount in cash, minus
    the amount in cash.  The fund's balance goes down by the amount; the cash
    balance, every other balance of the kid and every balance of every other
    kid stay as they were, and so do the term deposits and the positions. *)
Theorem spend_from_mmf_three_entries
        (s : session) (kid_id : uuid) (p_amount : Q) (p_note : option string)
        (db db' : database) (new_mmf_balance : Q) :
  spend_from_mmf s kid_id p_amount p_note db = Ok (new_mmf_balance, db') ->
  (exists e1 e2 e3,
      transactions db' = transactions db ++ [e1; e2; e3] /\
      t_kid_id e1 = kid_id /\ t_bucket e1 = mmf /\ t_amount e1 == - p_amount /\
      t_kid_id e2 = kid_id /\ t_bucket e2 = cash /\ t_amount e2 == p_amount /\
      t_kid_id e3 = kid_id /\ t_bucket e3 = cash /\ t_amount e3 == - p_amount) /\
  signed_sum kid_id mmf (transactions db')
  == signed_sum kid_id mmf (transactions db) - p_amount /\
  signed_sum kid_id cash (transactions db')
  == signed_sum kid_id cash (transactions db) /\
  (forall k b, (k, b) <> (kid_id, mmf) ->
               signed_sum k b (transactions db') == signed_sum k b (transactions db)) /\
  cd_lots db' = cd_lots db /\ stock_positions db' = stock_positions db /\
  new_mmf_balance == signed_sum kid_id mmf (transactions db').
Proof.
  intro H. assert (Hrep := spend_from_mmf_reports _ _ _ _ _ _ _ H).
  unfold spend_from_mmf in H. rpc_go.
  destruct (valid_amount_bounds _ S0) as (Hpos & Hmax & Hround).
  cbn [transactions set_transactions cd_lots stock_positions] in *.
  assert (E1 : ROUND (- p_amount) 2 == - p_amount)
    by (rewrite ROUND_opp, Hround; reflexivity).
  split; [|split; [|split; [|split; [|split; [|split]]]]].
  - do 3 eexists. split.
    + rewrite <- !app_assoc. simpl. reflexivity.
    + simpl. repeat split; assumption.
  - rewrite !signed_sum_app. simpl. rewrite Nat.eqb_refl. simpl.
    rewrite E1. ring.
  - rewrite !signed_sum_app. simpl. rewrite Nat.eqb_refl. simpl.
    rewrite E1, Hround. ring.
  - intros k b Hne. rewrite !signed_sum_app. simpl.
    destruct (Nat.eqb kid_id k) eqn:Ek; simpl.
    + apply Nat.eqb_eq in Ek. subst k.
      destruct b; simpl; try (rewrite E1, Hround); try ring.
      exfalso. apply Hne. reflexivity.
    + ring.
  - reflexivity.
  - reflexivity.
  - exact Hrep.
Qed.

Lemma spend_from_mmf_three_entries_witness :
  let s := Example.on_day (Example.day0 + 1) in
  exists new_mmf_balance db',
    spend_from_mmf s Example.aiden 20 (Some "toy"%string) Example.saver
    = Ok (new_mmf_balance, db') /\
    signed_sum Example.aiden mmf (transactions db') == 80 /\
    signed_sum Example.aiden cash (transactions db') == 900 /\
    List.length (transactions db') = (List.length (transactions Example.saver) + 3)%nat.
Proof.
  cbv zeta.
  destruct (spend_from_mmf (Example.on_day (Example.day0 + 1)) Example.aiden 20
              (Some "toy"%string) Example.saver) as [[b db']|e] eqn:E;
    [|vm_compute in E; discriminate E].
  exists b, db'. split; [reflexivity|].
  destruct (spend_from_mmf_three_entries _ _ _ _ _ _ _ E)
    as ((e1 & e2 & e3 & Happ & _) & Hmmf & Hcash & _).
  split; [|split].
  - rewrite Hmmf. vm_compute. reflexivity.
  - rewrite Hcash. vm_compute. reflexivity.
  - rewrite Happ, length_app. reflexivity.
Defined.

(** ** The ledger is append-only *)

(** C9.  An [UPDATE] or a [DELETE] that touches an entry, whatever the entry,
    the caller and the statement, is refused by the trigger of the table; a
    statement that gets through touched nothing and changed nothing; and
    after any sequence of requests (the RPCs and direct [UPDATE] and [DELETE]
    statements alike) every entry the ledger had is still there, unchanged
    and in place, with the new entries after them. *)
Theorem ledger_is_append_only :
  (forall s where_ set_ db t,
      In t (transactions db) ->
      household_only db s (t_kid_id t) = true -> where_ t = true ->
      update_transactions s where_ set_ db = Err (append_only "UPDATE")) /\
  (forall s where_ db t,
      In t (transactions db) ->
      household_only db s (t_kid_id t) = true -> where_ t = true ->
      delete_transactions s where_ db = Err (append_only "DELETE")) /\
  (forall s where_ set_ db u db',
      update_transactions s where_ set_ db = Ok (u, db') -> db' = db) /\
  (forall s where_ db u db',
      delete_transactions s where_ db = Ok (u, db') -> db' = db) /\
  (forall reqs db,
      exists new, transactions (run reqs db) = transactions db ++ new).
Proof.
  repeat split.
  - intros s w f db t Hin Hvis Hw. unfold update_transactions.
    rewrite for_each_row_rejects; [reflexivity|].
    apply existsb_exists. exists t. rewrite Hvis, Hw. auto.
  - intros s w db t Hin Hvis Hw. unfold delete_transactions.
    rewrite for_each_row_rejects; [reflexivity|].
    apply existsb_exists. exists t. rewrite Hvis, Hw. auto.
  - intros s w f db u db' H. apply update_transactions_Ok in H. tauto.
  - intros s w db u db' H. apply delete_transactions_Ok in H. tauto.
  - intros reqs db. apply run_appended.
Qed.

Lemma ledger_is_append_only_witness :
  let s := Example.on_day (Example.day0 + 1) in
  let db := run Example.allowance Example.home in
  update_transactions s (fun t => transaction_type_eqb (t_type t) deposit)
    (fun t => mk_transaction (t_kid_id t) (t_type t) (t_bucket t) 1000000
                             (t_note t) (t_metadata t) (t_created_by t)
                             (t_created_at t)) db
  = Err (append_only "UPDATE") /\
  delete_transactions s (fun _ => true) db = Err (append_only "DELETE") /\
  exists new,
    transactions
      (run [(s, sql_delete_transactions (fun _ => true));
            (s, call_deposit_to_cash Example.aiden 5 None None None)] db)
    = transactions db ++ new.
Proof.
  cbv zeta. destruct ledger_is_append_only as (Hupd & Hdel & _ & _ & Hrun).
  split; [|split].
  - apply (Hupd _ _ _ _
             (mk_transaction Example.aiden deposit cash (ROUND 50 2) None
                (Some [("source"%string, JStr "chores")]) Example.parent
                (now (Example.on_day Example.day0)))).
    + vm_compute. left. reflexivity.
    + vm_compute. reflexivity.
    + reflexivity.
  - apply (Hdel _ _ _
             (mk_transaction Example.aiden deposit cash (ROUND 50 2) None
                (Some [("source"%string, JStr "chores")]) Example.parent
                (now (Example.on_day Example.day0)))).
    + vm_compute. left. reflexivity.
    + vm_compute. reflexivity.
    + reflexivity.
  - apply Hrun.
Defined.

(** ** Interest accrual *)

Section Accrual.

Lemma max_by_None {A} (key : A -> Z) (l : list A) :
  max_by key l = None -> l = [].
Proof.
  destruct l as [|x l]; [reflexivity|]. simpl.
  destruct (max_by key l) as [r|]; [|discriminate].
  destruct (Z.ltb (key x) (key r)); discriminate.
Qed.

Lemma max_by_Some {A} (key : A -> Z) (l : list A) (r : A) :
  max_by key l = Some r ->
  In r l /\ forall x, In x l -> (key x <= key r)%Z.
Proof.
  revert r. induction l as [|y l IH]; simpl; intros r H; [discriminate|].
  destruct (max_by key l) as [r'|] eqn:E.
  - destruct (IH r' eq_refl) as [Hin Hmax].
    destruct (Z.ltb (key y) (key r')) eqn:L; inversion H; subst.
    + apply Z.ltb_lt in L. split; [right; exact Hin|].
      intros x [<-|Hx]; [lia|apply Hmax, Hx].
    + apply Z.ltb_ge in L. split; [left; reflexivity|].
      intros x [<-|Hx]; [lia|]. specialize (Hmax x Hx). lia.
  - inversion H. subst. apply max_by_None in E. subst l.
    split; [left; reflexivity|]. intros x [<-|[]]. lia.
Qed.

Lemma utc_date_mono (a b : timestamptz) :
  (a <= b)%Z -> (utc_date a <= utc_date b)%Z.
Proof. intro H. unfold utc_date. apply Z.div_le_mono; lia. Qed.

Lemma transaction_type_eqb_eq a b : transaction_type_eqb a b = true -> a = b.
Proof. destruct a, b; simpl; congruence. Qed.

Lemma transaction_bucket_eqb_eq a b : transaction_bucket_eqb a b = true -> a = b.
Proof. destruct a, b; simpl; congruence. Qed.


End Accrual.




(** ** Term deposits *)

Section TermDeposits.

Lemma cd_status_eqb_eq a b : cd_status_eqb a b = true -> a = b.
Proof. destruct a, b; simpl; congruence. Qed.

Lemma find_after_update (vis : uuid -> bool) (id : uuid) (st : cd_status)
      (lots : list cd_lot) (lot : cd_lot) :
  find (fun l => Nat.eqb (l_id l) id) (filter (fun l => vis (l_kid_id l)) lots)
  = Some lot ->
  find (fun l => Nat.eqb (l_id l) id)
       (filter (fun l => vis (l_kid_id l))
               (map (fun l => if vis (l_kid_id l) && Nat.eqb (l_id l) id
                              then set_status l st else l) lots))
  = Some (set_status lot st).
Proof.
  induction lots as [|l lots IH]; simpl; [discriminate|].
  destruct (vis (l_kid_id l)) eqn:V; simpl.
  - destruct (Nat.eqb (l_id l) id) eqn:I; simpl.
    + rewrite V. simpl. rewrite I. intro H. inversion H. reflexivity.
    + rewrite V. simpl. rewrite I. exact IH.
  - rewrite V. exact IH.
Qed.

Lemma visible_lot db s id lot :
  find (fun l => Nat.eqb (l_id l) id) (rls_cd_lots db s) = Some lot ->
  household_only db s (l_kid_id lot) = true /\ l_id lot = id.
Proof.
  intro H. apply find_some in H. destruct H as [Hin Hid].
  unfold rls_cd_lots in Hin. apply filter_In in Hin.
  apply Nat.eqb_eq in Hid. tauto.
Qed.

Lemma term_valid_cases n :
  term_valid n = true -> n = 3%Z \/ n = 6%Z \/ n = 12%Z.
Proof.
  unfold term_valid. rewrite !orb_true_iff, !Z.eqb_eq. tauto.
Qed.

End TermDeposits.

(** C5, amended.  [mature_cd] succeeds only on a lot that is active and whose
    maturity date is today or earlier.  When it succeeds it credits
    [principal + ROUND(principal * apy * termDays / 365, 2)] to cash as one
    entry, where [termDays] is the number of days from the lot's start date
    to its maturity date (not to the day of the call), and the lot becomes
    matured.  It does succeed on such a lot whenever that amount is within
    the cap of a ledger entry. *)
Theorem mature_cd_credit (s : session) (p_cd_lot_id : uuid) (db : database) :
  (forall r db',
      mature_cd s p_cd_lot_id db = Ok (r, db') ->
      exists lot,
        find (fun l => Nat.eqb (l_id l) p_cd_lot_id) (rls_cd_lots db s) = Some lot /\
        l_status lot = active /\
        (l_maturity_date lot <= CURRENT_DATE s)%Z /\
        let term_days := (l_maturity_date lot - l_start_date lot)%Z in
        let earned :=
          ROUND (l_principal lot * l_apy lot * inject_Z term_days / 365) 2 in
        r = (l_principal lot, earned, l_principal lot + earned) /\
        (exists t,
            transactions db' = transactions db ++ [t] /\
            t_kid_id t = l_kid_id lot /\ t_type t = redeem /\ t_bucket t = cash /\
            t_amount t = ROUND (l_principal lot + earned) 2 /\
            (ROUND (l_principal lot) 2 == l_principal lot ->
             t_amount t == l_principal lot + earned)) /\
        find (fun l => Nat.eqb (l_id l) p_cd_lot_id) (rls_cd_lots db' s)
        = Some (set_status lot matured)) /\
  (forall lot,
      find (fun l => Nat.eqb (l_id l) p_cd_lot_id) (rls_cd_lots db s) = Some lot ->
      term_valid (l_term_months lot) = true ->
      l_status lot = active ->
      (l_maturity_date lot <= CURRENT_DATE s)%Z ->
      let term_days := (l_maturity_date lot - l_start_date lot)%Z in
      let earned :=
        ROUND (l_principal lot * l_apy lot * inject_Z term_days / 365) 2 in
      ABS (ROUND (l_principal lot + earned) 2) <= 100000 ->
      exists db',
        mature_cd s p_cd_lot_id db
        = Ok ((l_principal lot, earned, l_principal lot + earned), db')).
Proof.
  split.
  - intros r db' H. unfold mature_cd in H. rpc_go.
    exists c. split; [reflexivity|].
    apply negb_false_iff, cd_status_eqb_eq in S0.
    apply Z.ltb_ge in S1.
    split; [exact S0|]. split; [exact S1|]. cbv zeta.
    split; [reflexivity|]. split.
    + eexists. split; [reflexivity|]. simpl. repeat split.
      intro Hp. apply ROUND_plus; [exact Hp|]. rewrite ROUND_idem. reflexivity.
    + unfold rls_cd_lots.
      cbn [cd_lots set_transactions set_cd_lots].
      apply (find_after_update (fun k => household_only db s k)). exact E.
  - intros lot Hfind Hterm Hactive Hmat term_days earned Hcap.
    destruct (visible_lot _ _ _ _ Hfind) as [Hvis Hid].
    unfold mature_cd.
    rewrite (bind_step _ _ _ _ _ (eq_refl : select_cd_lot s p_cd_lot_id db = _)).
    rewrite Hfind.
    erewrite bind_step
      by (apply check_access_true; rewrite has_access_household; exact Hvis).
    rewrite Hactive. simpl negb.
    erewrite bind_step by reflexivity.
    replace (Z.ltb (CURRENT_DATE s) (l_maturity_date lot)) with false
      by (symmetry; apply Z.ltb_ge; exact Hmat).
    do 3 (erewrite bind_step by reflexivity).
    eexists. erewrite bind_step; [reflexivity|].
    apply insert_transaction_accepts.
    + exact Hcap.
    + apply term_valid_cases in Hterm.
      destruct Hterm as [ -> | [ -> | -> ] ]; reflexivity.
    + reflexivity.
    + reflexivity.
    + exact Hvis.
Qed.

Lemma mature_cd_credit_witness :
  let s := Example.on_day (Example.day0 + 100) in
  let lot := mk_cd_lot 1 Example.aiden (ROUND 100 2) (ROUND 0.048 4) 3
                       Example.day0 (Example.day0 + 92) active in
  find (fun l => Nat.eqb (l_id l) 1) (rls_cd_lots Example.cd_holder s) = Some lot /\
  (l_maturity_date lot <= CURRENT_DATE s)%Z /\
  exists r db',
    mature_cd s 1 Example.cd_holder = Ok (r, db') /\
    snd (fst r) == 1.21 /\ snd r == 101.21.
Proof.
  cbv zeta.
  set (s := Example.on_day (Example.day0 + 100)).
  set (lot := mk_cd_lot 1 Example.aiden (ROUND 100 2) (ROUND 0.048 4) 3
                        Example.day0 (Example.day0 + 92) active).
  assert (Hf : find (fun l => Nat.eqb (l_id l) 1) (rls_cd_lots Example.cd_holder s)
               = Some lot) by (vm_compute; reflexivity).
  assert (Hm : (l_maturity_date lot <= CURRENT_DATE s)%Z)
    by (vm_compute; discriminate).
  split; [exact Hf|]. split; [exact Hm|].
  destruct (proj2 (mature_cd_credit s 1 Example.cd_holder) lot Hf
                  eq_refl eq_refl Hm) as [db' Hrun].
  - vm_compute. discriminate.
  - eexists. exists db'. split; [exact Hrun|].
    split; vm_compute; reflexivity.
Defined.

(** C5 as stated fails when the call comes after the maturity date: a
    3-month lot of $100 at 4.8%, 92 days long, matured on day 100, is paid
    the interest of 92 days, $1.21, and not that of the 100 days it was
    held, $1.32. *)
Lemma mature_cd_stops_at_maturity :
  let s := Example.on_day (Example.day0 + 100) in
  (CURRENT_DATE s - Example.day0 = 100)%Z /\
  match mature_cd s 1 Example.cd_holder with
  | Ok ((principal_returned, interest_earned, total_returned), _) =>
    principal_returned == 100 /\
    total_returned == 100 + ROUND (100 * 0.048 * inject_Z 92 / 365) 2 /\
    ~ total_returned == 100 + ROUND (100 * 0.048 * inject_Z 100 / 365) 2
  | Err _ => False
  end.
Proof.
  cbv zeta. split; [reflexivity|].
  vm_compute. repeat split. discriminate.
Qed.

(** What [break_cd] does when it succeeds: the interest of the days held,
    the penalty of at most thirty of them, and never less than the principal
    back. *)
Lemma break_cd_credit (s : session) (p_cd_lot_id : uuid) (db db' : database)
      (r : Q * Q * Q * Q) :
  break_cd s p_cd_lot_id db = Ok (r, db') ->
  exists lot,
    find (fun l => Nat.eqb (l_id l) p_cd_lot_id) (rls_cd_lots db s) = Some lot /\
    l_status lot = active /\
    let daysHeld := (CURRENT_DATE s - l_start_date lot)%Z in
    let earned :=
      ROUND (l_principal lot * l_apy lot * inject_Z daysHeld / 365) 2 in
    let penalty :=
      ROUND (l_principal lot * l_apy lot * inject_Z (Z.min daysHeld 30) / 365) 2 in
    let net := l_principal lot + GREATEST (earned - penalty) 0 in
    r = (l_principal lot, earned, penalty, net) /\
    l_principal lot <= net /\
    (exists t,
        transactions db' = transactions db ++ [t] /\
        t_kid_id t = l_kid_id lot /\ t_type t = redeem /\ t_bucket t = cash /\
        t_amount t = ROUND net 2 /\ t_amount t <= 100000) /\
    find (fun l => Nat.eqb (l_id l) p_cd_lot_id) (rls_cd_lots db' s)
    = Some (set_status lot broken).
Proof.
  intro H. unfold break_cd in H. rpc_go.
  exists c. split; [reflexivity|].
  apply negb_false_iff, cd_status_eqb_eq in S0.
  split; [exact S0|]. cbv zeta.
  split; [reflexivity|]. split; [|split].
  - assert (G := GREATEST_ge_r
                   (ROUND (l_principal c * l_apy c
                           * inject_Z (CURRENT_DATE s - l_start_date c) / 365) 2
                    - ROUND (l_principal c * l_apy c
                             * inject_Z (LEAST (CURRENT_DATE s - l_start_date c) 30)
                             / 365) 2) 0).
    unfold LEAST in G. lra.
  - eexists. split; [reflexivity|]. simpl. repeat split.
    apply Qle_trans with (2 := S1). apply Qle_Qabs.
  - unfold rls_cd_lots. cbn [cd_lots set_transactions set_cd_lots].
    apply (find_after_update (fun k => household_only db s k)). exact E.
Qed.

(** The spec's own figures: $100 at 4.8%, broken on day 45, earns $0.59,
    pays a penalty of $0.39 and returns $100.20. *)
Lemma break_cd_after_45_days :
  match break_cd (Example.on_day (Example.day0 + 45)) 1 Example.cd_holder with
  | Ok ((principal_returned, interest_earned, penalty, net_returned), _) =>
    principal_returned == 100 /\ interest_earned == 0.59 /\
    penalty == 0.39 /\ net_returned == 100.20
  | Err _ => False
  end.
Proof. vm_compute. repeat split. Qed.

(** C4, where the code departs from it.  A lot of $100,000, which
    [create_cd] accepts, broken on day 45 at 4.8%: the interest is $591.78,
    the penalty $394.52, and the claim has $100,197.26 credited to cash.
    The ledger takes no entry above $100,000 ([chk_amount_range]), so
    [break_cd] raises, nothing is credited and the lot stays active; for the
    same reason [mature_cd] can never pay this lot out. *)
Theorem break_cd_over_cap :
  let s := Example.on_day (Example.day0 + 45) in
  let lot := mk_cd_lot 1 Example.aiden (ROUND 100000 2) (ROUND 0.048 4) 3
                       Example.day0 (Example.day0 + 92) active in
  find (fun l => Nat.eqb (l_id l) 1) (rls_cd_lots Example.big_cd s) = Some lot /\
  (CURRENT_DATE s - l_start_date lot = 45)%Z /\
  ROUND (l_principal lot * l_apy lot * inject_Z 45 / 365) 2 == 591.78 /\
  ROUND (l_principal lot * l_apy lot * inject_Z (Z.min 45 30) / 365) 2 == 394.52 /\
  l_principal lot + GREATEST (591.78 - 394.52) 0 == 100197.26 /\
  break_cd s 1 Example.big_cd = Err (check_violation "chk_amount_range") /\
  mature_cd (Example.on_day (Example.day0 + 92)) 1 Example.big_cd
  = Err (check_violation "chk_amount_range").
Proof.
  cbv zeta. repeat split; vm_compute; reflexivity.
Qed.

(** ** Buying shares *)



(** The spec's own figures: $200 at $800 a share buys 0.25 shares at a cost
    of $200; $100 more at $900 brings the position to 0.25 + 0.11111111
    shares at a cost of $300. *)
Lemma buy_stock_twice :
  match buy_stock (Example.on_day Example.day0) Example.aiden "NVDA" 200
                  Example.investor with
  | Ok ((shares1, price1, _), db1) =>
    shares1 == 0.25 /\ price1 == 800 /\
    match buy_stock (Example.on_day (Example.day0 + 10)) Example.aiden "NVDA" 100
                    (Example.priced db1) with
    | Ok ((shares2, price2, _), db2) =>
      shares2 == 0.11111111 /\ price2 == 900 /\
      match find (same_position Example.aiden "NVDA") (stock_positions db2) with
      | Some p => p_shares p == 0.25 + 0.11111111 /\ p_cost_basis p == 300
      | None => False
      end
    | Err _ => False
    end
  | Err _ => False
  end.
Proof. vm_compute. repeat split. Qed.

(** ** External snapshots *)

Import Client.

Section Snapshots.









Lemma ROUND_pos x n : 0 < ROUND x n -> 0 < x.
Proof.
  intro H. apply Qnot_le_lt. intro L.
  assert (M := ROUND_mono x 0 n L).
  assert (Z0 : ROUND 0 n == 0) by reflexivity. lra.
Qed.


End Snapshots.

Section Deposit.

Lemma deposit_to_cash_runs s k a n src md db :
  has_access db (auth_uid s) k = true ->
  invalid_amount a = false ->
  note_too_long n = false ->
  exists new_balance metadata,
    deposit_to_cash s k a n src md db
    = Ok (new_balance,
          set_transactions db
            (transactions db ++
             [mk_transaction k deposit cash (ROUND a 2) n metadata
                             (auth_uid s) (now s)])) /\
    metadata
    = (let m := match src with
                | Some src' => jsonb_concat (COALESCE md [])
                                            [("source"%string, JStr src')]
                | None => COALESCE md []
                end in
       if jsonb_is_empty m then None else Some m).
Proof.
  intros Hauth Hvalid Hnote.
  assert (Hh : household_only db s k = true)
    by (rewrite <- has_access_household; exact Hauth).
  do 2 eexists. split; [|reflexivity].
  unfold deposit_to_cash.
  erewrite bind_step by (apply check_access_true; exact Hauth).
  rewrite Hvalid, Hnote.
  do 3 (erewrite bind_step by reflexivity).
  erewrite bind_step;
    [ reflexivity
    | apply insert_transaction_accepts;
      [ apply cap_pos, Hvalid | apply note_ok, Hnote
      | reflexivity | reflexivity | exact Hh ] ].
Qed.

End Deposit.




(* ================================================================== *)
(** * Further properties of the engine *)

(** ** Deposits *)

Lemma jsonb_concat_source (md : jsonb) (src : string) :
  jsonb_get (jsonb_concat md [("source"%string, JStr src)]) "source"
  = Some (JStr src).
Proof.
  assert (Hhas : forall k, jsonb_has [("source"%string, JStr src)] k
                           = String.eqb "source" k).
  { intro k. unfold jsonb_has.
    change (jsonb_get [("source"%string, JStr src)] k)
      with (if String.eqb "source" k then Some (JStr src) else None).
    destruct (String.eqb "source" k); reflexivity. }
  unfold jsonb_concat.
  induction md as [|[k v] md IH]; [reflexivity|].
  cbn [filter fst]. rewrite Hhas.
  destruct (String.eqb "source" k) eqn:E; cbn [negb app jsonb_get].
  - exact IH.
  - rewrite String.eqb_sym, E. exact IH.
Qed.

(** [deposit_to_cash] never fails for a kid of the caller's household, a
    valid amount and a note of at most 500 characters.  It appends one cash
    deposit of the amount, with the note and the caller's id; the reported
    balance is the old one plus the amount.  A given [p_source] ends up under
    the key ["source"] of the metadata, also when [p_metadata] already has
    that key; without source and without metadata the entry has none. *)
Theorem deposit_to_cash_credits
        (s : session) (kid_id : uuid) (p_amount : Q)
        (p_note p_source : option string) (p_metadata : option jsonb)
        (db : database) :
  has_access db (auth_uid s) kid_id = true ->
  invalid_amount p_amount = false ->
  note_too_long p_note = false ->
  exists new_balance t,
    deposit_to_cash s kid_id p_amount p_note p_source p_metadata db
    = Ok (new_balance, set_transactions db (transactions db ++ [t])) /\
    t_kid_id t = kid_id /\ t_type t = deposit /\ t_bucket t = cash /\
    t_amount t == p_amount /\ t_note t = p_note /\
    t_created_by t = auth_uid s /\
    (forall src, p_source = Some src ->
       exists md, t_metadata t = Some md /\
                  jsonb_get md "source" = Some (JStr src)) /\
    (p_source = None -> (p_metadata = None \/ p_metadata = Some []) ->
     t_metadata t = None) /\
    new_balance == signed_sum kid_id cash (transactions db) + p_amount.
Proof.
  intros Hauth Hvalid Hnote.
  destruct (deposit_to_cash_runs s kid_id p_amount p_note p_source p_metadata db
              Hauth Hvalid Hnote) as (nb & md & Hrun & Hmd).
  destruct (valid_amount_bounds _ Hvalid) as (Hpos & Hmax & Hround).
  exists nb. eexists. split; [exact Hrun|]. simpl.
  repeat split; try assumption.
  - intros src ->. rewrite Hmd. cbv zeta.
    destruct (jsonb_is_empty _) eqn:E.
    + exfalso. unfold jsonb_concat in E.
      destruct (filter _ (COALESCE p_metadata [])); discriminate E.
    + eexists. split; [reflexivity|]. apply jsonb_concat_source.
  - intros -> [-> | ->]; rewrite Hmd; reflexivity.
  - rewrite (deposit_to_cash_reports _ _ _ _ _ _ _ _ _ Hrun).
    cbn [transactions set_transactions]. rewrite signed_sum_snoc.
    + simpl. rewrite Hround. reflexivity.
    + unfold in_bucket. simpl. rewrite Nat.eqb_refl. reflexivity.
Qed.

Lemma deposit_to_cash_credits_witness :
  exists new_balance t,
    deposit_to_cash (Example.on_day Example.day0) Example.aiden 50 None
                    (Some "chores"%string)
                    (Some [("source"%string, JStr "gift")]) Example.home
    = Ok (new_balance, set_transactions Example.home [t]) /\
    t_metadata t = Some [("source"%string, JStr "chores")] /\
    new_balance == 50.
Proof.
  destruct (deposit_to_cash_credits (Example.on_day Example.day0) Example.aiden 50
              None (Some "chores"%string) (Some [("source"%string, JStr "gift")])
              Example.home eq_refl eq_refl eq_refl)
    as (nb & t & Hrun & _ & _ & _ & _ & _ & _ & _ & _ & Hbal).
  exists nb, t. split; [exact Hrun|]. split.
  - vm_compute in Hrun. inversion Hrun. reflexivity.
  - rewrite Hbal. reflexivity.
Defined.

(** ** Refusals *)

Lemma check_access_false c k db :
  has_access db c k = false -> check_access c k db = Err Unauthorized.
Proof.
  intro H. unfold check_access, bind, query. rewrite H. reflexivity.
Qed.

(** An amount that is not positive, above 100,000 or finer than a cent is
    refused with the invalid-amount exception by every RPC that takes one,
    before anything else about the request is looked at (the caller's access
    and, where there is one, the term or the ticker apart).  [sell_stock]
    differs in one point only: it takes 0, which means "sell all". *)
Theorem invalid_amount_refused
        (s : session) (kid_id : uuid) (p_amount : Q) (db : database) :
  has_access db (auth_uid s) kid_id = true ->
  invalid_amount p_amount = true ->
  (forall note source metadata,
      deposit_to_cash s kid_id p_amount note source metadata db
      = Err InvalidAmount) /\
  (forall note, withdraw_from_cash s kid_id p_amount note db = Err InvalidAmount) /\
  invest_in_mmf s kid_id p_amount db = Err InvalidAmount /\
  redeem_from_mmf s kid_id p_amount db = Err InvalidAmount /\
  (forall note, spend_from_mmf s kid_id p_amount note db = Err InvalidAmount) /\
  (forall term, term_valid term = true ->
                create_cd s kid_id p_amount term db = Err InvalidAmount) /\
  (forall ticker, ticker_format ticker = true ->
                  buy_stock s kid_id ticker p_amount db = Err InvalidAmount) /\
  (forall ticker note,
      ticker_format ticker = true ->
      spend_from_stock s kid_id ticker p_amount note db = Err InvalidAmount) /\
  (forall ticker,
      ticker_format ticker = true -> ~ p_amount == 0 ->
      sell_stock s kid_id ticker p_amount db = Err InvalidAmount).
Proof.
  intros Hauth Hbad.
  repeat match goal with |- _ /\ _ => split end; intros;
    unfold deposit_to_cash, withdraw_from_cash, invest_in_mmf, redeem_from_mmf,
           spend_from_mmf, create_cd, buy_stock, spend_from_stock, sell_stock;
    (erewrite bind_step by (apply check_access_true; exact Hauth));
    repeat match goal with
           | H : term_valid _ = true |- _ => rewrite H; clear H
           | H : ticker_format _ = true |- _ => rewrite H; clear H
           end;
    cbn [negb]; try (erewrite bind_step by reflexivity);
    try (rewrite Hbad; reflexivity).
  destruct (Qlt_bool p_amount 0 || Qlt_bool 100000 p_amount) eqn:E1;
    [reflexivity|].
  erewrite bind_step by reflexivity.
  apply orb_false_iff in E1. destruct E1 as [E1 E2].
  unfold invalid_amount in Hbad. rewrite E2, orb_false_r in Hbad.
  apply Qlt_bool_false in E1.
  assert (Hpos : Qlt_bool 0 p_amount = true).
  { apply Qlt_bool_iff. destruct (Qlt_le_dec 0 p_amount) as [L|L]; [exact L|].
    exfalso. match goal with N : ~ _ == 0 |- _ => apply N end. lra. }
  rewrite Hpos. cbn [andb].
  apply orb_true_iff in Hbad. destruct Hbad as [Hbad|Hbad].
  - apply Qle_bool_iff in Hbad. apply Qlt_bool_iff in Hpos. lra.
  - rewrite Hbad. reflexivity.
Qed.

Lemma invalid_amount_refused_witness :
  withdraw_from_cash (Example.on_day Example.day0) Example.aiden 12.345 None
                     Example.saver
  = Err InvalidAmount /\
  sell_stock (Example.on_day Example.day0) Example.aiden "NVDA" (-5)
             Example.saver
  = Err InvalidAmount.
Proof.
  destruct (invalid_amount_refused (Example.on_day Example.day0) Example.aiden
              12.345 Example.saver eq_refl eq_refl)
    as (_ & Hw & _).
  destruct (invalid_amount_refused (Example.on_day Example.day0) Example.aiden
              (-5) Example.saver eq_refl eq_refl)
    as (_ & _ & _ & _ & _ & _ & _ & _ & Hs).
  split; [apply Hw|]. apply Hs; [reflexivity|discriminate].
Defined.

(** A caller who does not administer the kid's household is refused by every
    RPC that names a kid, whatever the other arguments; and reading the
    balances shows that caller nothing. *)
Theorem other_household_refused
        (s : session) (kid_id : uuid) (db : database) :
  has_access db (auth_uid s) kid_id = false ->
  (forall amount note source metadata,
      deposit_to_cash s kid_id amount note source metadata db = Err Unauthorized) /\
  (forall amount note,
      withdraw_from_cash s kid_id amount note db = Err Unauthorized) /\
  (forall amount, invest_in_mmf s kid_id amount db = Err Unauthorized) /\
  (forall amount, redeem_from_mmf s kid_id amount db = Err Unauthorized) /\
  accrue_mmf_interest s kid_id db = Err Unauthorized /\
  (forall amount term, create_cd s kid_id amount term db = Err Unauthorized) /\
  (forall ticker amount, buy_stock s kid_id ticker amount db = Err Unauthorized) /\
  (forall ticker amount, sell_stock s kid_id ticker amount db = Err Unauthorized) /\
  (forall amount note, spend_from_mmf s kid_id amount note db = Err Unauthorized) /\
  (forall ticker amount note,
      spend_from_stock s kid_id ticker amount note db = Err Unauthorized) /\
  getCashBalance db s kid_id = 0 /\
  getMmfBalance db s kid_id = 0.
Proof.
  intro Hno.
  repeat split; intros;
    try (unfold deposit_to_cash, withdraw_from_cash, invest_in_mmf,
                redeem_from_mmf, accrue_mmf_interest, create_cd, buy_stock,
                sell_stock, spend_from_mmf, spend_from_stock;
         apply bind_Err, check_access_false, Hno).
  - unfold getCashBalance, select_amounts. rewrite filter_none; [reflexivity|].
    intros t Ht. unfold rls_transactions in Ht. apply filter_In in Ht.
    destruct Ht as [_ Ht]. unfold in_bucket.
    destruct (Nat.eqb (t_kid_id t) kid_id) eqn:E; [|reflexivity].
    apply Nat.eqb_eq in E. rewrite E, <- has_access_household in Ht. congruence.
  - unfold getMmfBalance, select_amounts. rewrite filter_none; [reflexivity|].
    intros t Ht. unfold rls_transactions in Ht. apply filter_In in Ht.
    destruct Ht as [_ Ht]. unfold in_bucket.
    destruct (Nat.eqb (t_kid_id t) kid_id) eqn:E; [|reflexivity].
    apply Nat.eqb_eq in E. rewrite E, <- has_access_household in Ht. congruence.
Qed.

Lemma other_household_refused_witness :
  withdraw_from_cash (Scenario.visit Example.day0) Example.aiden 5 None
                     Scenario.town
  = Err Unauthorized /\
  getCashBalance Scenario.town (Scenario.visit Example.day0) Example.aiden = 0.
Proof.
  destruct (other_household_refused (Scenario.visit Example.day0) Example.aiden
              Scenario.town eq_refl)
    as (_ & Hw & _ & _ & _ & _ & _ & _ & _ & _ & Hc & _).
  split; [apply Hw|exact Hc].
Defined.

(** A lot of another household is out of sight: [mature_cd] and [break_cd]
    answer as they do for a lot that does not exist. *)
Theorem foreign_lot_not_found (s : session) (p_cd_lot_id : uuid) (db : database) :
  (forall lot, In lot (cd_lots db) -> l_id lot = p_cd_lot_id ->
               has_access db (auth_uid s) (l_kid_id lot) = false) ->
  mature_cd s p_cd_lot_id db = Err CdLotNotFound /\
  break_cd s p_cd_lot_id db = Err CdLotNotFound.
Proof.
  intro Hno.
  assert (Hfind : find (fun l => Nat.eqb (l_id l) p_cd_lot_id) (rls_cd_lots db s)
                  = None).
  { destruct (find _ _) as [lot|] eqn:E; [|reflexivity].
    destruct (visible_lot _ _ _ _ E) as [Hvis Hid].
    apply find_some in E. destruct E as [Hin _].
    unfold rls_cd_lots in Hin. apply filter_In in Hin. destruct Hin as [Hin _].
    rewrite <- has_access_household, (Hno lot Hin Hid) in Hvis. discriminate. }
  unfold mature_cd, break_cd.
  rewrite !(bind_step _ _ _ _ _ (eq_refl : select_cd_lot s p_cd_lot_id db = _)).
  rewrite Hfind. split; reflexivity.
Qed.

Lemma foreign_lot_not_found_witness :
  mature_cd (Scenario.visit (Example.day0 + 100)) 1 Example.cd_holder
  = Err CdLotNotFound /\
  break_cd (Scenario.visit (Example.day0 + 100)) 1 Example.cd_holder
  = Err CdLotNotFound.
Proof.
  apply foreign_lot_not_found.
  intros lot Hin _. vm_compute in Hin. destruct Hin as [<-|[]]. reflexivity.
Defined.

(** ** The money-market fund *)

Ltac accept_insert Hh :=
  erewrite bind_step;
  [ | apply insert_transaction_accepts;
      [ first [ apply cap_opp; assumption | apply cap_pos; assumption ]
      | first [ reflexivity | apply note_ok; assumption ]
      | reflexivity | reflexivity | exact Hh ] ].

Lemma set_transactions_twice db l l' :
  set_transactions (set_transactions db l) l' = set_transactions db l'.
Proof. reflexivity. Qed.

Lemma balance_read db s k b :
  household_only db s k = true ->
  COALESCE (SUM (map t_amount (filter (in_bucket k b) (rls_transactions db s)))) 0
  == signed_sum k b (transactions db).
Proof.
  intro Hh. rewrite rls_in_bucket by exact Hh. apply SUM_signed_sum.
Qed.

Ltac sum_new :=
  cbn [transactions set_transactions set_cd_lots set_stock_positions];
  rewrite ?signed_sum_app;
  cbn [signed_sum t_kid_id t_bucket t_amount transaction_bucket_eqb];
  rewrite ?andb_false_r, ?andb_true_r.

Lemma ROUND_opp_valid a : invalid_amount a = false -> ROUND (- a) 2 == - a.
Proof.
  intro H. apply valid_amount_bounds in H. destruct H as (_ & _ & H).
  rewrite ROUND_opp, H. reflexivity.
Qed.

Lemma invest_in_mmf_runs s k a db :
  has_access db (auth_uid s) k = true ->
  invalid_amount a = false ->
  exists v_cash,
    v_cash == signed_sum k cash (transactions db) /\
    (Qlt_bool v_cash a = true ->
     invest_in_mmf s k a db = Err (InsufficientCash v_cash a)) /\
    (Qlt_bool v_cash a = false ->
     exists r,
       invest_in_mmf s k a db
       = Ok (r, set_transactions db
                  (transactions db ++ transfer_entries s k invest cash mmf a))).
Proof.
  intros Hauth Hvalid.
  assert (Hh : household_only db s k = true)
    by (rewrite <- has_access_household; exact Hauth).
  exists (COALESCE (SUM (map t_amount
            (filter (in_bucket k cash) (rls_transactions db s)))) 0).
  split; [apply balance_read, Hh|].
  unfold invest_in_mmf.
  erewrite bind_step by (apply check_access_true; exact Hauth).
  rewrite Hvalid.
  do 2 (erewrite bind_step by reflexivity).
  rewrite !(bind_step _ _ _ _ _ (eq_refl : select_balance s k cash db = _)).
  split; intro E; rewrite E.
  - reflexivity.
  - erewrite bind_step by reflexivity.
    accept_insert Hh. accept_insert Hh.
    do 2 (erewrite bind_step by reflexivity).
    eexists. unfold ret, transfer_entries.
    rewrite set_transactions_twice. cbn [transactions set_transactions].
    rewrite <- app_assoc. reflexivity.
Qed.

Lemma redeem_from_mmf_runs s k a db :
  has_access db (auth_uid s) k = true ->
  invalid_amount a = false ->
  exists v_mmf,
    v_mmf == signed_sum k mmf (transactions db) /\
    (Qlt_bool v_mmf a = true ->
     redeem_from_mmf s k a db = Err (InsufficientMmf v_mmf a)) /\
    (Qlt_bool v_mmf a = false ->
     exists r,
       redeem_from_mmf s k a db
       = Ok (r, set_transactions db
                  (transactions db ++ transfer_entries s k redeem mmf cash a))).
Proof.
  intros Hauth Hvalid.
  assert (Hh : household_only db s k = true)
    by (rewrite <- has_access_household; exact Hauth).
  exists (COALESCE (SUM (map t_amount
            (filter (in_bucket k mmf) (rls_transactions db s)))) 0).
  split; [apply balance_read, Hh|].
  unfold redeem_from_mmf.
  erewrite bind_step by (apply check_access_true; exact Hauth).
  rewrite Hvalid.
  do 2 (erewrite bind_step by reflexivity).
  rewrite !(bind_step _ _ _ _ _ (eq_refl : select_balance s k mmf db = _)).
  split; intro E; rewrite E.
  - reflexivity.
  - erewrite bind_step by reflexivity.
    accept_insert Hh. accept_insert Hh.
    do 2 (erewrite bind_step by reflexivity).
    eexists. unfold ret, transfer_entries.
    rewrite set_transactions_twice. cbn [transactions set_transactions].
    rewrite <- app_assoc. reflexivity.
Qed.

Lemma signed_sum_transfer s k ty from to a k' b l :
  invalid_amount a = false ->
  signed_sum k' b (l ++ transfer_entries s k ty from to a)
  == signed_sum k' b l
     + (if Nat.eqb k' k then
          (if transaction_bucket_eqb from b then - a else 0)
          + (if transaction_bucket_eqb to b then a else 0)
        else 0).
Proof.
  intro Hv. apply valid_amount_bounds in Hv. destruct Hv as (_ & _ & Hr).
  assert (Ho : ROUND (- a) 2 == - a) by (rewrite ROUND_opp, Hr; reflexivity).
  rewrite signed_sum_app. unfold transfer_entries.
  generalize dependent (ROUND (- a) 2). generalize dependent (ROUND a 2).
  intros y Hy x Hx. simpl. rewrite (Nat.eqb_sym k' k).
  destruct (Nat.eqb k k'); simpl;
    destruct (transaction_bucket_eqb from b), (transaction_bucket_eqb to b);
    simpl; lra.
Qed.

(** [invest_in_mmf], for a kid of the caller's household and a valid
    amount: with less cash than the amount it raises the insufficient-cash
    exception, naming the balance; otherwise it appends two entries, one
    of minus the amount in cash and one of the amount in the fund, and
    reports both new balances.  No other balance of any kid moves. *)
Theorem invest_in_mmf_moves_cash
        (s : session) (kid_id : uuid) (p_amount : Q) (db : database) :
  has_access db (auth_uid s) kid_id = true ->
  invalid_amount p_amount = false ->
  let balance b := signed_sum kid_id b (transactions db) in
  (balance cash < p_amount ->
   exists have, have == balance cash /\
     invest_in_mmf s kid_id p_amount db = Err (InsufficientCash have p_amount)) /\
  (p_amount <= balance cash ->
   exists cash_balance mmf_balance db',
     invest_in_mmf s kid_id p_amount db = Ok ((cash_balance, mmf_balance), db') /\
     db' = set_transactions db
             (transactions db ++
              [mk_transaction kid_id invest cash (ROUND (- p_amount) 2) None None
                              (auth_uid s) (now s);
               mk_transaction kid_id invest mmf (ROUND p_amount 2) None None
                              (auth_uid s) (now s)]) /\
     ROUND (- p_amount) 2 == - p_amount /\ ROUND p_amount 2 == p_amount /\
     cash_balance == balance cash - p_amount /\
     mmf_balance == balance mmf + p_amount /\
     forall k b, (k <> kid_id \/ b = cd \/ b = stock) ->
                 signed_sum k b (transactions db')
                 == signed_sum k b (transactions db)).
Proof.
  intros Hauth Hvalid balance.
  destruct (invest_in_mmf_runs s kid_id p_amount db Hauth Hvalid)
    as (v & Hv & Hlow & Hrun).
  split.
  - intro Hlt. exists v. split; [exact Hv|]. apply Hlow.
    apply Qlt_bool_iff. rewrite Hv. exact Hlt.
  - intro Hge. destruct Hrun as [[c m] Hrun].
    { apply Qlt_bool_false. rewrite Hv. exact Hge. }
    exists c, m. eexists. split; [exact Hrun|]. split; [reflexivity|].
    destruct (valid_amount_bounds _ Hvalid) as (_ & _ & Hr).
    split; [rewrite ROUND_opp, Hr; reflexivity|]. split; [exact Hr|].
    destruct (invest_in_mmf_reports _ _ _ _ _ _ Hrun) as [Hc Hm].
    cbn [fst snd transactions set_transactions] in Hc, Hm.
    rewrite (signed_sum_transfer s kid_id invest cash mmf p_amount _ _ _ Hvalid)
      in Hc.
    rewrite (signed_sum_transfer s kid_id invest cash mmf p_amount _ _ _ Hvalid)
      in Hm.
    rewrite Nat.eqb_refl in Hc, Hm. cbn in Hc, Hm.
    split; [rewrite Hc; unfold balance; ring|].
    split; [rewrite Hm; unfold balance; ring|].
    intros k b Hother. cbn [transactions set_transactions].
    rewrite (signed_sum_transfer s kid_id invest cash mmf p_amount _ _ _ Hvalid).
    destruct Hother as [Hk|[->| ->]].
    + apply Nat.eqb_neq in Hk. rewrite Hk. ring.
    + destruct (Nat.eqb k kid_id); cbn; ring.
    + destruct (Nat.eqb k kid_id); cbn; ring.
Qed.

Lemma invest_in_mmf_moves_cash_witness :
  (exists cash_balance mmf_balance db',
      invest_in_mmf (Example.on_day Example.day0) Example.aiden 250
                    Example.investor
      = Ok ((cash_balance, mmf_balance), db') /\
      cash_balance == 750 /\ mmf_balance == 250) /\
  exists have,
    invest_in_mmf (Example.on_day Example.day0) Example.aiden 2500
                  Example.investor
    = Err (InsufficientCash have 2500).
Proof.
  destruct (invest_in_mmf_moves_cash (Example.on_day Example.day0) Example.aiden
              250 Example.investor eq_refl eq_refl) as [_ Hok].
  destruct (invest_in_mmf_moves_cash (Example.on_day Example.day0) Example.aiden
              2500 Example.investor eq_refl eq_refl) as [Hlow _].
  destruct Hok as (c & m & db' & Hrun & _ & _ & _ & Hc & Hm & _);
    [vm_compute; discriminate|].
  destruct Hlow as (have & _ & Herr); [vm_compute; reflexivity|].
  split; [|exists have; exact Herr].
  exists c, m, db'. split; [exact Hrun|].
  split; [rewrite Hc|rewrite Hm]; vm_compute; reflexivity.
Defined.

(** [redeem_from_mmf] is the mirror image: it checks the fund balance,
    raises the insufficient-fund exception or moves the amount from the
    fund to cash with two entries. *)
Theorem redeem_from_mmf_moves_cash
        (s : session) (kid_id : uuid) (p_amount : Q) (db : database) :
  has_access db (auth_uid s) kid_id = true ->
  invalid_amount p_amount = false ->
  let balance b := signed_sum kid_id b (transactions db) in
  (balance mmf < p_amount ->
   exists have, have == balance mmf /\
     redeem_from_mmf s kid_id p_amount db = Err (InsufficientMmf have p_amount)) /\
  (p_amount <= balance mmf ->
   exists cash_balance mmf_balance db',
     redeem_from_mmf s kid_id p_amount db = Ok ((cash_balance, mmf_balance), db') /\
     db' = set_transactions db
             (transactions db ++
              [mk_transaction kid_id redeem mmf (ROUND (- p_amount) 2) None None
                              (auth_uid s) (now s);
               mk_transaction kid_id redeem cash (ROUND p_amount 2) None None
                              (auth_uid s) (now s)]) /\
     ROUND (- p_amount) 2 == - p_amount /\ ROUND p_amount 2 == p_amount /\
     cash_balance == balance cash + p_amount /\
     mmf_balance == balance mmf - p_amount /\
     forall k b, (k <> kid_id \/ b = cd \/ b = stock) ->
                 signed_sum k b (transactions db')
                 == signed_sum k b (transactions db)).
Proof.
  intros Hauth Hvalid balance.
  destruct (redeem_from_mmf_runs s kid_id p_amount db Hauth Hvalid)
    as (v & Hv & Hlow & Hrun).
  split.
  - intro Hlt. exists v. split; [exact Hv|]. apply Hlow.
    apply Qlt_bool_iff. rewrite Hv. exact Hlt.
  - intro Hge. destruct Hrun as [[c m] Hrun].
    { apply Qlt_bool_false. rewrite Hv. exact Hge. }
    exists c, m. eexists. split; [exact Hrun|]. split; [reflexivity|].
    destruct (valid_amount_bounds _ Hvalid) as (_ & _ & Hr).
    split; [rewrite ROUND_opp, Hr; reflexivity|]. split; [exact Hr|].
    destruct (redeem_from_mmf_reports _ _ _ _ _ _ Hrun) as [Hc Hm].
    cbn [fst snd transactions set_transactions] in Hc, Hm.
    rewrite (signed_sum_transfer s kid_id redeem mmf cash p_amount _ _ _ Hvalid)
      in Hc.
    rewrite (signed_sum_transfer s kid_id redeem mmf cash p_amount _ _ _ Hvalid)
      in Hm.
    rewrite Nat.eqb_refl in Hc, Hm. cbn in Hc, Hm.
    split; [rewrite Hc; unfold balance; ring|].
    split; [rewrite Hm; unfold balance; ring|].
    intros k b Hother. cbn [transactions set_transactions].
    rewrite (signed_sum_transfer s kid_id redeem mmf cash p_amount _ _ _ Hvalid).
    destruct Hother as [Hk|[->| ->]].
    + apply Nat.eqb_neq in Hk. rewrite Hk. ring.
    + destruct (Nat.eqb k kid_id); cbn; ring.
    + destruct (Nat.eqb k kid_id); cbn; ring.
Qed.

Lemma redeem_from_mmf_moves_cash_witness :
  (exists cash_balance mmf_balance db',
      redeem_from_mmf (Example.on_day Example.day0) Example.aiden 40
                      Example.saver
      = Ok ((cash_balance, mmf_balance), db') /\
      cash_balance == 940 /\ mmf_balance == 60) /\
  exists have,
    redeem_from_mmf (Example.on_day Example.day0) Example.aiden 100.01
                    Example.saver
    = Err (InsufficientMmf have 100.01).
Proof.
  destruct (redeem_from_mmf_moves_cash (Example.on_day Example.day0) Example.aiden
              40 Example.saver eq_refl eq_refl) as [_ Hok].
  destruct (redeem_from_mmf_moves_cash (Example.on_day Example.day0) Example.aiden
              100.01 Example.saver eq_refl eq_refl) as [Hlow _].
  destruct Hok as (c & m & db' & Hrun & _ & _ & _ & Hc & Hm & _);
    [vm_compute; discriminate|].
  destruct Hlow as (have & _ & Herr); [vm_compute; reflexivity|].
  split; [|exists have; exact Herr].
  exists c, m, db'. split; [exact Hrun|].
  split; [rewrite Hc|rewrite Hm]; vm_compute; reflexivity.
Defined.

(** Investing an amount and redeeming it again, by the same or another
    administrator of the household, succeeds whenever the cash covers the
    amount and the fund is not overdrawn; it leaves every balance of every
    kid where it was, and four more entries in the ledger. *)
Theorem invest_then_redeem
        (s s' : session) (kid_id : uuid) (p_amount : Q) (db : database) :
  has_access db (auth_uid s) kid_id = true ->
  has_access db (auth_uid s') kid_id = true ->
  invalid_amount p_amount = false ->
  p_amount <= signed_sum kid_id cash (transactions db) ->
  0 <= signed_sum kid_id mmf (transactions db) ->
  exists r1 db1 r2 db2,
    invest_in_mmf s kid_id p_amount db = Ok (r1, db1) /\
    redeem_from_mmf s' kid_id p_amount db1 = Ok (r2, db2) /\
    fst r2 == signed_sum kid_id cash (transactions db) /\
    snd r2 == signed_sum kid_id mmf (transactions db) /\
    (forall k b, signed_sum k b (transactions db2)
                 == signed_sum k b (transactions db)) /\
    List.length (transactions db2) = (List.length (transactions db) + 4)%nat.
Proof.
  intros Hauth Hauth' Hvalid Hcash Hmmf.
  destruct (invest_in_mmf_runs s kid_id p_amount db Hauth Hvalid)
    as (v & Hv & _ & Hrun).
  destruct Hrun as [r1 Hrun1].
  { apply Qlt_bool_false. rewrite Hv. exact Hcash. }
  set (db1 := set_transactions db
                (transactions db ++ transfer_entries s kid_id invest cash mmf p_amount))
    in *.
  assert (Hm1 : signed_sum kid_id mmf (transactions db1)
                == signed_sum kid_id mmf (transactions db) + p_amount).
  { unfold db1. cbn [transactions set_transactions].
    rewrite signed_sum_transfer by exact Hvalid.
    rewrite Nat.eqb_refl. cbn. ring. }
  destruct (redeem_from_mmf_runs s' kid_id p_amount db1 Hauth' Hvalid)
    as (v' & Hv' & _ & Hrun).
  destruct Hrun as [r2 Hrun2].
  { apply Qlt_bool_false. rewrite Hv', Hm1. lra. }
  exists r1, db1, r2. eexists. split; [exact Hrun1|]. split; [exact Hrun2|].
  assert (Hall : forall k b,
             signed_sum k b
               (transactions
                  (set_transactions db1
                     (transactions db1
                      ++ transfer_entries s' kid_id redeem mmf cash p_amount)))
             == signed_sum k b (transactions db)).
  { intros k b. unfold db1. cbn [transactions set_transactions].
    rewrite !signed_sum_transfer by exact Hvalid.
    destruct (Nat.eqb k kid_id); [|ring].
    destruct b; cbn; ring. }
  destruct (redeem_from_mmf_reports _ _ _ _ _ _ Hrun2) as [Hc Hm].
  split; [rewrite Hc; apply Hall|]. split; [rewrite Hm; apply Hall|].
  split; [exact Hall|].
  unfold db1. cbn [transactions set_transactions].
  rewrite !length_app. simpl. lia.
Qed.

Lemma invest_then_redeem_witness :
  exists r1 db1 r2 db2,
    invest_in_mmf (Example.on_day Example.day0) Example.aiden 300 Example.saver
    = Ok (r1, db1) /\
    redeem_from_mmf (Example.on_day (Example.day0 + 1)) Example.aiden 300 db1
    = Ok (r2, db2) /\
    fst r2 == 900 /\ snd r2 == 100.
Proof.
  destruct (invest_then_redeem (Example.on_day Example.day0)
              (Example.on_day (Example.day0 + 1)) Example.aiden 300 Example.saver
              eq_refl eq_refl eq_refl)
    as (r1 & db1 & r2 & db2 & H1 & H2 & Hc & Hm & _).
  - vm_compute. discriminate.
  - vm_compute. discriminate.
  - exists r1, db1, r2, db2. split; [exact H1|]. split; [exact H2|].
    split; [rewrite Hc|rewrite Hm]; vm_compute; reflexivity.
Defined.

Lemma exec_mmf_nonneg s c db rep db' k :
  exec s c db = Ok (rep, db') ->
  0 <= signed_sum k mmf (transactions db) ->
  0 <= signed_sum k mmf (transactions db').
Proof.
  intros H Hk. destruct c; unfold exec in H;
    apply bind_Ok in H; destruct H as (r & db1 & Hr & H);
    apply ret_Ok in H; destruct H as [_ ->].
  - unfold deposit_to_cash in Hr. rpc_go. sum_new. lra.
  - unfold withdraw_from_cash in Hr. rpc_go. sum_new. lra.
  - unfold invest_in_mmf in Hr. rpc_go. sum_new.
    destruct (valid_amount_bounds _ S0) as (Hpos & _ & Hr).
    destruct (Nat.eqb kid_id k); lra.
  - unfold redeem_from_mmf in Hr. rpc_go. sum_new.
    destruct (Nat.eqb kid_id k) eqn:Ek; [|lra].
    apply Nat.eqb_eq in Ek. subst k.
    apply Qlt_bool_false in S2.
    rewrite has_access_household in S.
    rewrite (ROUND_opp_valid _ S0). rewrite (S1 S) in S2. lra.
  - unfold accrue_mmf_interest in Hr. rpc_go; try assumption.
    all: sum_new; destruct (Nat.eqb kid_id k); try lra.
    all: rewrite ROUND_idem; apply Qle_bool_false in E3; lra.
  - unfold create_cd in Hr. rpc_go. sum_new. lra.
  - unfold mature_cd in Hr. rpc_go. sum_new. lra.
  - unfold break_cd in Hr. rpc_go. sum_new. lra.
  - unfold buy_stock in Hr. rpc_go; sum_new; lra.
  - unfold sell_stock in Hr. rpc_go; sum_new; lra.
  - unfold spend_from_mmf in Hr. rpc_go. sum_new.
    destruct (Nat.eqb kid_id k) eqn:Ek; [|lra].
    apply Nat.eqb_eq in Ek. subst k.
    apply Qlt_bool_false in S2.
    rewrite has_access_household in S.
    rewrite (ROUND_opp_valid _ S0). rewrite (S1 S) in S2. lra.
  - unfold spend_from_stock in Hr. rpc_go; sum_new; lra.
  - apply update_transactions_Ok in Hr. destruct Hr as [-> _]. exact Hk.
  - apply delete_transactions_Ok in Hr. destruct Hr as [-> _]. exact Hk.
Qed.

(** Over any sequence of requests, by any callers, the fund balance of no
    kid becomes negative. *)
Theorem mmf_never_negative (reqs : list (session * call)) (db : database) :
  (forall k, 0 <= signed_sum k mmf (transactions db)) ->
  forall k, 0 <= signed_sum k mmf (transactions (run reqs db)).
Proof.
  revert db. induction reqs as [|[s c] reqs IH]; intros db H k; simpl.
  - apply H.
  - apply IH. intro k'. unfold step. simpl fst. simpl snd.
    destruct (exec s c db) as [[rep db']|e] eqn:E; [|apply H].
    apply (exec_mmf_nonneg _ _ _ _ _ _ E), H.
Qed.

Lemma mmf_never_negative_witness :
  (forall k, 0 <= signed_sum k mmf (transactions Example.home)) /\
  0 <= signed_sum Example.aiden mmf
         (transactions
            (run [(Example.on_day Example.day0,
                   call_deposit_to_cash Example.aiden 50 None None None);
                  (Example.on_day Example.day0,
                   call_invest_in_mmf Example.aiden 20);
                  (Example.on_day (Example.day0 + 1),
                   call_redeem_from_mmf Example.aiden 30);
                  (Example.on_day (Example.day0 + 1),
                   call_spend_from_mmf Example.aiden 5 None)]
                 Example.home)).
Proof.
  assert (H : forall k, 0 <= signed_sum k mmf (transactions Example.home))
    by (intro k; apply Qle_refl).
  split; [exact H|]. apply (mmf_never_negative _ _ H).
Defined.
(** ** What gets written *)

Ltac recorded_tac :=
  cbn [transactions set_transactions set_cd_lots set_stock_positions];
  rewrite <- ?app_assoc; cbn [app];
  first [ exists []; split; [symmetry; apply app_nil_r|];
          split; [simpl; lia|constructor]
        | eexists; split; [reflexivity|]; split; [simpl; lia|];
          repeat (constructor; [unfold recorded_by; cbn [t_created_by t_created_at t_kid_id t_amount t_type t_bucket]; 
                                repeat split; try reflexivity; try assumption; try apply ROUND_idem|]);
          try constructor ].

(** Whatever a successful request appends to the ledger, at most three
    entries, carries the caller's id and the time of the request, belongs to
    a kid of the caller's household, has an amount of at most 100,000 in
    absolute value with no more than two decimals, and a bucket that goes
    with its type. *)
Theorem entries_are_attributed
        (s : session) (c : call) (db db' : database) (rep : reported) :
  exec s c db = Ok (rep, db') ->
  exists new,
    transactions db' = transactions db ++ new /\
    (List.length new <= 3)%nat /\
    Forall (recorded_by db s) new.
Proof.
  intro H. destruct c; unfold exec in H;
    apply bind_Ok in H; destruct H as (r & db1 & Hr & H);
    apply ret_Ok in H; destruct H as [_ ->].
  - unfold deposit_to_cash in Hr. rpc_go. recorded_tac.
  - unfold withdraw_from_cash in Hr. rpc_go. recorded_tac.
  - unfold invest_in_mmf in Hr. rpc_go. recorded_tac.
  - unfold redeem_from_mmf in Hr. rpc_go. recorded_tac.
  - unfold accrue_mmf_interest in Hr. rpc_go; recorded_tac.
  - unfold create_cd in Hr. rpc_go; recorded_tac.
  - unfold mature_cd in Hr. rpc_go; recorded_tac.
  - unfold break_cd in Hr. rpc_go; recorded_tac.
  - unfold buy_stock in Hr. rpc_go; recorded_tac.
  - unfold sell_stock in Hr. rpc_go; recorded_tac.
  - unfold spend_from_mmf in Hr. rpc_go. recorded_tac.
  - unfold spend_from_stock in Hr. rpc_go; recorded_tac.
  - apply update_transactions_Ok in Hr. destruct Hr as [-> _].
    exists []. split; [symmetry; apply app_nil_r|]. split; [simpl; lia|constructor].
  - apply delete_transactions_Ok in Hr. destruct Hr as [-> _].
    exists []. split; [symmetry; apply app_nil_r|]. split; [simpl; lia|constructor].
Qed.

Lemma entries_are_attributed_witness :
  exists rep db' new,
    exec (Example.on_day (Example.day0 + 45)) (call_break_cd 1) Example.cd_holder
    = Ok (rep, db') /\
    transactions db' = transactions Example.cd_holder ++ new /\
    Forall (fun t => t_created_by t = Example.parent) new.
Proof.
  destruct (exec (Example.on_day (Example.day0 + 45)) (call_break_cd 1)
                 Example.cd_holder) as [[rep db']|e] eqn:E;
    [|vm_compute in E; discriminate].
  destruct (entries_are_attributed _ _ _ _ _ E) as (new & Hnew & _ & Hall).
  exists rep, db', new. split; [reflexivity|]. split; [exact Hnew|].
  revert Hall. apply Forall_impl. intros t Ht. destruct Ht as [Hby _]. exact Hby.
Defined.

(** ** Term deposits, further *)

Lemma fresh_uuid_new db l : In l (cd_lots db) -> l_id l <> fresh_uuid db.
Proof.
  intros Hin E. unfold fresh_uuid in E.
  assert (H : (l_id l <= list_max (map l_id (cd_lots db)))%nat).
  { assert (F := proj1 (list_max_le (map l_id (cd_lots db)) _) (Nat.le_refl _)).
    rewrite Forall_forall in F. apply F. apply in_map. exact Hin. }
  lia.
Qed.

Lemma select_setting_admin s key db :
  admin_only db s = true ->
  select_setting s key db = Ok (setting_value db key, db).
Proof.
  intro H. unfold select_setting, query, rls_settings, setting_value.
  rewrite H. reflexivity.
Qed.

Lemma insert_cd_lot_accepts s k pr ap term st mat status db :
  0 < ROUND pr 2 -> ROUND pr 2 <= 100000 ->
  0 <= ROUND ap 4 -> ROUND ap 4 <= 0.20 ->
  term_valid term = true ->
  household_only db s k = true ->
  insert_cd_lot s k pr ap term st mat status db
  = Ok (fresh_uuid db,
        set_cd_lots db
          (cd_lots db ++
           [mk_cd_lot (fresh_uuid db) k (ROUND pr 2) (ROUND ap 4) term st mat status])).
Proof.
  intros Hp1 Hp2 Ha1 Ha2 Hterm Hh. unfold insert_cd_lot.
  rewrite numeric_typmod_12_2 by (unfold ABS; rewrite Qabs_pos; lra).
  unfold numeric_typmod.
  replace (Qlt_bool (ABS (ROUND ap 4)) (inject_Z (Z.pos (pow10 (6 - 4))))) with true.
  2:{ symmetry. apply Qlt_bool_iff. unfold ABS. rewrite Qabs_pos by exact Ha1.
      apply Qle_lt_trans with (1 := Ha2). reflexivity. }
  apply Qlt_bool_iff in Hp1. apply Qle_bool_iff in Hp2, Ha1, Ha2.
  rewrite Hp1, Hp2, Ha1, Ha2, Hterm. simpl.
  rewrite (household_kid_exists _ _ _ Hh), Hh. reflexivity.
Qed.

(** [create_cd] as one expression, once the caller, the term and the amount
    have passed. *)
Lemma create_cd_unfold s kid_id p_amount p_term_months db :
  has_access db (auth_uid s) kid_id = true ->
  term_valid p_term_months = true ->
  invalid_amount p_amount = false ->
  create_cd s kid_id p_amount p_term_months db
  = (let v_cash := COALESCE (SUM (map t_amount
                     (filter (in_bucket kid_id cash) (rls_transactions db s)))) 0 in
     if Qlt_bool v_cash p_amount
     then Err (InsufficientCash v_cash p_amount)
     else
       match setting_value db (cd_rate_key p_term_months) with
       | None => Err (SettingNotFound (cd_rate_key p_term_months))
       | Some v_apy =>
         bind (insert_transaction s kid_id invest cash (- p_amount)
                                  None None (auth_uid s))
              (fun _ =>
                 bind (insert_cd_lot s kid_id p_amount v_apy
                         p_term_months (CURRENT_DATE s)
                         (add_months (CURRENT_DATE s) p_term_months)
                         active)
                      (fun v_lot_id =>
                         ret (v_lot_id,
                              add_months (CURRENT_DATE s) p_term_months, v_apy)))
              db
       end).
Proof.
  intros Hauth Hterm Hvalid.
  assert (Hh : household_only db s kid_id = true)
    by (rewrite <- has_access_household; exact Hauth).
  unfold create_cd.
  erewrite bind_step by (apply check_access_true; exact Hauth).
  rewrite Hterm, Hvalid. cbn [negb].
  do 3 (erewrite bind_step by reflexivity).
  rewrite (bind_step _ _ _ _ _ (eq_refl : select_balance s kid_id cash db = _)).
  cbv zeta. destruct (Qlt_bool _ p_amount); [reflexivity|].
  erewrite bind_step by reflexivity.
  erewrite bind_step
    by (apply select_setting_admin, (household_admin _ _ _ Hh)).
  fold (cd_rate_key p_term_months).
  destruct (setting_value db (cd_rate_key p_term_months)); reflexivity.
Qed.

(** With a rate the lot table accepts, the rest of [create_cd] goes
    through. *)
Lemma create_cd_inserts s kid_id p_amount p_term_months apy db :
  household_only db s kid_id = true ->
  term_valid p_term_months = true ->
  invalid_amount p_amount = false ->
  0 <= ROUND apy 4 -> ROUND apy 4 <= 0.20 ->
  bind (insert_transaction s kid_id invest cash (- p_amount)
                           None None (auth_uid s))
       (fun _ =>
          bind (insert_cd_lot s kid_id p_amount apy
                  p_term_months (CURRENT_DATE s)
                  (add_months (CURRENT_DATE s) p_term_months)
                  active)
               (fun v_lot_id =>
                  ret (v_lot_id,
                       add_months (CURRENT_DATE s) p_term_months, apy)))
       db
  = Ok ((fresh_uuid db, add_months (CURRENT_DATE s) p_term_months, apy),
        set_cd_lots
          (set_transactions db
             (transactions db ++
              [mk_transaction kid_id invest cash (ROUND (- p_amount) 2) None None
                              (auth_uid s) (now s)]))
          (cd_lots db ++
           [mk_cd_lot (fresh_uuid db) kid_id (ROUND p_amount 2) (ROUND apy 4)
                      p_term_months (CURRENT_DATE s)
                      (add_months (CURRENT_DATE s) p_term_months) active])).
Proof.
  intros Hh Hterm Hvalid Hlo Hhi.
  destruct (valid_amount_bounds _ Hvalid) as (Hpos & Hcap & Hr).
  erewrite bind_step
    by (apply insert_transaction_accepts;
        [ apply cap_opp, Hvalid | reflexivity | reflexivity | reflexivity
        | exact Hh ]).
  erewrite bind_step
    by (apply insert_cd_lot_accepts;
        [ rewrite Hr; exact Hpos | rewrite Hr; exact Hcap
        | exact Hlo | exact Hhi | exact Hterm | exact Hh ]).
  reflexivity.
Qed.

(** [create_cd] for a kid of the caller's household.  A term other than 3,
    6 or 12 months is refused before the amount is looked at.  With a valid
    term and amount: too little cash raises the insufficient-cash exception,
    a missing rate setting raises the setting-not-found exception, and with
    a rate the lot table accepts (0 to 20% once rounded to four decimals)
    the call succeeds: cash goes down by the amount through one entry, and
    one active lot is added under an id no other lot has, with the amount
    as principal, the configured rate rounded to four decimals, today as
    start date and today plus the term as maturity date. *)
Theorem create_cd_locks_cash
        (s : session) (kid_id : uuid) (p_amount : Q) (p_term_months : Z)
        (db : database) :
  has_access db (auth_uid s) kid_id = true ->
  (term_valid p_term_months = false ->
   create_cd s kid_id p_amount p_term_months db = Err InvalidTerm) /\
  (term_valid p_term_months = true ->
   invalid_amount p_amount = false ->
   (signed_sum kid_id cash (transactions db) < p_amount ->
    exists have,
      have == signed_sum kid_id cash (transactions db) /\
      create_cd s kid_id p_amount p_term_months db
      = Err (InsufficientCash have p_amount)) /\
   (p_amount <= signed_sum kid_id cash (transactions db) ->
    match setting_value db (cd_rate_key p_term_months) with
    | None =>
      create_cd s kid_id p_amount p_term_months db
      = Err (SettingNotFound (cd_rate_key p_term_months))
    | Some apy =>
      0 <= ROUND apy 4 -> ROUND apy 4 <= 0.20 ->
      let today := CURRENT_DATE s in
      let maturity := add_months today p_term_months in
      let lot := mk_cd_lot (fresh_uuid db) kid_id (ROUND p_amount 2) (ROUND apy 4)
                           p_term_months today maturity active in
      let db' :=
        set_cd_lots
          (set_transactions db
             (transactions db ++
              [mk_transaction kid_id invest cash (ROUND (- p_amount) 2) None None
                              (auth_uid s) (now s)]))
          (cd_lots db ++ [lot]) in
      create_cd s kid_id p_amount p_term_months db
      = Ok ((fresh_uuid db, maturity, apy), db') /\
      (forall l, In l (cd_lots db) -> l_id l <> l_id lot) /\
      l_principal lot == p_amount /\
      signed_sum kid_id cash (transactions db')
      == signed_sum kid_id cash (transactions db) - p_amount
    end)).
Proof.
  intro Hauth.
  assert (Hh : household_only db s kid_id = true)
    by (rewrite <- has_access_household; exact Hauth).
  split.
  - intro Hterm. unfold create_cd.
    erewrite bind_step by (apply check_access_true; exact Hauth).
    rewrite Hterm. reflexivity.
  - intros Hterm Hvalid.
    assert (Hrun := create_cd_unfold s kid_id p_amount p_term_months db
                      Hauth Hterm Hvalid).
    cbv zeta in Hrun.
    assert (Hbal := balance_read db s kid_id cash Hh).
    split.
    + intro Hlt. eexists. split; [exact Hbal|].
      rewrite Hrun.
      replace (Qlt_bool _ p_amount) with true; [reflexivity|].
      symmetry. apply Qlt_bool_iff. rewrite Hbal. exact Hlt.
    + intro Hge.
      replace (Qlt_bool _ p_amount) with false in Hrun
        by (symmetry; apply Qlt_bool_false; rewrite Hbal; exact Hge).
      destruct (setting_value db (cd_rate_key p_term_months)) as [apy|];
        [|exact Hrun].
      intros Hlo Hhi. cbv zeta.
      destruct (valid_amount_bounds _ Hvalid) as (Hpos & Hcap & Hr).
      split; [|split; [|split]].
      * rewrite Hrun. apply create_cd_inserts; assumption.
      * intros l Hl. apply fresh_uuid_new, Hl.
      * exact Hr.
      * cbn [transactions set_transactions set_cd_lots].
        rewrite signed_sum_snoc
          by (unfold in_bucket; simpl; rewrite Nat.eqb_refl; reflexivity).
        cbn [t_amount]. rewrite (ROUND_opp_valid _ Hvalid). ring.
Qed.

Lemma create_cd_locks_cash_witness :
  create_cd (Example.on_day Example.day0) Example.aiden 100 4 Example.investor
  = Err InvalidTerm /\
  exists db',
    create_cd (Example.on_day Example.day0) Example.aiden 100 3 Example.investor
    = Ok ((1%nat, (Example.day0 + 92)%Z, 0.048), db') /\
    signed_sum Example.aiden cash (transactions db') == 900.
Proof.
  destruct (create_cd_locks_cash (Example.on_day Example.day0) Example.aiden 100 4
              Example.investor eq_refl) as [Hterm _].
  destruct (create_cd_locks_cash (Example.on_day Example.day0) Example.aiden 100 3
              Example.investor eq_refl) as [_ Hrun].
  split; [apply Hterm; reflexivity|].
  destruct (Hrun eq_refl eq_refl) as [_ Hok].
  assert (Hcash : 100 <= signed_sum Example.aiden cash
                           (transactions Example.investor))
    by (vm_compute; discriminate).
  specialize (Hok Hcash).
  change (setting_value Example.investor (cd_rate_key 3)) with (Some 0.048) in Hok.
  destruct Hok as (Hcreate & _ & _ & Hbal).
  - vm_compute. discriminate.
  - vm_compute. discriminate.
  - eexists. split; [exact Hcreate|]. rewrite Hbal. vm_compute. reflexivity.
Defined.

(** Breaking a lot within its first thirty days forfeits all the interest:
    the penalty equals the interest earned and exactly the principal goes
    back to cash.  After thirty days the penalty is the interest of thirty
    days. *)
Theorem break_cd_within_30_days
        (s : session) (p_cd_lot_id : uuid) (db db' : database)
        (principal_returned interest_earned penalty net_returned : Q) :
  break_cd s p_cd_lot_id db
  = Ok ((principal_returned, interest_earned, penalty, net_returned), db') ->
  exists lot,
    find (fun l => Nat.eqb (l_id l) p_cd_lot_id) (rls_cd_lots db s) = Some lot /\
    principal_returned = l_principal lot /\
    ((CURRENT_DATE s - l_start_date lot <= 30)%Z ->
     penalty = interest_earned /\
     net_returned == l_principal lot /\
     exists t, transactions db' = transactions db ++ [t] /\
               t_kid_id t = l_kid_id lot /\ t_bucket t = cash /\
               t_amount t = ROUND (l_principal lot) 2) /\
    ((30 < CURRENT_DATE s - l_start_date lot)%Z ->
     penalty = ROUND (l_principal lot * l_apy lot * inject_Z 30 / 365) 2 /\
     net_returned == l_principal lot + GREATEST (interest_earned - penalty) 0).
Proof.
  intro H. unfold break_cd in H. rpc_go.
  match goal with H : (_, _, _, _) = (_, _, _, _) |- _ => inversion H; clear H end.
  exists c. split; [reflexivity|]. split; [reflexivity|]. split.
  - intro Hd. unfold LEAST. rewrite Z.min_l by exact Hd.
    split; [reflexivity|].
    set (i := ROUND (l_principal c * l_apy c
                     * inject_Z (CURRENT_DATE s - l_start_date c) / 365) 2).
    assert (G : GREATEST (i - i) 0 = 0).
    { unfold GREATEST.
      replace (Qle_bool (i - i) 0) with true; [reflexivity|].
      symmetry. apply Qle_bool_iff. lra. }
    assert (N : l_principal c + GREATEST (i - i) 0 == l_principal c)
      by (rewrite G; ring).
    split; [exact N|].
    eexists. split; [reflexivity|]. cbn [t_kid_id t_bucket t_amount].
    repeat split. apply ROUND_comp. exact N.
  - intro Hd. unfold LEAST. rewrite Z.min_r by lia.
    split; reflexivity.
Qed.

Lemma break_cd_within_30_days_witness :
  exists i db',
    break_cd (Example.on_day (Example.day0 + 10)) 1 Example.cd_holder
    = Ok ((ROUND 100 2, i, i, ROUND 100 2 + 0), db').
Proof.
  destruct (break_cd (Example.on_day (Example.day0 + 10)) 1 Example.cd_holder)
    as [[[[[p i] pen] net] db']|e] eqn:E; [|vm_compute in E; discriminate].
  destruct (break_cd_within_30_days _ _ _ _ _ _ _ _ E)
    as (lot & Hfind & Hp & Hearly & _).
  assert (Hlot : lot = mk_cd_lot 1 Example.aiden (ROUND 100 2) (ROUND 0.048 4) 3
                                 Example.day0 (Example.day0 + 92) active).
  { vm_compute in Hfind. inversion Hfind. reflexivity. }
  destruct Hearly as (Hpen & _ & _).
  { rewrite Hlot. vm_compute. discriminate. }
  exists i, db'. subst pen. vm_compute in E. inversion E. reflexivity.
Defined.

Lemma settled_same id db db' :
  cd_lots db' = cd_lots db -> settled id db -> settled id db'.
Proof. unfold settled. intros ->. tauto. Qed.

Lemma settled_append id db db' k pr ap term st mat status :
  cd_lots db' = cd_lots db ++ [mk_cd_lot (fresh_uuid db) k pr ap term st mat status] ->
  settled id db -> settled id db'.
Proof.
  unfold settled. intros -> [(l0 & Hin0 & Hid0) Hall]. split.
  - exists l0. split; [apply in_or_app; left; exact Hin0|exact Hid0].
  - intros l Hin Hid. apply in_app_or in Hin. destruct Hin as [Hin|[<-|[]]].
    + apply Hall; assumption.
    + simpl in Hid. exfalso. apply (fresh_uuid_new db l0 Hin0). congruence.
Qed.

Lemma settled_map id db db' (touched : cd_lot -> bool) st :
  cd_lots db' = map (fun l => if touched l then set_status l st else l) (cd_lots db) ->
  st <> active ->
  settled id db -> settled id db'.
Proof.
  unfold settled. intros -> Hst [(l0 & Hin0 & Hid0) Hall]. split.
  - exists (if touched l0 then set_status l0 st else l0). split.
    + apply (in_map (fun l => if touched l then set_status l st else l)), Hin0.
    + destruct (touched l0); exact Hid0.
  - intros l Hin Hid. apply in_map_iff in Hin. destruct Hin as (l1 & <- & Hin).
    destruct (touched l1); [exact Hst|]. apply Hall; assumption.
Qed.

Ltac settled_tac :=
  first
    [ eapply settled_same; [reflexivity|assumption]
    | eapply settled_append; [reflexivity|assumption]
    | eapply settled_map; [reflexivity|discriminate|assumption] ].

Lemma exec_settled id s c db rep db' :
  exec s c db = Ok (rep, db') -> settled id db -> settled id db'.
Proof.
  intros H Hs. destruct c; unfold exec in H;
    apply bind_Ok in H; destruct H as (r & db1 & Hr & H);
    apply ret_Ok in H; destruct H as [_ ->].
  - unfold deposit_to_cash in Hr. rpc_go. settled_tac.
  - unfold withdraw_from_cash in Hr. rpc_go. settled_tac.
  - unfold invest_in_mmf in Hr. rpc_go. settled_tac.
  - unfold redeem_from_mmf in Hr. rpc_go. settled_tac.
  - unfold accrue_mmf_interest in Hr. rpc_go; settled_tac.
  - unfold create_cd in Hr. rpc_go; settled_tac.
  - unfold mature_cd in Hr. rpc_go; settled_tac.
  - unfold break_cd in Hr. rpc_go; settled_tac.
  - unfold buy_stock in Hr. rpc_go; settled_tac.
  - unfold sell_stock in Hr. rpc_go; settled_tac.
  - unfold spend_from_mmf in Hr. rpc_go. settled_tac.
  - unfold spend_from_stock in Hr. rpc_go; settled_tac.
  - apply update_transactions_Ok in Hr. destruct Hr as [-> _]. exact Hs.
  - apply delete_transactions_Ok in Hr. destruct Hr as [-> _]. exact Hs.
Qed.

Lemma run_settled id reqs db : settled id db -> settled id (run reqs db).
Proof.
  revert db. induction reqs as [|[s c] reqs IH]; intros db H; simpl; [exact H|].
  apply IH. unfold step. simpl fst. simpl snd.
  destruct (exec s c db) as [[rep db']|e] eqn:E; [|exact H].
  apply (exec_settled _ _ _ _ _ _ E), H.
Qed.

Lemma unique_id (lots : list cd_lot) (a b : cd_lot) :
  NoDup (map l_id lots) -> In a lots -> In b lots -> l_id a = l_id b -> a = b.
Proof.
  induction lots as [|l lots IH]; simpl; intros Hnd Ha Hb E; [contradiction|].
  inversion Hnd as [|? ? Hnot Hnd']. subst.
  destruct Ha as [->|Ha], Hb as [->|Hb].
  - reflexivity.
  - exfalso. apply Hnot. rewrite E. apply in_map. exact Hb.
  - exfalso. apply Hnot. rewrite <- E. apply in_map. exact Ha.
  - apply IH; assumption.
Qed.

Lemma settled_after_update db s id st lot ts :
  NoDup (map l_id (cd_lots db)) ->
  find (fun l => Nat.eqb (l_id l) id) (rls_cd_lots db s) = Some lot ->
  st <> active ->
  settled id
    (set_transactions
       (set_cd_lots db
          (map (fun l => if household_only db s (l_kid_id l) && Nat.eqb (l_id l) id
                         then set_status l st else l) (cd_lots db))) ts).
Proof.
  intros Hnd Hfind Hst.
  destruct (visible_lot _ _ _ _ Hfind) as [Hvis Hid].
  apply find_some in Hfind. destruct Hfind as [Hin _].
  unfold rls_cd_lots in Hin. apply filter_In in Hin. destruct Hin as [Hin _].
  unfold settled. cbn [cd_lots set_transactions set_cd_lots]. split.
  - exists (set_status lot st). split; [|exact Hid].
    apply in_map_iff. exists lot. split; [|exact Hin].
    rewrite Hvis, Hid, Nat.eqb_refl. reflexivity.
  - intros l Hl Hlid. apply in_map_iff in Hl. destruct Hl as (l1 & <- & Hl1).
    destruct (household_only db s (l_kid_id l1) && Nat.eqb (l_id l1) id) eqn:E;
      [exact Hst|].
    assert (l1 = lot) by (apply (unique_id _ _ _ Hnd Hl1 Hin); congruence).
    subst l1. rewrite Hvis, Hid, Nat.eqb_refl in E. discriminate.
Qed.

Lemma settled_refuses id db s :
  settled id db ->
  (exists e, mature_cd s id db = Err e) /\ (exists e, break_cd s id db = Err e).
Proof.
  intros [_ Hall]. split.
  - destruct (mature_cd s id db) as [[r db']|e] eqn:H; [|eauto].
    exfalso. unfold mature_cd in H. rpc_go.
    destruct (visible_lot _ _ _ _ E) as [_ Hid].
    apply find_some in E. destruct E as [Hin _].
    unfold rls_cd_lots in Hin. apply filter_In in Hin. destruct Hin as [Hin _].
    apply negb_false_iff, cd_status_eqb_eq in S0.
    exact (Hall _ Hin Hid S0).
  - destruct (break_cd s id db) as [[r db']|e] eqn:H; [|eauto].
    exfalso. unfold break_cd in H. rpc_go.
    destruct (visible_lot _ _ _ _ E) as [_ Hid].
    apply find_some in E. destruct E as [Hin _].
    unfold rls_cd_lots in Hin. apply filter_In in Hin. destruct Hin as [Hin _].
    apply negb_false_iff, cd_status_eqb_eq in S0.
    exact (Hall _ Hin Hid S0).
Qed.

Lemma settled_lot_not_active db s s' id st lot ts :
  auth_uid s' = auth_uid s ->
  find (fun l => Nat.eqb (l_id l) id) (rls_cd_lots db s) = Some lot ->
  st <> active ->
  let db1 :=
    set_transactions
      (set_cd_lots db
         (map (fun l => if household_only db s (l_kid_id l) && Nat.eqb (l_id l) id
                        then set_status l st else l) (cd_lots db))) ts in
  mature_cd s' id db1 = Err CdLotNotActive /\
  break_cd s' id db1 = Err CdLotNotActive.
Proof.
  intros Hsame Hfind Hst db1.
  destruct (visible_lot _ _ _ _ Hfind) as [Hvis Hid].
  assert (Hrls : forall d k, household_only d s' k = household_only d s k)
    by (intros d k; unfold household_only; rewrite Hsame; reflexivity).
  assert (Hfind1 : find (fun l => Nat.eqb (l_id l) id) (rls_cd_lots db1 s')
                   = Some (set_status lot st)).
  { unfold rls_cd_lots, db1. cbn [cd_lots set_transactions set_cd_lots].
    rewrite (filter_ext _ (fun l => household_only db s (l_kid_id l)))
      by (intro l; rewrite Hrls; reflexivity).
    apply (find_after_update (fun k => household_only db s k)). exact Hfind. }
  assert (Hacc : has_access db1 (auth_uid s') (l_kid_id (set_status lot st)) = true).
  { rewrite has_access_household, Hrls. exact Hvis. }
  assert (Hno : negb (cd_status_eqb (l_status (set_status lot st)) active) = true)
    by (destruct st; [contradiction|reflexivity|reflexivity]).
  unfold mature_cd, break_cd.
  rewrite !(bind_step _ _ _ _ _ (eq_refl : select_cd_lot s' id db1 = _)).
  rewrite Hfind1.
  rewrite !(bind_step _ _ _ _ _ (check_access_true _ _ _ Hacc)).
  rewrite Hno. split; reflexivity.
Qed.

(** A lot is paid out at most once.  After [mature_cd] or [break_cd] has
    succeeded on a lot (ids being unique, as the primary key has them), the
    same caller asking again is told the lot is not active; and after any
    further requests, no call of [mature_cd] or [break_cd] on that lot, by
    anyone, succeeds. *)
Theorem cd_lot_paid_out_once
        (s : session) (p_cd_lot_id : uuid) (db db1 : database) :
  NoDup (map l_id (cd_lots db)) ->
  (exists r, mature_cd s p_cd_lot_id db = Ok (r, db1)) \/
  (exists r, break_cd s p_cd_lot_id db = Ok (r, db1)) ->
  (forall s', auth_uid s' = auth_uid s ->
              mature_cd s' p_cd_lot_id db1 = Err CdLotNotActive /\
              break_cd s' p_cd_lot_id db1 = Err CdLotNotActive) /\
  forall (reqs : list (session * call)) (s' : session),
    (exists e, mature_cd s' p_cd_lot_id (run reqs db1) = Err e) /\
    (exists e, break_cd s' p_cd_lot_id (run reqs db1) = Err e).
Proof.
  intros Hnd Hpaid. split.
  - intros s' Hsame. destruct Hpaid as [[r H]|[r H]].
    + unfold mature_cd in H. rpc_go.
      apply (settled_lot_not_active _ _ _ _ _ _ _ Hsame E). discriminate.
    + unfold break_cd in H. rpc_go.
      apply (settled_lot_not_active _ _ _ _ _ _ _ Hsame E). discriminate.
  - intros reqs s'. apply settled_refuses, run_settled.
    destruct Hpaid as [[r H]|[r H]].
    + unfold mature_cd in H. rpc_go.
      apply (settled_after_update _ _ _ _ _ _ Hnd E). discriminate.
    + unfold break_cd in H. rpc_go.
      apply (settled_after_update _ _ _ _ _ _ Hnd E). discriminate.
Qed.

Lemma cd_lot_paid_out_once_witness :
  let s := Example.on_day (Example.day0 + 100) in
  NoDup (map l_id (cd_lots Example.cd_holder)) /\
  exists r db1,
    mature_cd s 1 Example.cd_holder = Ok (r, db1) /\
    mature_cd s 1 db1 = Err CdLotNotActive /\
    exists e, break_cd (Example.on_day (Example.day0 + 200)) 1
                (run [(s, call_create_cd Example.aiden 100 6)] db1) = Err e.
Proof.
  cbv zeta.
  assert (Hnd : NoDup (map l_id (cd_lots Example.cd_holder))).
  { vm_compute. constructor; [intros []|constructor]. }
  split; [exact Hnd|].
  destruct (mature_cd (Example.on_day (Example.day0 + 100)) 1 Example.cd_holder)
    as [[r db1]|e] eqn:E; [|vm_compute in E; discriminate].
  exists r, db1. split; [reflexivity|].
  destruct (cd_lot_paid_out_once _ 1 _ db1 Hnd (or_introl (ex_intro _ r E)))
    as [Hnow Hlater].
  split; [apply Hnow; reflexivity|]. apply Hlater.
Defined.
(** ** Shares *)

Lemma find_rls_position db s k t :
  household_only db s k = true ->
  find (same_position k t) (rls_stock_positions db s) = position_of db k t.
Proof.
  intro Hh. unfold rls_stock_positions, position_of.
  induction (stock_positions db) as [|p l IH]; simpl; [reflexivity|].
  destruct (same_position k t p) eqn:Es.
  - assert (Hk : p_kid_id p = k).
    { unfold same_position in Es. apply andb_true_iff in Es.
      apply Nat.eqb_eq. tauto. }
    rewrite Hk, Hh. simpl. rewrite Es. reflexivity.
  - destruct (household_only db s (p_kid_id p)); simpl; [rewrite Es|]; exact IH.
Qed.

Lemma select_latest_price_admin db s t :
  admin_only db s = true ->
  option_map sp_close_price
    (max_by sp_date (filter (fun sp => String.eqb (sp_ticker sp) t)
                            (rls_stock_prices db s)))
  = latest_price db t.
Proof. intro H. unfold rls_stock_prices, latest_price. rewrite H. reflexivity. Qed.

Lemma position_deleted (vis : uuid -> bool) k t (l : list stock_position) :
  vis k = true ->
  find (same_position k t)
       (filter (fun p => negb (vis (p_kid_id p) && same_position k t p)) l)
  = None.
Proof.
  intro Hv. induction l as [|p l IH]; simpl; [reflexivity|].
  destruct (same_position k t p) eqn:Es.
  - assert (Hk : p_kid_id p = k).
    { unfold same_position in Es. apply andb_true_iff in Es.
      apply Nat.eqb_eq. tauto. }
    rewrite Hk, Hv. simpl. exact IH.
  - rewrite andb_false_r. simpl. rewrite Es. exact IH.
Qed.





Lemma bind_Err_inv {A B} (c : rpc A) (k : A -> rpc B) db e :
  bind c k db = Err e ->
  c db = Err e \/ exists a db1, c db = Ok (a, db1) /\ k a db1 = Err e.
Proof.
  unfold bind. destruct (c db) as [[a db1]|e']; intro H.
  - right. eauto.
  - left. inversion H. reflexivity.
Qed.

Lemma count_positions_household db s k :
  household_only db s k = true ->
  count_positions s k db = Ok (positions_held db k, db).
Proof.
  intro Hh. unfold count_positions, query, positions_held, rls_stock_positions.
  rewrite filter_filter_sub; [reflexivity|].
  intros p Hp. apply andb_true_iff in Hp. destruct Hp as [Hp _].
  apply Nat.eqb_eq in Hp. rewrite Hp. exact Hh.
Qed.

Lemma insert_transaction_Err s k ty b amt note md cb db e :
  insert_transaction s k ty b amt note md cb db = Err e -> from_table e.
Proof.
  unfold insert_transaction, numeric_typmod.
  repeat match goal with
         | |- context [if ?c then _ else _] => destruct c
         end; intro H; inversion H; exact I.
Qed.

Lemma checked_position_Err k t sh cb e :
  checked_position k t sh cb = Err e -> from_table e.
Proof.
  unfold checked_position, numeric_typmod.
  repeat match goal with
         | |- context [if ?c then _ else _] => destruct c
         end; intro H; inversion H; exact I.
Qed.

Lemma update_position_rows_Err k t f g rows e :
  update_position_rows k t f g rows = Err e -> from_table e.
Proof.
  induction rows as [|p rows IH]; simpl; [discriminate|].
  destruct (update_position_rows k t f g rows) as [rest|e'].
  - destruct (same_position k t p); [|discriminate].
    destruct (checked_position _ _ _ _) as [p'|e'] eqn:Ec; [discriminate|].
    intro H. inversion H. subst. apply (checked_position_Err _ _ _ _ _ Ec).
  - intro H. inversion H. subst. apply IH. reflexivity.
Qed.

Lemma upsert_stock_position_Err s k t sh c db e :
  upsert_stock_position s k t sh c db = Err e -> from_table e.
Proof.
  unfold upsert_stock_position, update_stock_position.
  destruct (existsb _ _).
  - destruct (update_position_rows _ _ _ _ _) as [rows|e'] eqn:Eu; [discriminate|].
    intro H. inversion H. subst. apply (update_position_rows_Err _ _ _ _ _ _ Eu).
  - destruct (checked_position _ _ _ _) as [p|e'] eqn:Ec.
    + repeat match goal with
             | |- context [if ?c then _ else _] => destruct c
             end; intro H; inversion H; exact I.
    + intro H. inversion H. subst. apply (checked_position_Err _ _ _ _ _ Ec).
Qed.

(** Once the position limit is passed, [buy_stock] fails only for want of
    cash, on a zero price, or on a refusal of the tables. *)
Lemma buy_stock_settles_Err s k t a price db e :
  (v_cash <- select_balance s k cash ;;
   raise_if (Qlt_bool v_cash a) (InsufficientCash v_cash a) ;;;
   q <- sql_div a price ;;
   let v_shares := ROUND q 8 in
   insert_transaction s k buy cash (- a) None
     (Some (trade_metadata t v_shares price)) (auth_uid s) ;;;
   insert_transaction s k buy stock a None
     (Some (trade_metadata t v_shares price)) (auth_uid s) ;;;
   upsert_stock_position s k t v_shares a ;;;
   new_cash_balance <- select_balance s k cash ;;
   ret (v_shares, price, new_cash_balance)) db = Err e ->
  e <> PositionLimitReached.
Proof.
  intros H ->.
  apply bind_Err_inv in H. destruct H as [H|(v & db1 & _ & H)]; [discriminate|].
  apply bind_Err_inv in H. destruct H as [H|(? & db2 & _ & H)].
  { unfold raise_if, raise, ret in H. destruct (Qlt_bool v a); discriminate. }
  apply bind_Err_inv in H. destruct H as [H|(q & db3 & _ & H)].
  { unfold sql_div, raise, ret in H. destruct (Qeq_bool price 0); discriminate. }
  cbv zeta in H.
  apply bind_Err_inv in H. destruct H as [H|(? & db4 & _ & H)].
  { apply insert_transaction_Err in H. exact H. }
  apply bind_Err_inv in H. destruct H as [H|(? & db5 & _ & H)].
  { apply insert_transaction_Err in H. exact H. }
  apply bind_Err_inv in H. destruct H as [H|(? & db6 & _ & H)].
  { apply upsert_stock_position_Err in H. exact H. }
  apply bind_Err_inv in H. destruct H as [H|(? & db7 & _ & H)]; discriminate.
Qed.

(** The position limit of [buy_stock].  For a kid of the caller's
    household, a well-formed ticker with a price on record and a valid
    amount, the position-limit exception is raised exactly when the kid has
    no position in the ticker yet and already holds shares of as many
    tickers as the [stock_position_limit] setting allows, 5 when the
    setting is missing.  Adding to a position already held is never stopped
    by the limit. *)
Theorem buy_stock_position_limit
        (s : session) (kid_id : uuid) (ticker : string) (p_dollar_amount : Q)
        (db : database) (price : Q) (limit : Z) :
  has_access db (auth_uid s) kid_id = true ->
  ticker_format ticker = true ->
  invalid_amount p_dollar_amount = false ->
  latest_price db ticker = Some price ->
  position_limit db = Ok limit ->
  (buy_stock s kid_id ticker p_dollar_amount db = Err PositionLimitReached
   <-> position_of db kid_id ticker = None /\
       (limit <= positions_held db kid_id)%Z).
Proof.
  intros Hauth Hticker Hvalid Hprice Hlimit.
  assert (Hh : household_only db s kid_id = true)
    by (rewrite <- has_access_household; exact Hauth).
  assert (Hadmin := household_admin _ _ _ Hh).
  unfold buy_stock.
  erewrite bind_step by (apply check_access_true; exact Hauth).
  rewrite Hticker, Hvalid. cbn [negb].
  do 3 (erewrite bind_step by reflexivity).
  rewrite (bind_step _ _ _ _ _ (eq_refl : select_latest_price s ticker db = _)).
  rewrite (select_latest_price_admin _ _ _ Hadmin), Hprice.
  erewrite bind_step by reflexivity.
  rewrite existsb_find, (find_rls_position _ _ _ _ Hh).
  destruct (position_of db kid_id ticker) as [pos|]; cbn [negb].
  - erewrite bind_step by reflexivity. split.
    + intro H. exfalso. apply (buy_stock_settles_Err _ _ _ _ _ _ _ H). reflexivity.
    + intros [H _]. discriminate.
  - assert (Hcheck :
      (v_position_count <- count_positions s kid_id ;;
       v_position_limit <- select_setting s "stock_position_limit" ;;
       v_position_limit <-
         match v_position_limit with
         | None => ret 5%Z
         | Some v => lift (to_integer v)
         end ;;
       raise_if (Z.leb v_position_limit v_position_count) PositionLimitReached) db
      = raise_if (Z.leb limit (positions_held db kid_id)) PositionLimitReached db).
    { erewrite bind_step by (apply count_positions_household, Hh).
      erewrite bind_step by (apply select_setting_admin, Hadmin).
      unfold position_limit in Hlimit.
      destruct (setting_value db "stock_position_limit") as [v|].
      - rewrite Hlimit. erewrite bind_step by reflexivity. reflexivity.
      - inversion Hlimit. subst limit. erewrite bind_step by reflexivity.
        reflexivity. }
    destruct (Z.leb limit (positions_held db kid_id)) eqn:El.
    + rewrite (bind_Err _ _ _ _ Hcheck). apply Z.leb_le in El. tauto.
    + rewrite (bind_step _ _ _ _ _ Hcheck). apply Z.leb_gt in El. split.
      * intro H. exfalso. apply (buy_stock_settles_Err _ _ _ _ _ _ _ H).
        reflexivity.
      * intros [_ H]. lia.
Qed.

Lemma buy_stock_position_limit_witness :
  buy_stock (Example.on_day Example.day0) Example.aiden "AAPL" 100
            Scenario.crowded
  = Err PositionLimitReached /\
  buy_stock (Example.on_day Example.day0) Example.aiden "NVDA" 100
            Scenario.crowded
  <> Err PositionLimitReached.
Proof.
  split.
  - apply (buy_stock_position_limit (Example.on_day Example.day0) Example.aiden
             "AAPL" 100 Scenario.crowded 200 1%Z
             eq_refl eq_refl eq_refl eq_refl eq_refl).
    split; [reflexivity|]. vm_compute. discriminate.
  - intro H.
    apply (buy_stock_position_limit (Example.on_day Example.day0) Example.aiden
             "NVDA" 100 Scenario.crowded 800 1%Z
             eq_refl eq_refl eq_refl eq_refl eq_refl) in H.
    destruct H as [H _]. vm_compute in H. discriminate.
Defined.

(** ** Snapshots, further *)

Lemma order_newest (l : list transaction) (x : transaction) :
  (forall t, In t l -> (t_created_at t < t_created_at x)%Z) ->
  order_created_at_desc (l ++ [x]) = x :: order_created_at_desc l.
Proof.
  unfold order_created_at_desc.
  induction l as [|a l IH]; intro H; [reflexivity|].
  simpl. rewrite IH by (intros t Ht; apply H; right; exact Ht).
  simpl.
  replace (Z.ltb (t_created_at a) (t_created_at x)) with true; [reflexivity|].
  symmetry. apply Z.ltb_lt. apply H. left. reflexivity.
Qed.

Lemma same_caller_rls db s s' :
  auth_uid s' = auth_uid s -> rls_transactions db s' = rls_transactions db s.
Proof.
  intro H. unfold rls_transactions, household_only. rewrite H. reflexivity.
Qed.

(** The snapshot just recorded is the new high-water mark.  After the
    Hanzi Dojo form has deposited for a total, at a time later than every
    entry of the ledger, the form reads that total as the last one: the same
    total submitted again is answered "no new points" and any lower total
    with the fewer-points error, so that no entry is appended. *)
Theorem snapshot_is_high_water_mark
        (s : session) (kidId : uuid) (db db' : database) (currentPoints : Z)
        (note : string) (new_balance : Q) :
  recordExternalSnapshot db s kidId currentPoints note
  = Deposited new_balance db' ->
  (forall t, In t (transactions db) -> (t_created_at t < now s)%Z) ->
  forall s', auth_uid s' = auth_uid s ->
    lastPoints db' s' kidId = Some (inject_Z currentPoints) /\
    (forall note',
        recordExternalSnapshot db' s' kidId currentPoints note'
        = Rejected NoNewPoints) /\
    (forall lower note',
        (lower < currentPoints)%Z ->
        recordExternalSnapshot db' s' kidId lower note'
        = Rejected (FewerPointsThanLastTime (Some (inject_Z currentPoints)))).
Proof.
  intros Hrun Hclock s' Hsame.
  unfold recordExternalSnapshot in Hrun.
  destruct (handleRequestConfirm db s kidId currentPoints); [discriminate|].
  destruct (handleConfirm s kidId currentPoints note db) as [[b db1]|e] eqn:E;
    [|discriminate].
  inversion Hrun. subst b db1. clear Hrun.
  unfold handleConfirm in E. rpc_go. unfold deposit_to_cash in E. rpc_go.
  assert (Hh : household_only db s kidId = true)
    by (rewrite <- has_access_household; assumption).
  assert (Hlast : lastPoints
                    (set_transactions db
                       (transactions db ++
                        [mk_transaction kidId deposit cash
                           (ROUND (hanziAmount db s kidId currentPoints) 2)
                           (if String.eqb note "" then None else Some note)
                           (Some [("points_total"%string, JInt currentPoints);
                                  ("points_delta"%string,
                                   json_of_number
                                     (pointsDelta db s kidId currentPoints));
                                  ("source"%string, JStr "hanzi_dojo")])
                           (auth_uid s) (now s)]))
                    s' kidId
                  = Some (inject_Z currentPoints)).
  { unfold lastPoints, lastSnapshot.
    rewrite (same_caller_rls _ _ _ Hsame). unfold rls_transactions.
    cbn [transactions set_transactions]. rewrite !filter_app.
    cbn [filter t_kid_id]. rewrite household_only_set_transactions, Hh.
    cbn [filter]. unfold of_type at 2, has_metadata at 2.
    cbn [t_kid_id t_type t_bucket t_metadata transaction_type_eqb
         transaction_bucket_eqb].
    rewrite Nat.eqb_refl. cbn [andb app].
    rewrite order_newest.
    - reflexivity.
    - intros t Ht. apply filter_In in Ht. destruct Ht as [Ht _].
      apply filter_In in Ht. destruct Ht as [Ht _]. apply Hclock, Ht. }
  match goal with
  | |- lastPoints ?d _ _ = _ /\ _ => set (db' := d) in *
  end.
  change (lastPoints db' s' kidId = Some (inject_Z currentPoints)) in Hlast.
  clearbody db'.
  split; [exact Hlast|]. split.
  - intro note'. unfold recordExternalSnapshot, handleRequestConfirm, pointsDelta.
    rewrite Hlast. cbv beta iota delta [option_map].
    replace (Qle_bool (inject_Z currentPoints - inject_Z currentPoints) 0)
      with true by (symmetry; apply Qle_bool_iff; lra).
    replace (Qeq_bool (inject_Z currentPoints - inject_Z currentPoints) 0)
      with true by (symmetry; apply Qeq_bool_iff; ring).
    reflexivity.
  - intros lower note' Hlow.
    assert (Hq : inject_Z lower < inject_Z currentPoints)
      by (rewrite <- Zlt_Qlt; exact Hlow).
    unfold recordExternalSnapshot, handleRequestConfirm, pointsDelta.
    rewrite Hlast. cbv beta iota delta [option_map].
    replace (Qle_bool (inject_Z lower - inject_Z currentPoints) 0)
      with true by (symmetry; apply Qle_bool_iff; lra).
    replace (Qeq_bool (inject_Z lower - inject_Z currentPoints) 0) with false;
      [reflexivity|].
    symmetry. destruct (Qeq_bool _ 0) eqn:Eq; [|reflexivity].
    apply Qeq_bool_iff in Eq. lra.
Qed.

Lemma snapshot_is_high_water_mark_witness :
  exists new_balance db',
    recordExternalSnapshot Example.first_points
                           (Example.on_day (Example.day0 + 1)) Example.aiden 750 ""
    = Deposited new_balance db' /\
    lastPoints db' (Example.on_day (Example.day0 + 2)) Example.aiden = Some 750 /\
    recordExternalSnapshot db' (Example.on_day (Example.day0 + 2)) Example.aiden
                           750 ""
    = Rejected NoNewPoints.
Proof.
  destruct (recordExternalSnapshot Example.first_points
              (Example.on_day (Example.day0 + 1)) Example.aiden 750 "")
    as [e|nb db'|e] eqn:E; try (vm_compute in E; discriminate).
  assert (Hclock : forall t, In t (transactions Example.first_points) ->
                             (t_created_at t < now (Example.on_day (Example.day0 + 1)))%Z).
  { intros t Hin. vm_compute in Hin. destruct Hin as [<-|[]]. reflexivity. }
  destruct (snapshot_is_high_water_mark _ _ _ _ _ _ _ E Hclock
              (Example.on_day (Example.day0 + 2)) eq_refl)
    as (Hlast & Hsame & _).
  exists nb, db'. split; [reflexivity|]. split; [exact Hlast|apply Hsame].
Defined.

(** ** Interest, further *)

(** [accrue_mmf_interest] as one expression. *)
Lemma accrue_mmf_interest_unfold s k db :
  accrue_mmf_interest s k db
  = if has_access db (auth_uid s) k then
      let v := COALESCE (SUM (map t_amount
                 (filter (in_bucket k mmf) (rls_transactions db s)))) 0 in
      if Qle_bool v 0 then Ok ((0, v), db) else
      match option_map snd (find (fun kv => String.eqb (fst kv) "mmf_apy")
                                 (rls_settings db s)) with
      | None => Err (SettingNotFound "mmf_apy")
      | Some apy =>
        match last_accrual_date k (rls_transactions db s) with
        | None => Ok ((0, v), db)
        | Some d =>
          let days := (CURRENT_DATE s - d)%Z in
          if Z.leb days 0 then Ok ((0, v), db) else
          let i := ROUND (v * (apy / 365) * inject_Z days) 2 in
          if Qle_bool i 0 then Ok ((0, v), db) else
          match insert_transaction s k interest mmf i None
                  (Some [("days_accrued"%string, JInt days);
                         ("apy_at_accrual"%string, JNum apy);
                         ("balance_at_accrual"%string, JNum v)])
                  (auth_uid s) db with
          | Ok (_, db') => Ok ((i, v + i), db')
          | Err e => Err e
          end
        end
      end
    else Err Unauthorized.
Proof.
  unfold accrue_mmf_interest, check_access, last_accrual_date.
  unfold bind at 1. unfold bind at 1. unfold query at 1.
  destruct (has_access db (auth_uid s) k); [|reflexivity].
  cbn [negb raise_if]. unfold ret at 1. unfold bind at 1.
  unfold pg_advisory_xact_lock, ret at 1.
  unfold bind at 1. unfold select_balance, query at 1. cbv zeta.
  destruct (Qle_bool _ 0); [reflexivity|].
  unfold bind at 1. unfold select_setting, query at 1.
  destruct (option_map snd _) as [apy|]; [|reflexivity].
  unfold bind at 1. unfold select_last_date, query at 1.
  unfold bind at 1.
  destruct (max_by t_created_at
              (filter (of_type k interest mmf) (rls_transactions db s)))
    as [t|]; cbn [option_map].
  - unfold ret at 1.
    destruct (Z.leb _ 0); [reflexivity|].
    destruct (Qle_bool _ 0); [reflexivity|].
    unfold bind. destruct (insert_transaction _ _ _ _ _ _ _ _ _) as [[u db']|e];
      reflexivity.
  - unfold select_first_date, query at 1.
    destruct (min_by t_created_at _) as [t|]; cbn [option_map]; [|reflexivity].
    destruct (Z.leb _ 0); [reflexivity|].
    destruct (Qle_bool _ 0); [reflexivity|].
    unfold bind. destruct (insert_transaction _ _ _ _ _ _ _ _ _) as [[u db']|e];
      reflexivity.
Qed.

Lemma same_caller_settings db s s' :
  auth_uid s' = auth_uid s -> rls_settings db s' = rls_settings db s.
Proof.
  intro H. unfold rls_settings, admin_only. rewrite H. reflexivity.
Qed.

(** Interest is credited at most once a day.  When [accrue_mmf_interest]
    has succeeded, whether it credited anything or not, a second call by
    the same caller on the same day credits nothing: it returns 0 with the
    balance the first call reported and leaves the database as it is. *)
Theorem accrue_mmf_interest_once_a_day
        (s s' : session) (kid_id : uuid) (db db1 : database)
        (interest_credited new_mmf_balance : Q) :
  accrue_mmf_interest s kid_id db
  = Ok ((interest_credited, new_mmf_balance), db1) ->
  auth_uid s' = auth_uid s ->
  CURRENT_DATE s' = CURRENT_DATE s ->
  exists balance,
    accrue_mmf_interest s' kid_id db1 = Ok ((0, balance), db1) /\
    balance == new_mmf_balance.
Proof.
  intros H Hsame Hday.
  rewrite accrue_mmf_interest_unfold in H.
  rewrite accrue_mmf_interest_unfold.
  rewrite (same_caller_rls _ _ _ Hsame), (same_caller_settings _ _ _ Hsame),
          Hsame, Hday.
  destruct (has_access db (auth_uid s) kid_id) eqn:Hacc; [|discriminate].
  assert (Hh : household_only db s kid_id = true)
    by (rewrite <- has_access_household; exact Hacc).
  cbv zeta in H.
  set (v := COALESCE (SUM (map t_amount
               (filter (in_bucket kid_id mmf) (rls_transactions db s)))) 0) in *.
  destruct (Qle_bool v 0) eqn:E0.
  { inversion H. subst. rewrite Hacc. cbv zeta. fold v. rewrite E0.
    exists v. split; reflexivity. }
  destruct (option_map snd _) as [apy|] eqn:Eapy; [|discriminate].
  destruct (last_accrual_date kid_id (rls_transactions db s)) as [d|] eqn:Ed.
  2:{ inversion H. subst. rewrite Hacc. cbv zeta. fold v. rewrite E0, Eapy, Ed.
      exists v. split; reflexivity. }
  destruct (Z.leb (CURRENT_DATE s - d) 0) eqn:Edays.
  { inversion H. subst. rewrite Hacc. cbv zeta. fold v.
    rewrite E0, Eapy, Ed, Edays. exists v. split; reflexivity. }
  set (i := ROUND (v * (apy / 365) * inject_Z (CURRENT_DATE s - d)) 2) in *.
  destruct (Qle_bool i 0) eqn:Ei.
  { inversion H. subst. rewrite Hacc. cbv zeta. fold v.
    rewrite E0, Eapy, Ed, Edays. fold i. rewrite Ei.
    exists v. split; reflexivity. }
  destruct (insert_transaction _ _ _ _ _ _ _ _ _) as [[u db']|e] eqn:Eins;
    [|discriminate].
  inversion H. subst interest_credited new_mmf_balance db'. clear H.
  apply insert_transaction_Ok in Eins. destruct Eins as [Hdb1 _].
  unfold i in Hdb1 at 1. rewrite ROUND_idem in Hdb1. fold i in Hdb1.
  set (entry := mk_transaction kid_id interest mmf i None
                  (Some [("days_accrued"%string, JInt (CURRENT_DATE s - d));
                         ("apy_at_accrual"%string, JNum apy);
                         ("balance_at_accrual"%string, JNum v)])
                  (auth_uid s) (now s)) in *.
  assert (Hacc1 : has_access db1 (auth_uid s) kid_id = true)
    by (rewrite Hdb1; exact Hacc).
  assert (Hh1 : household_only db1 s kid_id = true)
    by (rewrite Hdb1; exact Hh).
  assert (Hrls : rls_transactions db1 s = rls_transactions db s ++ [entry]).
  { rewrite Hdb1. unfold rls_transactions, entry.
    cbn [transactions set_transactions].
    rewrite filter_app. cbn [filter t_kid_id].
    rewrite household_only_set_transactions, Hh. reflexivity. }
  assert (Hset : rls_settings db1 s = rls_settings db s)
    by (rewrite Hdb1; reflexivity).
  apply Qle_bool_false in E0, Ei.
  assert (Hbal : COALESCE (SUM (map t_amount
                    (filter (in_bucket kid_id mmf) (rls_transactions db1 s)))) 0
                 == v + i).
  { rewrite (balance_read _ _ _ _ Hh1). unfold v.
    rewrite (balance_read _ _ _ _ Hh). rewrite Hdb1.
    cbn [transactions set_transactions]. apply signed_sum_snoc.
    unfold in_bucket, entry. simpl. rewrite Nat.eqb_refl. reflexivity. }
  rewrite Hacc1. cbv zeta.
  set (v1 := COALESCE (SUM (map t_amount
                (filter (in_bucket kid_id mmf) (rls_transactions db1 s)))) 0) in *.
  replace (Qle_bool v1 0) with false
    by (symmetry; apply Qle_bool_false; lra).
  rewrite Hset, Eapy.
  assert (Hlast : exists d1, last_accrual_date kid_id (rls_transactions db1 s)
                             = Some d1 /\ (CURRENT_DATE s <= d1)%Z).
  { unfold last_accrual_date. rewrite Hrls, filter_app.
    assert (Hin : In entry (filter (of_type kid_id interest mmf)
                                   (rls_transactions db s)
                            ++ filter (of_type kid_id interest mmf) [entry])).
    { apply in_or_app. right. simpl. unfold of_type, entry. simpl.
      rewrite Nat.eqb_refl. left. reflexivity. }
    destruct (max_by t_created_at _) as [t|] eqn:Em.
    - eexists. split; [reflexivity|].
      apply max_by_Some in Em. destruct Em as [_ Hmax].
      specialize (Hmax entry Hin). apply utc_date_mono in Hmax. exact Hmax.
    - apply max_by_None in Em. rewrite Em in Hin. destruct Hin. }
  destruct Hlast as (d1 & Hd1 & Hle). rewrite Hd1.
  replace (Z.leb (CURRENT_DATE s - d1) 0) with true
    by (symmetry; apply Z.leb_le; lia).
  exists v1. split; [reflexivity|exact Hbal].
Qed.

Lemma accrue_mmf_interest_once_a_day_witness :
  let later := mk_session Example.parent ((Example.day0 + 30) * 86400 + 50000) in
  exists credited balance db1 balance',
    accrue_mmf_interest (Example.on_day (Example.day0 + 30)) Example.aiden
                        Example.saver
    = Ok ((credited, balance), db1) /\
    credited == 0.35 /\
    accrue_mmf_interest later Example.aiden db1 = Ok ((0, balance'), db1) /\
    balance' == 100.35.
Proof.
  cbv zeta.
  destruct (accrue_mmf_interest (Example.on_day (Example.day0 + 30)) Example.aiden
                                Example.saver)
    as [[[credited balance] db1]|e] eqn:E; [|vm_compute in E; discriminate].
  destruct (accrue_mmf_interest_once_a_day
              _ (mk_session Example.parent ((Example.day0 + 30) * 86400 + 50000))
              _ _ _ _ _ E eq_refl eq_refl) as (b' & Hrun & Hb).
  assert (Hv : credited == 0.35 /\ balance == 100.35)
    by (vm_compute in E; inversion E; split; reflexivity).
  exists credited, balance, db1, b'. split; [reflexivity|].
  split; [apply Hv|]. split; [exact Hrun|].
  rewrite Hb. apply Hv.
Defined.

(** ** The portfolio *)

Section PortfolioLemmas.

Import Portfolio.









End PortfolioLemmas.

Section PortfolioValue.

Import Portfolio.





End PortfolioValue.

Section PortfolioTotals.

Import Portfolio.

Lemma Qfloor_plus_Z (y : Q) (z : Z) : Qfloor (y + inject_Z z) = (Qfloor y + z)%Z.
Proof.
  assert (L1 := Qfloor_le y). assert (U1 := Qlt_floor y).
  assert (L2 := Qfloor_le (y + inject_Z z)).
  assert (U2 := Qlt_floor (y + inject_Z z)).
  assert (A : inject_Z (Qfloor y + z) < inject_Z (Qfloor (y + inject_Z z) + 1)).
  { rewrite inject_Z_plus. lra. }
  assert (B : inject_Z (Qfloor (y + inject_Z z)) < inject_Z (Qfloor y + 1 + z)).
  { rewrite (inject_Z_plus (Qfloor y + 1) z). lra. }
  rewrite <- Zlt_Qlt in A, B. lia.
Qed.

Lemma to_cents_comp x y : x == y -> to_cents x = to_cents y.
Proof.
  intro H. unfold to_cents, Math_round. f_equal. f_equal.
  apply Qfloor_comp. rewrite H. reflexivity.
Qed.

(** Rounding to cents commutes with adding an amount in cents. *)
Lemma to_cents_plus x a :
  ROUND a 2 == a -> to_cents (x + a) == to_cents x + a.
Proof.
  intro Ha. unfold to_cents, Math_round.
  assert (Hz : a * 100 == inject_Z (round_half_away (a * 100))).
  { unfold ROUND in Ha. change (inject_Z (Z.pos (pow10 2))) with 100 in Ha.
    rewrite (Qmake_Qdiv _ (pow10 2)) in Ha.
    change (inject_Z (Z.pos (pow10 2))) with 100 in Ha.
    rewrite <- Ha at 1. field. }
  rewrite (Qfloor_comp ((x + a) * 100 + (1 # 2))
                       (x * 100 + (1 # 2)
                        + inject_Z (round_half_away (a * 100))))
    by (rewrite <- Hz; ring).
  rewrite Qfloor_plus_Z, inject_Z_plus.
  setoid_replace a with (inject_Z (round_half_away (a * 100)) / 100) at 2
    by (rewrite <- Hz; field).
  field.
Qed.

Lemma summary_total db s kid_id :
  ps_grand_total (getPortfolioSummary db s kid_id) = to_cents (holdings db s kid_id).
Proof. reflexivity. Qed.

Lemma holdings_eq db s kid_id :
  has_access db (auth_uid s) kid_id = true ->
  holdings db s kid_id
  == signed_sum kid_id cash (transactions db)
     + signed_sum kid_id mmf (transactions db)
     + cd_holdings db s kid_id + stock_holdings db s kid_id.
Proof.
  intro H. unfold holdings, getCashBalance, getMmfBalance.
  rewrite !(reader_is_signed_sum _ _ _ _ H). reflexivity.
Qed.

(** A request that leaves the lots, the positions and the prices alone
    moves the holdings by what it appends to cash and to the fund. *)
Lemma holdings_ledger db s kid_id (new : list transaction) :
  has_access db (auth_uid s) kid_id = true ->
  holdings (set_transactions db (transactions db ++ new)) s kid_id
  == holdings db s kid_id + signed_sum kid_id cash new + signed_sum kid_id mmf new.
Proof.
  intro H.
  rewrite (holdings_eq (set_transactions db (transactions db ++ new)) s kid_id H).
  rewrite (holdings_eq db s kid_id H).
  cbn [transactions set_transactions]. rewrite !signed_sum_app.
  change (cd_holdings (set_transactions db (transactions db ++ new)) s kid_id)
    with (cd_holdings db s kid_id).
  change (stock_holdings (set_transactions db (transactions db ++ new)) s kid_id)
    with (stock_holdings db s kid_id).
  ring.
Qed.

Lemma ledger_grows2 db (e1 e2 : transaction) :
  set_transactions (set_transactions db (transactions db ++ [e1]))
    (transactions (set_transactions db (transactions db ++ [e1])) ++ [e2])
  = set_transactions db (transactions db ++ [e1; e2]).
Proof.
  unfold set_transactions. cbn [transactions admin_users kids cd_lots
                                stock_positions stock_prices settings].
  rewrite <- app_assoc. reflexivity.
Qed.

Lemma ledger_grows3 db (e1 e2 e3 : transaction) :
  set_transactions
    (set_transactions (set_transactions db (transactions db ++ [e1]))
       (transactions (set_transactions db (transactions db ++ [e1])) ++ [e2]))
    (transactions
       (set_transactions (set_transactions db (transactions db ++ [e1]))
          (transactions (set_transactions db (transactions db ++ [e1])) ++ [e2]))
     ++ [e3])
  = set_transactions db (transactions db ++ [e1; e2; e3]).
Proof.
  unfold set_transactions. cbn [transactions admin_users kids cd_lots
                                stock_positions stock_prices settings].
  rewrite <- !app_assoc. reflexivity.
Qed.

Lemma fold_principal (l : list cd_lot) (a : Q) :
  fold_left (fun sum lot => sum + l_principal lot) l a
  == a + fold_left (fun sum lot => sum + l_principal lot) l 0.
Proof.
  revert a. induction l as [|x l IH]; intro a; simpl.
  - ring.
  - rewrite (IH (a + l_principal x)), (IH (0 + l_principal x)). ring.
Qed.

Lemma cd_holdings_new_lot db s kid_id ts lot :
  household_only db s kid_id = true ->
  l_kid_id lot = kid_id -> l_status lot = active ->
  cd_holdings (set_cd_lots (set_transactions db ts) (cd_lots db ++ [lot])) s kid_id
  == cd_holdings db s kid_id + l_principal lot.
Proof.
  intros Hh Hk Hactive. unfold cd_holdings, getCdLots, rls_cd_lots.
  cbn [cd_lots set_cd_lots set_transactions].
  rewrite !filter_app. cbn [filter].
  rewrite household_only_set_cd_lots, household_only_set_transactions, Hk, Hh.
  cbn [filter]. rewrite Hk, Nat.eqb_refl. rewrite rev_unit. cbn [filter].
  rewrite Hactive. cbn [cd_status_eqb fold_left].
  rewrite fold_principal.
  match goal with
  | |- _ + ?x == ?y + _ => change y with x
  end.
  ring.
Qed.

(** Moving money between cash, the fund and a term deposit leaves the
    grand total of the dashboard where it was; a deposit raises it by the
    amount, and a withdrawal or a spend from the fund lowers it by the
    amount. *)
Theorem portfolio_total_is_conserved
        (s : session) (kid_id : uuid) (p_amount : Q) (db : database) :
  has_access db (auth_uid s) kid_id = true ->
  let total d := ps_grand_total (getPortfolioSummary d s kid_id) in
  (forall r db', invest_in_mmf s kid_id p_amount db = Ok (r, db') ->
                 total db' = total db) /\
  (forall r db', redeem_from_mmf s kid_id p_amount db = Ok (r, db') ->
                 total db' = total db) /\
  (forall term r db', create_cd s kid_id p_amount term db = Ok (r, db') ->
                      total db' = total db) /\
  (forall note source metadata r db',
      deposit_to_cash s kid_id p_amount note source metadata db = Ok (r, db') ->
      total db' == total db + p_amount) /\
  (forall note r db',
      withdraw_from_cash s kid_id p_amount note db = Ok (r, db') ->
      total db' == total db - p_amount) /\
  (forall note r db',
      spend_from_mmf s kid_id p_amount note db = Ok (r, db') ->
      total db' == total db - p_amount).
Proof.
  intros Hauth total. unfold total. clear total.
  assert (Hh : household_only db s kid_id = true)
    by (rewrite <- has_access_household; exact Hauth).
  repeat match goal with |- _ /\ _ => split end; intros.
  - unfold invest_in_mmf in H. rpc_go.
    rewrite !summary_total. apply to_cents_comp.
    rewrite ledger_grows2.
    rewrite (holdings_ledger _ _ _ _ Hauth). sum_new.
    rewrite Nat.eqb_refl, (ROUND_opp_valid _ S0).
    destruct (valid_amount_bounds _ S0) as (_ & _ & Hr). rewrite Hr. ring.
  - unfold redeem_from_mmf in H. rpc_go.
    rewrite !summary_total. apply to_cents_comp.
    rewrite ledger_grows2.
    rewrite (holdings_ledger _ _ _ _ Hauth). sum_new.
    rewrite Nat.eqb_refl, (ROUND_opp_valid _ S0).
    destruct (valid_amount_bounds _ S0) as (_ & _ & Hr). rewrite Hr. ring.
  - unfold create_cd in H. rpc_go.
    rewrite !summary_total. apply to_cents_comp.
    destruct (valid_amount_bounds _ S1) as (_ & _ & Hr).
    match goal with
    | |- holdings ?d _ _ == _ => rewrite (holdings_eq d s kid_id Hauth)
    end.
    rewrite (holdings_eq db s kid_id Hauth).
    match goal with
    | |- context [cd_lots (set_transactions db ?l)] =>
      change (cd_lots (set_transactions db l)) with (cd_lots db)
    end.
    rewrite cd_holdings_new_lot by (first [exact Hh|reflexivity]).
    match goal with
    | |- context [stock_holdings ?d s kid_id] =>
      change (stock_holdings d s kid_id) with (stock_holdings db s kid_id)
    end.
    sum_new. cbn [l_principal].
    rewrite Nat.eqb_refl, (ROUND_opp_valid _ S1), Hr. ring.
  - unfold deposit_to_cash in H. rpc_go.
    rewrite !summary_total.
    destruct (valid_amount_bounds _ S0) as (_ & _ & Hr).
    rewrite <- (to_cents_plus _ _ Hr).
    match goal with |- ?x == ?y => assert (E : x = y); [|rewrite E; reflexivity] end.
    apply to_cents_comp.
    rewrite (holdings_ledger _ _ _ _ Hauth). sum_new.
    rewrite Nat.eqb_refl, Hr. ring.
  - unfold withdraw_from_cash in H. rpc_go.
    rewrite !summary_total.
    assert (Hr := ROUND_opp_valid _ S0).
    assert (Hr' : ROUND (- p_amount) 2 == - p_amount) by exact Hr.
    unfold Qminus. rewrite <- (to_cents_plus _ _ Hr').
    match goal with |- ?x == ?y => assert (E : x = y); [|rewrite E; reflexivity] end.
    apply to_cents_comp.
    rewrite (holdings_ledger _ _ _ _ Hauth). sum_new.
    rewrite Nat.eqb_refl, Hr. ring.
  - unfold spend_from_mmf in H. rpc_go.
    rewrite !summary_total.
    assert (Hr := ROUND_opp_valid _ S0).
    destruct (valid_amount_bounds _ S0) as (_ & _ & Hp).
    unfold Qminus. rewrite <- (to_cents_plus _ _ Hr).
    match goal with |- ?x == ?y => assert (E : x = y); [|rewrite E; reflexivity] end.
    apply to_cents_comp.
    rewrite ledger_grows3.
    rewrite (holdings_ledger _ _ _ _ Hauth). sum_new.
    rewrite Nat.eqb_refl, Hr, Hp. ring.
Qed.

Lemma portfolio_total_is_conserved_witness :
  exists r db',
    create_cd (Example.on_day Example.day0) Example.aiden 100 3 Example.investor
    = Ok (r, db') /\
    ps_grand_total (getPortfolioSummary db' (Example.on_day Example.day0)
                                        Example.aiden)
    = ps_grand_total (getPortfolioSummary Example.investor
                                          (Example.on_day Example.day0)
                                          Example.aiden).
Proof.
  destruct (portfolio_total_is_conserved (Example.on_day Example.day0)
              Example.aiden 100 Example.investor eq_refl)
    as (_ & _ & Hcd & _).
  destruct (create_cd (Example.on_day Example.day0) Example.aiden 100 3
                      Example.investor) as [[r db']|e] eqn:E;
    [|vm_compute in E; discriminate].
  exists r, db'. split; [reflexivity|]. apply (Hcd 3%Z r db' E).
Defined.

End PortfolioTotals.


(** ** Settings *)

Section Settings.











Section Page.

Import SettingsPage.




End Page.

End Settings.


(** ** The simulator *)

Section SimulatorProperties.

Import Simulator.










End SimulatorProperties.

Section ClosestDate.

Import Simulator.

Lemma sorted_nth (dates : list date) :
  StronglySorted Z.le dates ->
  forall i j, (i <= j)%nat -> (j < List.length dates)%nat ->
              (nth i dates 0 <= nth j dates 0)%Z.
Proof.
  induction 1 as [|d l Hs IH Hall]; intros i j Hij Hj; simpl in Hj; [lia|].
  destruct i as [|i], j as [|j]; simpl; try lia.
  - rewrite Forall_forall in Hall. apply Hall. apply nth_In. lia.
  - apply IH; lia.
Qed.

Lemma search_spec (dates : list date) (t : date) :
  StronglySorted Z.le dates ->
  forall rounds lo hi,
    (lo <= hi)%nat -> (hi < List.length dates)%nat -> (hi - lo <= rounds)%nat ->
    (forall j, (j < lo)%nat -> (nth j dates 0 < t)%Z) ->
    (hi = (List.length dates - 1)%nat \/ (t <= nth hi dates 0)%Z) ->
    let r := search rounds dates t lo hi in
    (r < List.length dates)%nat /\
    (forall j, (j < r)%nat -> (nth j dates 0 < t)%Z) /\
    (r = (List.length dates - 1)%nat \/ (t <= nth r dates 0)%Z).
Proof.
  intro Hs. induction rounds as [|rounds IH]; intros lo hi Hle Hhi Hfuel Hlow Hup.
  - simpl. assert (lo = hi) by lia. subst lo.
    split; [exact Hhi|]. split; [exact Hlow|exact Hup].
  - cbn [search]. cbv zeta. destruct (Nat.ltb lo hi) eqn:L.
    + apply Nat.ltb_lt in L.
      assert (Hmid : (lo <= (lo + hi) / 2 < hi)%nat).
      { split.
        - apply Nat.div_le_lower_bound; lia.
        - apply Nat.Div0.div_lt_upper_bound; lia. }
      destruct (Z.ltb (nth ((lo + hi) / 2) dates 0%Z) t) eqn:M.
      * apply Z.ltb_lt in M. apply IH; try lia.
        intros j Hj.
        assert (nth j dates 0 <= nth ((lo + hi) / 2) dates 0)%Z
          by (apply (sorted_nth _ Hs); lia).
        lia.
      * apply Z.ltb_ge in M. apply IH; try lia. exact Hlow.
    + apply Nat.ltb_ge in L. assert (lo = hi) by lia. subst lo.
      split; [exact Hhi|]. split; [exact Hlow|exact Hup].
Qed.

(** [findClosestDateIndex] finds a closest date.  On a list of dates that is
    not empty and in ascending order, as the query of
    [getHistoricalStockReturns] delivers it, the index returned is within
    the list and no date of the list is nearer to the target than the one
    at that index. *)
Theorem findClosestDateIndex_closest (dates : list date) (targetDate : date) :
  dates <> [] ->
  StronglySorted Z.le dates ->
  let i := findClosestDateIndex dates targetDate in
  (i < List.length dates)%nat /\
  forall j, (j < List.length dates)%nat ->
            (Z.abs (nth i dates 0 - targetDate)
             <= Z.abs (nth j dates 0 - targetDate))%Z.
Proof.
  intros Hne Hs.
  assert (Hlen : (0 < List.length dates)%nat)
    by (destruct dates; [contradiction|simpl; lia]).
  destruct (search_spec dates targetDate Hs (List.length dates) 0
                        (List.length dates - 1))
    as (Hr & Hlow & Hup); try lia.
  unfold findClosestDateIndex. cbv zeta.
  set (lo := search (List.length dates) dates targetDate 0
                    (List.length dates - 1)) in *.
  assert (Hmono := sorted_nth _ Hs).
  assert (Hclosest :
    forall j, (j < List.length dates)%nat ->
              (Z.abs (nth lo dates 0 - targetDate)
               <= Z.abs (nth j dates 0 - targetDate)
               \/ ((0 < lo)%nat /\
                   Z.abs (nth (lo - 1) dates 0 - targetDate)
                   <= Z.abs (nth j dates 0 - targetDate)))%Z).
  { intros j Hj. destruct (Nat.lt_ge_cases j lo) as [Hjl|Hjl].
    - right. split; [lia|].
      assert (nth j dates 0 <= nth (lo - 1) dates 0)%Z by (apply Hmono; lia).
      assert (nth (lo - 1) dates 0 < targetDate)%Z by (apply Hlow; lia).
      lia.
    - destruct Hup as [Hlast|Hge].
      + assert (j = lo) by lia. subst j. left. lia.
      + left. assert (nth lo dates 0 <= nth j dates 0)%Z by (apply Hmono; lia).
        lia. }
  destruct (Nat.ltb 0 lo) eqn:L0.
  - apply Nat.ltb_lt in L0.
    destruct (Z.ltb (Z.abs (nth (lo - 1) dates 0%Z - targetDate))
                    (Z.abs (nth lo dates 0%Z - targetDate))) eqn:D.
    + apply Z.ltb_lt in D. split; [lia|].
      intros j Hj. destruct (Hclosest j Hj) as [H|[_ H]]; lia.
    + apply Z.ltb_ge in D. split; [exact Hr|].
      intros j Hj. destruct (Hclosest j Hj) as [H|[_ H]]; lia.
  - apply Nat.ltb_ge in L0. split; [exact Hr|].
    intros j Hj. destruct (Hclosest j Hj) as [H|[H _]]; [exact H|lia].
Qed.

Lemma findClosestDateIndex_closest_witness :
  findClosestDateIndex [10; 20; 30; 45]%Z 36%Z = 2%nat /\
  forall j, (j < 4)%nat ->
            (Z.abs (30 - 36) <= Z.abs (nth j [10; 20; 30; 45] 0 - 36))%Z.
Proof.
  assert (Hne : [10; 20; 30; 45]%Z <> []) by discriminate.
  assert (Hs : StronglySorted Z.le [10; 20; 30; 45]%Z).
  { repeat (constructor; [|repeat (constructor; [lia|]); constructor]).
    constructor. }
  destruct (findClosestDateIndex_closest [10; 20; 30; 45]%Z 36%Z Hne Hs)
    as [_ H].
  split; [reflexivity|exact H].
Defined.

End ClosestDate.


(** ** The confirmation flow *)

Section Flow.

Import ActionFlow.

Lemma flow_invariant (st : ActionFlowState) (updates : list update) :
  ((phase st = confirming <-> summary st <> None) /\
   (phase st = success <-> result st <> None)) ->
  (phase (fold_left setState updates st) = confirming
   <-> summary (fold_left setState updates st) <> None) /\
  (phase (fold_left setState updates st) = success
   <-> result (fold_left setState updates st) <> None).
Proof.
  revert st. induction updates as [|u updates IH]; intros st H; [exact H|].
  simpl. apply IH. destruct H as [H1 H2].
  destruct u; simpl; try exact (conj H1 H2);
    split; split; intro H; try discriminate; try reflexivity;
    try (exfalso; apply H; reflexivity).
Qed.

(** Whatever the order of the calls, the flow is in the confirming phase
    exactly when it holds a summary to confirm, and in the success phase
    exactly when it holds a result; and a failed action leaves the phase and
    the summary as they were, with the message as error and the buttons
    enabled again. *)
Theorem action_flow_phases (updates : list update) :
  let st := after updates in
  (phase st = confirming <-> summary st <> None) /\
  (phase st = success <-> result st <> None) /\
  forall message,
    let st' := setState (setState st confirm_started) (confirm_rejected message) in
    phase st' = phase st /\ summary st' = summary st /\
    error st' = Some message /\ isSubmitting st' = false.
Proof.
  cbv zeta.
  destruct (flow_invariant INITIAL_STATE updates) as [H1 H2].
  { split; split; intro H; try discriminate; exfalso; apply H; reflexivity. }
  split; [exact H1|]. split; [exact H2|].
  intro message. repeat split.
Qed.

End Flow.


(** ** Households *)

Section Isolation.

Variable k : uuid.

(** What the tables hold for kid [k]. *)
Lemma signed_sum_other b l (new : list transaction) :
  (forall t, In t new -> t_kid_id t <> k) ->
  signed_sum k b (l ++ new) == signed_sum k b l.
Proof.
  intro H. rewrite signed_sum_app, (signed_sum_none k b new); [ring|].
  intros t Ht. unfold in_bucket.
  replace (Nat.eqb (t_kid_id t) k) with false; [reflexivity|].
  symmetry. apply Nat.eqb_neq. apply H, Ht.
Qed.

Lemma lots_of_status_update (vis : uuid -> bool) id st (lots : list cd_lot) :
  vis k = false ->
  filter (fun l => Nat.eqb (l_kid_id l) k)
         (map (fun l => if vis (l_kid_id l) && Nat.eqb (l_id l) id
                        then set_status l st else l) lots)
  = filter (fun l => Nat.eqb (l_kid_id l) k) lots.
Proof.
  intro Hv. induction lots as [|l lots IH]; simpl; [reflexivity|].
  destruct (Nat.eqb (l_kid_id l) k) eqn:E.
  - apply Nat.eqb_eq in E. rewrite E, Hv. simpl. rewrite E, Nat.eqb_refl.
    rewrite IH. reflexivity.
  - destruct (vis (l_kid_id l) && Nat.eqb (l_id l) id); simpl; rewrite E;
      exact IH.
Qed.

Lemma positions_of_update kid t f g rows rows' :
  kid <> k ->
  update_position_rows kid t f g rows = Ok rows' ->
  filter (fun p => Nat.eqb (p_kid_id p) k) rows'
  = filter (fun p => Nat.eqb (p_kid_id p) k) rows.
Proof.
  intro Hk. revert rows'. induction rows as [|p rows IH]; simpl; intros rows' H.
  - inversion H. reflexivity.
  - destruct (update_position_rows kid t f g rows) as [rest|e]; [|discriminate].
    destruct (same_position kid t p) eqn:Es.
    + destruct (checked_position _ _ _ _) as [p'|e] eqn:Ec; [|discriminate].
      apply checked_position_Ok in Ec. inversion H. subst. simpl.
      unfold same_position in Es. apply andb_true_iff in Es.
      destruct Es as [Es _]. apply Nat.eqb_eq in Es.
      replace (Nat.eqb (p_kid_id p) k) with false
        by (symmetry; apply Nat.eqb_neq; congruence).
      apply IH. reflexivity.
    + inversion H. subst. simpl. rewrite (IH rest eq_refl). reflexivity.
Qed.

Lemma positions_of_delete (vis : uuid -> bool) kid t (rows : list stock_position) :
  kid <> k ->
  filter (fun p => Nat.eqb (p_kid_id p) k)
         (filter (fun p => negb (vis (p_kid_id p) && same_position kid t p)) rows)
  = filter (fun p => Nat.eqb (p_kid_id p) k) rows.
Proof.
  intro Hk. induction rows as [|p rows IH]; simpl; [reflexivity|].
  destruct (Nat.eqb (p_kid_id p) k) eqn:E.
  - assert (Hs : same_position kid t p = false).
    { unfold same_position. apply Nat.eqb_eq in E. rewrite E.
      replace (Nat.eqb k kid) with false; [reflexivity|].
      symmetry. apply Nat.eqb_neq. congruence. }
    rewrite Hs, andb_false_r. simpl. rewrite E, IH. reflexivity.
  - destruct (negb _); simpl; [rewrite E|]; exact IH.
Qed.

Lemma upsert_stock_position_rows s kid t sh c db u db' :
  upsert_stock_position s kid t sh c db = Ok (u, db') ->
  exists ps,
    db' = set_stock_positions db ps /\
    ((existsb (same_position kid t) (stock_positions db) = true /\
      update_position_rows kid t (fun p => p_shares p + sh)
                           (fun p => p_cost_basis p + c) (stock_positions db)
      = Ok ps) \/
     (existsb (same_position kid t) (stock_positions db) = false /\
      ps = stock_positions db
           ++ [mk_stock_position kid t (ROUND sh 8) (ROUND c 2)])).
Proof.
  unfold upsert_stock_position, update_stock_position.
  destruct (existsb _ _).
  - destruct (update_position_rows _ _ _ _ _) as [rows|e] eqn:Eu; [|discriminate].
    intro H. inversion H. exists rows. split; [reflexivity|]. left.
    split; reflexivity.
  - destruct (checked_position _ _ _ _) as [p|e] eqn:Ec; [|discriminate].
    apply checked_position_Ok in Ec. subst p.
    repeat match goal with
           | |- (if ?c then _ else _) = _ -> _ => destruct c; [discriminate|]
           end.
    intro H. inversion H. eexists. split; [reflexivity|]. right.
    split; reflexivity.
Qed.

Lemma rows_of_positions kid t sh c (before ps : list stock_position) :
  kid <> k ->
  ((existsb (same_position kid t) before = true /\
    update_position_rows kid t (fun p => p_shares p + sh)
                         (fun p => p_cost_basis p + c) before = Ok ps) \/
   (existsb (same_position kid t) before = false /\
    ps = before ++ [mk_stock_position kid t (ROUND sh 8) (ROUND c 2)])) ->
  filter (fun p => Nat.eqb (p_kid_id p) k) ps
  = filter (fun p => Nat.eqb (p_kid_id p) k) before.
Proof.
  intros Hk [[_ H]|[_ ->]].
  - apply (positions_of_update _ _ _ _ _ _ Hk H).
  - rewrite filter_app. simpl.
    replace (Nat.eqb kid k) with false by (symmetry; apply Nat.eqb_neq, Hk).
    apply app_nil_r.
Qed.

Lemma rows_of_sale (vis : uuid -> bool) kid t f g (c : bool)
      (before ps : list stock_position) :
  kid <> k ->
  (if c
   then ps = filter (fun p => negb (vis (p_kid_id p) && same_position kid t p))
                    before
   else update_position_rows kid t f g before = Ok ps) ->
  filter (fun p => Nat.eqb (p_kid_id p) k) ps
  = filter (fun p => Nat.eqb (p_kid_id p) k) before.
Proof.
  intros Hk H. destruct c.
  - subst ps. apply positions_of_delete, Hk.
  - apply (positions_of_update _ _ _ _ _ _ Hk H).
Qed.

End Isolation.

(** As [inv_stmt] and [rpc_go], keeping the rows an upsert leaves. *)
Ltac inv_rows H1 :=
  first
    [ apply upsert_stock_position_rows in H1; destruct H1 as (? & -> & H1)
    | inv_stmt H1 ].

Ltac rpc_rows :=
  repeat match goal with
  | H : bind _ _ _ = Ok _ |- _ =>
    let a := fresh "a" in let db1 := fresh "db" in let H1 := fresh "S" in
    apply bind_Ok in H; destruct H as (a & db1 & H1 & H); try inv_rows H1
  | H : raise _ _ = Ok _ |- _ => discriminate H
  | H : (if ?c then _ else _) _ = Ok _ |- _ =>
    let E := fresh "E" in destruct c eqn:E
  | H : (match ?o with Some _ => _ | None => _ end) _ = Ok _ |- _ =>
    let E := fresh "E" in destruct o eqn:E
  | H : (let '(_, _) := ?p in _) _ = Ok _ |- _ => destruct p
  | H : _ _ = Ok (_, _) |- _ => inv_rows H
  end.

Section IsolationTheorem.

Variable k : uuid.

Ltac other_kid Hno :=
  match goal with
  | S : has_access ?d (auth_uid ?s) ?kid = true |- _ =>
    let Hne := fresh "Hne" in
    assert (Hne : kid <> k)
      by (let Heq := fresh in intro Heq; rewrite Heq, Hno in S; discriminate S);
    let Hneb := fresh "Hneb" in
    assert (Hneb : Nat.eqb kid k = false) by (apply Nat.eqb_neq; exact Hne)
  end.

Lemma exec_rows_of s c db rep db' :
  exec s c db = Ok (rep, db') ->
  has_access db (auth_uid s) k = false ->
  rows_of k db' = rows_of k db /\
  admin_users db' = admin_users db /\ kids db' = kids db.
Proof.
  intros H Hno.
  assert (Hvis : household_only db s k = false)
    by (rewrite <- has_access_household; exact Hno).
  destruct c; unfold exec in H;
    apply bind_Ok in H; destruct H as (r & db1 & Hr & H);
    apply ret_Ok in H; destruct H as [_ ->].
  - unfold deposit_to_cash in Hr. rpc_rows. other_kid Hno.
    split; [|split; reflexivity]. unfold rows_of.
    cbn [transactions cd_lots stock_positions set_transactions].
    rewrite !filter_app. cbn [filter t_kid_id]. rewrite Hneb, !app_nil_r.
    reflexivity.
  - unfold withdraw_from_cash in Hr. rpc_rows. other_kid Hno.
    split; [|split; reflexivity]. unfold rows_of.
    cbn [transactions cd_lots stock_positions set_transactions].
    rewrite !filter_app. cbn [filter t_kid_id]. rewrite Hneb, !app_nil_r.
    reflexivity.
  - unfold invest_in_mmf in Hr. rpc_rows. other_kid Hno.
    split; [|split; reflexivity]. unfold rows_of.
    cbn [transactions cd_lots stock_positions set_transactions].
    rewrite !filter_app. cbn [filter t_kid_id]. rewrite Hneb, !app_nil_r.
    reflexivity.
  - unfold redeem_from_mmf in Hr. rpc_rows. other_kid Hno.
    split; [|split; reflexivity]. unfold rows_of.
    cbn [transactions cd_lots stock_positions set_transactions].
    rewrite !filter_app. cbn [filter t_kid_id]. rewrite Hneb, !app_nil_r.
    reflexivity.
  - unfold accrue_mmf_interest in Hr. rpc_rows; other_kid Hno;
      (split; [|split; reflexivity]); try reflexivity.
    all: unfold rows_of;
      cbn [transactions cd_lots stock_positions set_transactions];
      rewrite !filter_app; cbn [filter t_kid_id]; rewrite Hneb, !app_nil_r;
      reflexivity.
  - unfold create_cd in Hr. rpc_rows; other_kid Hno.
    split; [|split; reflexivity]. unfold rows_of.
    cbn [transactions cd_lots stock_positions set_transactions set_cd_lots].
    rewrite !filter_app. cbn [filter t_kid_id l_kid_id].
    rewrite Hneb, !app_nil_r. reflexivity.
  - unfold mature_cd in Hr. rpc_rows; other_kid Hno.
    split; [|split; reflexivity]. unfold rows_of.
    cbn [transactions cd_lots stock_positions set_transactions set_cd_lots].
    rewrite !filter_app. cbn [filter t_kid_id].
    rewrite Hneb, !app_nil_r.
    rewrite (lots_of_status_update k (fun x => household_only db s x)) by exact Hvis.
    reflexivity.
  - unfold break_cd in Hr. rpc_rows; other_kid Hno.
    split; [|split; reflexivity]. unfold rows_of.
    cbn [transactions cd_lots stock_positions set_transactions set_cd_lots].
    rewrite !filter_app. cbn [filter t_kid_id].
    rewrite Hneb, !app_nil_r.
    rewrite (lots_of_status_update k (fun x => household_only db s x)) by exact Hvis.
    reflexivity.
  - unfold buy_stock in Hr. rpc_rows; other_kid Hno;
      (split; [|split; reflexivity]); unfold rows_of;
      cbn [transactions cd_lots stock_positions set_transactions
           set_stock_positions];
      rewrite !filter_app; cbn [filter t_kid_id]; rewrite Hneb, !app_nil_r;
      match goal with
      | P : _ \/ _ |- _ => rewrite (rows_of_positions k _ _ _ _ _ _ Hne P)
      end; reflexivity.
  - unfold sell_stock in Hr. rpc_rows; other_kid Hno;
      (split; [|split; reflexivity]); unfold rows_of;
      cbn [transactions cd_lots stock_positions set_transactions
           set_stock_positions];
      rewrite !filter_app; cbn [filter t_kid_id]; rewrite Hneb, !app_nil_r;
      match goal with
      | P : if _ then _ else _ |- _ =>
        rewrite (rows_of_sale k (fun x => household_only _ s x)
                              _ _ _ _ _ _ _ Hne P)
      end; reflexivity.
  - unfold spend_from_mmf in Hr. rpc_rows. other_kid Hno.
    split; [|split; reflexivity]. unfold rows_of.
    cbn [transactions cd_lots stock_positions set_transactions].
    rewrite !filter_app. cbn [filter t_kid_id]. rewrite Hneb, !app_nil_r.
    reflexivity.
  - unfold spend_from_stock in Hr. rpc_rows; other_kid Hno;
      (split; [|split; reflexivity]); unfold rows_of;
      cbn [transactions cd_lots stock_positions set_transactions
           set_stock_positions];
      rewrite !filter_app; cbn [filter t_kid_id]; rewrite Hneb, !app_nil_r;
      match goal with
      | P : if _ then _ else _ |- _ =>
        rewrite (rows_of_sale k (fun x => household_only _ s x)
                              _ _ _ _ _ _ _ Hne P)
      end; reflexivity.
  - apply update_transactions_Ok in Hr. destruct Hr as [-> _]. repeat split.
  - apply delete_transactions_Ok in Hr. destruct Hr as [-> _]. repeat split.
Qed.

Lemma has_access_tables db db' c kid :
  admin_users db' = admin_users db -> kids db' = kids db ->
  has_access db' c kid = has_access db c kid.
Proof. intros Ha Hk. unfold has_access. rewrite Ha, Hk. reflexivity. Qed.

(** Households are kept apart.  Whatever requests are made by callers who
    do not administer the household of a kid, the ledger entries, the lots
    and the positions of that kid stay exactly as they were. *)
Theorem household_isolation (reqs : list (session * call)) (db : database) :
  (forall s c, In (s, c) reqs -> has_access db (auth_uid s) k = false) ->
  rows_of k (run reqs db) = rows_of k db.
Proof.
  revert db. induction reqs as [|[s c] reqs IH]; intros db H; [reflexivity|].
  simpl. unfold step. simpl fst. simpl snd.
  assert (Hs : has_access db (auth_uid s) k = false)
    by (apply (H s c); left; reflexivity).
  destruct (exec s c db) as [[rep db']|e] eqn:E.
  - destruct (exec_rows_of _ _ _ _ _ E Hs) as (Hrows & Ha & Hk).
    rewrite <- Hrows. apply IH. intros s' c' Hin.
    rewrite (has_access_tables _ _ _ _ Ha Hk). apply (H s' c'). right. exact Hin.
  - apply IH. intros s' c' Hin. apply (H s' c'). right. exact Hin.
Qed.

End IsolationTheorem.

Lemma household_isolation_witness :
  let reqs :=
    [(Scenario.visit Example.day0, call_deposit_to_cash 200 99 None None None);
     (Scenario.visit Example.day0, call_withdraw_from_cash Example.aiden 10 None);
     (Scenario.visit Example.day0, call_buy_stock 200 "NVDA" 20)] in
  signed_sum 200 cash (transactions (run reqs Scenario.neighbours)) == 79 /\
  rows_of Example.aiden (run reqs Scenario.neighbours)
  = rows_of Example.aiden Scenario.neighbours.
Proof.
  cbv zeta. split; [vm_compute; reflexivity|].
  apply household_isolation. intros s c Hin.
  repeat (destruct Hin as [Hin|Hin]; [inversion Hin; reflexivity|]).
  destruct Hin.
Defined.


(** ** Buying and selling back *)

Section RoundTrip.

Lemma Qfloor_unique (q : Q) (z : Z) :
  inject_Z z <= q -> q < inject_Z (z + 1) -> Qfloor q = z.
Proof.
  intros L U. assert (L1 := Qfloor_le q). assert (U1 := Qlt_floor q).
  assert (A : inject_Z z < inject_Z (Qfloor q + 1)) by lra.
  assert (B : inject_Z (Qfloor q) < inject_Z (z + 1)) by lra.
  rewrite <- Zlt_Qlt in A, B. lia.
Qed.

Lemma round_half_away_near (y : Q) (z : Z) :
  Qabs (y - inject_Z z) < 1 # 2 -> round_half_away y = z.
Proof.
  intro H. apply Qabs_Qlt_condition in H. destruct H as [H1 H2].
  unfold round_half_away. destruct (Qle_bool 0 y).
  - apply Qfloor_unique; [lra|]. rewrite inject_Z_plus.
    change (inject_Z 1) with 1. lra.
  - rewrite <- (Z.opp_involutive z) at 1. f_equal.
    apply Qfloor_unique.
    + rewrite inject_Z_opp. lra.
    + rewrite inject_Z_plus, inject_Z_opp. change (inject_Z 1) with 1. lra.
Qed.

Lemma round_half_away_error (y : Q) :
  Qabs (inject_Z (round_half_away y) - y) <= 1 # 2.
Proof.
  apply Qabs_Qle_condition. unfold round_half_away.
  destruct (Qle_bool 0 y).
  - assert (L := Qfloor_le (y + (1 # 2))).
    assert (U := Qlt_floor (y + (1 # 2))).
    rewrite inject_Z_plus in U. change (inject_Z 1) with 1 in U. lra.
  - assert (L := Qfloor_le (- y + (1 # 2))).
    assert (U := Qlt_floor (- y + (1 # 2))).
    rewrite inject_Z_plus in U. change (inject_Z 1) with 1 in U.
    rewrite inject_Z_opp. lra.
Qed.

(** [ROUND(x, 8)] is within half a hundred-millionth of [x]. *)
Lemma ROUND_8_error (x : Q) : Qabs (ROUND x 8 - x) <= 1 # 200000000.
Proof.
  assert (E := round_half_away_error (x * 100000000)).
  apply Qabs_Qle_condition in E. apply Qabs_Qle_condition.
  unfold ROUND. change (inject_Z (Z.pos (pow10 8))) with 100000000.
  rewrite (Qmake_Qdiv _ (pow10 8)).
  change (inject_Z (Z.pos (pow10 8))) with 100000000.
  set (r := inject_Z (round_half_away (x * 100000000))) in *.
  split.
  - apply Qle_minus_iff.
    setoid_replace (r / 100000000 - x + - - (1 # 200000000))
      with ((r - x * 100000000 + (1 # 2)) / 100000000) by field.
    apply Qle_shift_div_l; [reflexivity|]. lra.
  - apply Qle_minus_iff.
    setoid_replace ((1 # 200000000) + - (r / 100000000 - x))
      with (((1 # 2) - (r - x * 100000000)) / 100000000) by field.
    apply Qle_shift_div_l; [reflexivity|]. lra.
Qed.

(** What is within half a cent of an amount in cents rounds to it. *)
Lemma ROUND_2_near (x a : Q) :
  ROUND a 2 == a -> Qabs (x - a) < 1 # 200 -> ROUND x 2 == a.
Proof.
  intros Ha H. apply Qabs_Qlt_condition in H. destruct H as [H1 H2].
  rewrite <- Ha. unfold ROUND.
  change (inject_Z (Z.pos (pow10 2))) with 100.
  assert (Hz : a * 100 == inject_Z (round_half_away (a * 100))).
  { unfold ROUND in Ha. change (inject_Z (Z.pos (pow10 2))) with 100 in Ha.
    rewrite (Qmake_Qdiv _ (pow10 2)) in Ha.
    change (inject_Z (Z.pos (pow10 2))) with 100 in Ha.
    rewrite <- Ha at 1. field. }
  rewrite (round_half_away_near (x * 100) (round_half_away (a * 100)));
    [reflexivity|].
  apply Qabs_Qlt_condition. rewrite <- Hz. split; lra.
Qed.


Lemma find_last_position kid t (before : list stock_position) p :
  find (same_position kid t) before = None ->
  same_position kid t p = true ->
  find (same_position kid t) (before ++ [p]) = Some p.
Proof.
  intros Hnone Hp. induction before as [|x l IH]; simpl in *.
  - rewrite Hp. reflexivity.
  - destruct (same_position kid t x); [discriminate|]. apply IH, Hnone.
Qed.

(** A first purchase of a ticker, when it succeeds. *)
Lemma buy_stock_opens s kid_id ticker a db db1 shares price cash1 :
  position_of db kid_id ticker = None ->
  buy_stock s kid_id ticker a db = Ok ((shares, price, cash1), db1) ->
  has_access db (auth_uid s) kid_id = true /\
  invalid_amount a = false /\
  latest_price db ticker = Some price /\
  ~ price == 0 /\
  shares = ROUND (a / price) 8 /\
  (exists e1 e2,
      db1 = set_stock_positions
              (set_transactions db (transactions db ++ [e1; e2]))
              (stock_positions db
               ++ [mk_stock_position kid_id ticker (ROUND shares 8) (ROUND a 2)]) /\
      signed_sum kid_id cash (transactions db ++ [e1; e2])
      == signed_sum kid_id cash (transactions db) - a).
Proof.
  intros Hnone Hbuy. unfold buy_stock in Hbuy. rpc_rows.
  all: repeat match goal with
       | H : (_, _) = (_, _) |- _ => inversion H; clear H; subst
       end.
  all: assert (Hh : household_only db s kid_id = true)
         by (rewrite <- has_access_household; assumption).
  all: rewrite (select_latest_price_admin _ _ _ (household_admin _ _ _ Hh)) in E.
  all: split; [assumption|]; split; [assumption|]; split; [exact E|].
  all: split; [assumption|]; split; [reflexivity|].
  all: match goal with
       | P : _ \/ _ |- _ => destruct P as [[Hex _]|[_ Hps]]
       end.
  all: try (exfalso;
            cbn [stock_positions set_transactions] in Hex;
            rewrite existsb_find in Hex; unfold position_of in Hnone;
            rewrite Hnone in Hex; discriminate Hex).
  all: cbn [stock_positions set_transactions] in Hps; subst.
  all: do 2 eexists; split;
       [ rewrite ledger_grows2; reflexivity
       | sum_new; rewrite Nat.eqb_refl, (ROUND_opp_valid _ S1); ring ].
Qed.

(** Selling all, when it succeeds. *)
Lemma sell_all_Ok s kid_id ticker db db' sold price proceeds gain new_cash :
  sell_stock s kid_id ticker 0 db
  = Ok ((sold, price, proceeds, gain, new_cash), db') ->
  exists pos,
    has_access db (auth_uid s) kid_id = true /\
    latest_price db ticker = Some price /\
    position_of db kid_id ticker = Some pos /\
    0 < p_shares pos /\
    sold = p_shares pos /\
    proceeds = ROUND (p_shares pos * price) 2 /\
    gain = ROUND (proceeds
                  - ROUND (p_cost_basis pos / p_shares pos * sold) 2) 2 /\
    new_cash == signed_sum kid_id cash (transactions db) + proceeds /\
    position_of db' kid_id ticker = None.
Proof.
  intro H. unfold sell_stock in H. rpc_go;
    repeat match goal with
           | H : (_, _) = (_, _) |- _ => inversion H; clear H; subst
           end;
    try discriminate.
  assert (Hh : household_only db s kid_id = true)
    by (rewrite <- has_access_household; assumption).
  rewrite (select_latest_price_admin _ _ _ (household_admin _ _ _ Hh)) in E.
  rewrite (find_rls_position _ _ _ _ Hh) in E0.
  apply Qle_bool_false in S3.
  exists s0. split; [assumption|]. split; [exact E|]. split; [exact E0|].
  split; [exact S3|]. split; [reflexivity|]. split; [reflexivity|].
  split; [reflexivity|]. split.
  - match goal with
    | B : household_only _ _ _ = true -> ?v == _ |- ?v == _ =>
      rewrite B by authorised
    end.
    sum_new. rewrite Nat.eqb_refl, ROUND_idem. ring.
  - match goal with
    | P : if Qle_bool ?a ?b then _ else _ |- _ =>
      replace (Qle_bool a b) with true in P
        by (symmetry; apply Qle_bool_iff, Qle_refl);
      rewrite P
    end.
    unfold position_of.
    cbn [stock_positions set_transactions set_stock_positions].
    apply (position_deleted (fun k => household_only db s k)). exact Hh.
Qed.

(** Buying and selling back is free of charge.  When a kid who holds no
    share of a ticker buys for an amount, at a price below $1,000,000 a
    share, and sells all straight away, and both calls succeed, then the
    sale is at the price of the purchase, the shares sold are the shares
    bought, the proceeds are the amount paid to the cent, the gain is zero,
    cash is back where it was and the position is gone: the rounding of the
    shares to eight decimals costs nothing. *)
Theorem buy_then_sell_all
        (s s' : session) (kid_id : uuid) (ticker : string) (p_dollar_amount : Q)
        (db db1 db2 : database)
        (shares_bought price cash1 shares_sold price' proceeds gain cash2 : Q) :
  position_of db kid_id ticker = None ->
  buy_stock s kid_id ticker p_dollar_amount db
  = Ok ((shares_bought, price, cash1), db1) ->
  sell_stock s' kid_id ticker 0 db1
  = Ok ((shares_sold, price', proceeds, gain, cash2), db2) ->
  price < 1000000 ->
  shares_sold = shares_bought /\ price' = price /\
  proceeds == p_dollar_amount /\ gain == 0 /\
  cash2 == signed_sum kid_id cash (transactions db) /\
  position_of db2 kid_id ticker = None.
Proof.
  intros Hnone Hbuy Hsell Hprice.
  destruct (buy_stock_opens _ _ _ _ _ _ _ _ _ Hnone Hbuy)
    as (Hauth & Hvalid & Hlatest & Hnz & Hshares & e1 & e2 & Hdb1 & Hcash1).
  destruct (valid_amount_bounds _ Hvalid) as (Hpos & Hcap & Hr).
  destruct (sell_all_Ok _ _ _ _ _ _ _ _ _ _ Hsell)
    as (pos & _ & Hlatest' & Hfound & Hsh & Hsold & Hproceeds & Hgain
        & Hcash2 & Hgone).
  assert (Hprice' : price' = price).
  { rewrite Hdb1 in Hlatest'.
    change (latest_price db ticker = Some price') in Hlatest'.
    congruence. }
  subst price'.
  assert (Hposition : pos = mk_stock_position kid_id ticker shares_bought
                                              (ROUND p_dollar_amount 2)).
  { rewrite Hdb1 in Hfound. unfold position_of in Hfound, Hnone.
    cbn [stock_positions set_stock_positions set_transactions] in Hfound.
    rewrite (find_last_position _ _ _ _ Hnone) in Hfound
      by (unfold same_position; simpl; rewrite Nat.eqb_refl, String.eqb_refl;
          reflexivity).
    assert (Hid : ROUND shares_bought 8 = shares_bought)
      by (rewrite Hshares; apply ROUND_idem).
    rewrite Hid in Hfound. congruence. }
  subst pos. cbn [p_shares p_cost_basis] in *.
  assert (Hq : 0 < p_dollar_amount / price)
    by (apply (ROUND_pos _ 8); rewrite <- Hshares; exact Hsh).
  assert (Hp : 0 < price).
  { destruct (Qlt_le_dec 0 price) as [L|L]; [exact L|]. exfalso.
    assert (Hneg : price < 0).
    { destruct (Qlt_le_dec price 0) as [L'|L']; [exact L'|].
      exfalso. apply Hnz. lra. }
    assert (Hinv : / price < 0).
    { setoid_replace (/ price) with (- / - price)
        by (field; exact Hnz).
      assert (0 < / - price) by (apply Qinv_lt_0_compat; lra). lra. }
    unfold Qdiv in Hq. nra. }
  assert (Herr := ROUND_8_error (p_dollar_amount / price)).
  rewrite <- Hshares in Herr.
  assert (Hnear : Qabs (shares_bought * price - p_dollar_amount) < 1 # 200).
  { apply Qabs_Qle_condition in Herr. destruct Herr as [E1 E2].
    assert (Ha : p_dollar_amount / price * price == p_dollar_amount)
      by (field; exact Hnz).
    remember (p_dollar_amount / price) as q eqn:Eq. clear Eq.
    assert (L1 : (shares_bought - q) * price <= (1 # 200000000) * price)
      by (apply Qmult_le_compat_r; lra).
    assert (L2 : - (1 # 200000000) * price <= (shares_bought - q) * price)
      by (apply Qmult_le_compat_r; lra).
    apply Qabs_Qlt_condition. split.
    - setoid_replace (shares_bought * price - p_dollar_amount)
        with ((shares_bought - q) * price) by (rewrite <- Ha; ring).
      lra.
    - setoid_replace (shares_bought * price - p_dollar_amount)
        with ((shares_bought - q) * price) by (rewrite <- Ha; ring).
      lra. }
  assert (Hpaid : proceeds == p_dollar_amount).
  { rewrite Hproceeds. apply ROUND_2_near; assumption. }
  split; [exact Hsold|]. split; [reflexivity|]. split; [exact Hpaid|].
  split; [|split; [|exact Hgone]].
  - rewrite Hgain, Hsold.
    assert (Hz : proceeds
                 - ROUND (ROUND p_dollar_amount 2 / shares_bought * shares_bought) 2
                 == 0).
    { assert (Hc : ROUND p_dollar_amount 2 / shares_bought * shares_bought
                   == p_dollar_amount)
        by (rewrite Hr; field; lra).
      rewrite (ROUND_comp _ _ 2 Hc), Hr, Hpaid. ring. }
    rewrite (ROUND_comp _ _ 2 Hz). reflexivity.
  - rewrite Hcash2, Hpaid, Hdb1.
    cbn [transactions set_stock_positions set_transactions].
    rewrite Hcash1. ring.
Qed.

Lemma buy_then_sell_all_witness :
  exists shares price cash1 db1 proceeds gain cash2 db2,
    buy_stock (Example.on_day Example.day0) Example.aiden "NVDA" 333.33
              Example.investor
    = Ok ((shares, price, cash1), db1) /\
    sell_stock (Example.on_day Example.day0) Example.aiden "NVDA" 0 db1
    = Ok ((shares, price, proceeds, gain, cash2), db2) /\
    shares == 0.41666250 /\ proceeds == 333.33 /\ gain == 0 /\ cash2 == 1000.
Proof.
  destruct (buy_stock (Example.on_day Example.day0) Example.aiden "NVDA" 333.33
                      Example.investor)
    as [[[[shares price] cash1] db1]|e] eqn:Ebuy;
    [|vm_compute in Ebuy; discriminate].
  destruct (sell_stock (Example.on_day Example.day0) Example.aiden "NVDA" 0 db1)
    as [[[[[[sold price'] proceeds] gain] cash2] db2]|e] eqn:Esell.
  2:{ vm_compute in Ebuy. inversion Ebuy. subst. vm_compute in Esell.
      discriminate. }
  assert (Hprice : price = 800) by (vm_compute in Ebuy; inversion Ebuy; reflexivity).
  assert (Hshares : shares == 0.41666250)
    by (vm_compute in Ebuy; inversion Ebuy; reflexivity).
  destruct (buy_then_sell_all
              (Example.on_day Example.day0) (Example.on_day Example.day0)
              Example.aiden "NVDA" 333.33 Example.investor db1 db2
              shares price cash1 sold price' proceeds gain cash2
              eq_refl Ebuy Esell)
    as (Hsold & Hp & Hpaid & Hgain & Hcash & _).
  { rewrite Hprice. reflexivity. }
  subst sold price'.
  exists shares, price, cash1, db1, proceeds, gain, cash2, db2.
  split; [reflexivity|]. split; [exact Esell|].
  split; [exact Hshares|]. split; [exact Hpaid|]. split; [exact Hgain|].
  rewrite Hcash. vm_compute. reflexivity.
Defined.

End RoundTrip.
